(** * Shard distributor: coordination store (etcd backend) and elector

    A shallow embedding of [service/sharddistributor/store/etcd/etcdstore.go]
    together with the parts of its environment the store talks to: the Go
    string helpers it calls, [strconv.ParseInt], the etcd key-value backend
    with its transactions and watch events, and the goroutine behind
    [Subscribe].  The elector, whose implementation file is not part of the
    sources at hand, is modelled from the specification and from its test
    file. *)

From Stdlib Require Import ZArith Ascii.
From stdpp Require Import gmap strings list sorting.

Local Open Scope Z_scope.
Set Warnings "-clear-no-such-hyp".

(** ** Go strings *)

Module GoStrings.

(** [strings.TrimPrefix] when the prefix is there, [None] when it is not;
    [strings.HasPrefix] is the test whether this is [Some]. *)
Fixpoint CutPrefix (s prefix : string) : option string :=
  match prefix, s with
  | EmptyString, _ => Some s
  | String a p, String b s' => if decide (a = b) then CutPrefix s' p else None
  | String _ _, EmptyString => None
  end.

Definition HasPrefix (s prefix : string) : bool :=
  match CutPrefix s prefix with Some _ => true | None => false end.

Definition TrimPrefix (s prefix : string) : string :=
  default s (CutPrefix s prefix).

(** [strings.Split(s, sep)] for a separator of one byte, as the store uses
    it (sep = "/").  The result always has at least one part. *)
Fixpoint Split (sep : ascii) (s : string) : list string :=
  match s with
  | EmptyString => [EmptyString]
  | String c s' =>
      if decide (c = sep) then EmptyString :: Split sep s'
      else match Split sep s' with
           | p :: ps => String c p :: ps
           | [] => [String c EmptyString]
           end
  end.

(** [strings.Contains(s, substr)] *)
Fixpoint Contains (s substr : string) : bool :=
  HasPrefix s substr ||
  match s with
  | EmptyString => false
  | String _ s' => Contains s' substr
  end.

(** A byte occurs in a string. *)
Fixpoint has_byte (c : ascii) (s : string) : bool :=
  match s with
  | EmptyString => false
  | String a s' => bool_decide (a = c) || has_byte c s'
  end.

End GoStrings.

(** ** strconv: decimal integers

    [fmt.Sprintf("%d", v)] for an [int64] and [strconv.ParseInt(s, 10, 64)],
    the two conversions the store applies to the heartbeat timestamp.
    Integers are [Z]; the 64-bit wrap-around is written out. *)

Module Strconv.

Definition maxUint64 : Z := 2 ^ 64 - 1.
Definition minInt64 : Z := - 2 ^ 63.
Definition maxInt64 : Z := 2 ^ 63 - 1.

Definition is_int64 (v : Z) : Prop := minInt64 ≤ v ≤ maxInt64.

(** [int64(u)] of an unsigned value, and negation of an [int64]. *)
Definition wrap64 (z : Z) : Z := (z + 2 ^ 63) mod 2 ^ 64 - 2 ^ 63.

(** The [Err] field of a [*strconv.NumError]. *)
Inductive NumError := ErrSyntax | ErrRange.

Definition digit_char (d : Z) : ascii := ascii_of_N (Z.to_N (48 + d)).

(** The value of a byte as a base-10 digit; letters are digits of larger
    bases and are refused like every other byte. *)
Definition digit_val (c : ascii) : option Z :=
  let n := Z.of_N (N_of_ascii c) in
  if (48 <=? n) && (n <=? 57) then Some (n - 48) else None.

(** [formatBits]: the digits of [u], least significant first, pushed in
    front of [acc]. Twenty rounds are enough below [2^64]. *)
Fixpoint format_bits (fuel : nat) (u : Z) (acc : string) : string :=
  match fuel with
  | O => acc
  | S f =>
      let acc' := String (digit_char (u mod 10)) acc in
      if u <? 10 then acc' else format_bits f (u / 10) acc'
  end.

(** [fmt.Sprintf("%d", v)], [v] an [int64]. *)
Definition FormatInt (v : Z) : string :=
  if v <? 0 then String "-" (format_bits 20 (- v) "") else format_bits 20 v "".

(** The loop of [ParseUint] for base 10 and 64 bits. It returns as soon as
    the value read so far overflows, without looking at the bytes that
    follow. *)
Fixpoint parse_uint_loop (s : string) (n : Z) : Z * option NumError :=
  match s with
  | EmptyString => (n, None)
  | String c s' =>
      match digit_val c with
      | None => (0, Some ErrSyntax)
      | Some d =>
          if maxUint64 / 10 + 1 <=? n then (maxUint64, Some ErrRange)
          else
            let n10 := n * 10 in
            let n1 := (n10 + d) mod 2 ^ 64 in
            if (n1 <? n10) || (maxUint64 <? n1) then (maxUint64, Some ErrRange)
            else parse_uint_loop s' n1
      end
  end.

Definition ParseUint (s : string) : Z * option NumError :=
  match s with
  | EmptyString => (0, Some ErrSyntax)
  | _ => parse_uint_loop s 0
  end.

(** [strconv.ParseInt(s, 10, 64)]: value and error, both returned. *)
Definition ParseInt (s : string) : Z * option NumError :=
  match s with
  | EmptyString => (0, Some ErrSyntax)
  | String c rest =>
      let neg := bool_decide (c = "-"%char) in
      let s1 := if decide (c = "+"%char) then rest
                else if decide (c = "-"%char) then rest else s in
      match ParseUint s1 with
      | (_, Some ErrSyntax) => (0, Some ErrSyntax)
      | (un, _) =>
          if negb neg && (2 ^ 63 <=? un) then (maxInt64, Some ErrRange)
          else if neg && (2 ^ 63 <? un) then (minInt64, Some ErrRange)
          else
            let n := wrap64 un in
            (if neg then wrap64 (- n) else n, None)
      end
  end.

(** A decimal literal: an optional sign and at least one digit. *)
Fixpoint all_digits (s : string) : bool :=
  match s with
  | EmptyString => true
  | String c s' => bool_decide (is_Some (digit_val c)) && all_digits s'
  end.

Definition is_decimal_literal (s : string) : bool :=
  match s with
  | EmptyString => false
  | String c rest =>
      if decide (c = "+"%char ∨ c = "-"%char)
      then negb (bool_decide (rest = EmptyString)) && all_digits rest
      else all_digits s
  end.

End Strconv.

(** ** Go errors and results *)

(** An [error] value: the sentinel [store.ErrExecutorNotFound], an error made
    from a message ([errors.New], [fmt.Errorf] without [%w], or an error of a
    library), and [fmt.Errorf("<msg>: %w", cause)]. *)
Inductive error : Type :=
| ErrExecutorNotFound
| Errorf (msg : string)
| Wrapf (msg : string) (cause : error).

Global Instance error_eq_dec : EqDecision error.
Proof. solve_decision. Defined.

(** [err.Error()] *)
Fixpoint Error (e : error) : string :=
  match e with
  | ErrExecutorNotFound => "executor not found"
  | Errorf msg => msg
  | Wrapf msg cause => msg +:+ ": " +:+ Error cause
  end.

(** A Go pair [(value, error)] of which one side is meaningful. *)
Inductive result (A : Type) : Type :=
| Ok (a : A)
| Err (e : error).
Global Arguments Ok {A} a.
Global Arguments Err {A} e.

(** ** The etcd backend

    The key-value store behind [clientv3.Client], as far as the store uses
    it: a revisioned keyspace, prefix reads in key order, transactions of
    compares and put/delete operations, and the events a committed
    transaction hands to watchers.  Every put yields an event and a new
    modification revision, whether or not the value differs from the stored
    one. *)

Module Etcd.

Record Entry := {
  value : string;
  create_revision : Z;
  mod_revision : Z;
  version : Z;
}.

Record Backend := {
  data : gmap string Entry;
  revision : Z;
}.

(** [mvccpb.KeyValue] *)
Record KeyValue := {
  Key : string;
  Value : string;
  CreateRevision : Z;
  ModRevision : Z;
  Version : Z;
}.

Global Instance KeyValue_eq_dec : EqDecision KeyValue.
Proof. solve_decision. Defined.

Definition to_kv (p : string * Entry) : KeyValue :=
  {| Key := p.1; Value := value p.2; CreateRevision := create_revision p.2;
     ModRevision := mod_revision p.2; Version := version p.2 |}.

Definition key_le (a b : KeyValue) : Prop := String.le (Key a) (Key b).

Global Instance key_le_dec : RelDecision key_le.
Proof. intros a b. unfold key_le. apply _. Defined.

(** The keys under a prefix, in key order ([WithPrefix]). *)
Definition range_prefix (d : gmap string Entry) (prefix : string) : list KeyValue :=
  merge_sort key_le
    (filter (λ kv, GoStrings.HasPrefix (Key kv) prefix = true)
            (to_kv <$> map_to_list d)).

Record GetResponse := {
  Kvs : list KeyValue;
  Count : Z;
  Header_Revision : Z;
}.

(** [client.Get(ctx, prefix, clientv3.WithPrefix())]; [fault] is the error
    of a failed round trip, if the environment makes this one fail. *)
Definition Get (fault : option error) (b : Backend) (prefix : string)
  : result GetResponse :=
  match fault with
  | Some e => Err e
  | None =>
      let kvs := range_prefix (data b) prefix in
      Ok {| Kvs := kvs; Count := Z.of_nat (length kvs);
            Header_Revision := revision b |}
  end.

(** *** Watch events *)

Inductive EventType := PUT | DELETE.

Global Instance EventType_eq_dec : EqDecision EventType.
Proof. solve_decision. Defined.

Record Event := {
  Type_ : EventType;
  Kv : KeyValue;
}.

Definition IsCreate (e : Event) : bool :=
  bool_decide (Type_ e = PUT) && (CreateRevision (Kv e) =? ModRevision (Kv e)).

Definition IsModify (e : Event) : bool :=
  bool_decide (Type_ e = PUT) && negb (CreateRevision (Kv e) =? ModRevision (Kv e)).

Record WatchResponse := {
  Events : list Event;
  WatchRevision : Z;
  WatchErr : option error;
}.

(** *** Transactions *)

Inductive CompareResult := EQUAL | GREATER | LESS | NOT_EQUAL.

Inductive CompareTarget :=
| VERSION (v : Z)
| CREATE (rev : Z)
| MOD (rev : Z)
| VALUE (v : string).

Record Cmp := {
  CmpKey : string;
  CmpResult : CompareResult;
  CmpTarget : CompareTarget;
}.

Inductive Op :=
| OpPut (key val : string)
| OpDelete (key : string) (withPrefix : bool).

(** A transaction under construction. [None] is "not called yet": the
    client refuses [If] after any clause, [Then] after [Then] or [Else],
    and [Else] after [Else], and it refuses by panicking. *)
Record Txn := {
  cmps : option (list Cmp);
  sus : option (list Op);
  fas : option (list Op);
}.

Definition NewTxn : Txn := {| cmps := None; sus := None; fas := None |}.

Definition If (t : Txn) (cs : list Cmp) : option Txn :=
  match cmps t, sus t, fas t with
  | None, None, None => Some {| cmps := Some cs; sus := None; fas := None |}
  | _, _, _ => None
  end.

Definition Then (t : Txn) (ops : list Op) : option Txn :=
  match sus t, fas t with
  | None, None => Some {| cmps := cmps t; sus := Some ops; fas := None |}
  | _, _ => None
  end.

Definition Else (t : Txn) (ops : list Op) : option Txn :=
  match fas t with
  | None => Some {| cmps := cmps t; sus := sus t; fas := Some ops |}
  | _ => None
  end.

Definition compare_holds (r : CompareResult) (c : comparison) : bool :=
  match r, c with
  | EQUAL, Eq | GREATER, Gt | LESS, Lt => true
  | NOT_EQUAL, (Lt | Gt) => true
  | _, _ => false
  end.

(** A compare on a key that does not exist sees revision and version 0,
    and fails when it is about the value. *)
Definition eval_cmp (d : gmap string Entry) (c : Cmp) : bool :=
  match CmpTarget c, d !! CmpKey c with
  | VERSION v, Some e => compare_holds (CmpResult c) (version e ?= v)
  | VERSION v, None => compare_holds (CmpResult c) (0 ?= v)
  | CREATE r, Some e => compare_holds (CmpResult c) (create_revision e ?= r)
  | CREATE r, None => compare_holds (CmpResult c) (0 ?= r)
  | MOD r, Some e => compare_holds (CmpResult c) (mod_revision e ?= r)
  | MOD r, None => compare_holds (CmpResult c) (0 ?= r)
  | VALUE v, Some e => compare_holds (CmpResult c) (String.compare (value e) v)
  | VALUE _, None => false
  end.

Definition eval_cmps (d : gmap string Entry) (cs : list Cmp) : bool :=
  forallb (eval_cmp d) cs.

Definition delete_matches (key : string) (withPrefix : bool) (k : string) : bool :=
  if withPrefix then GoStrings.HasPrefix k key else bool_decide (k = key).

Definition delete_event (rev : Z) (kv : KeyValue) : Event :=
  {| Type_ := DELETE;
     Kv := {| Key := Key kv; Value := ""; CreateRevision := 0;
              ModRevision := rev; Version := 0 |} |}.

(** What a put at revision [rev] stores: a key that exists keeps its
    creation revision and counts one more version. *)
Definition put_entry (rev : Z) (d : gmap string Entry) (key val : string) : Entry :=
  match d !! key with
  | Some old => {| value := val; create_revision := create_revision old;
                   mod_revision := rev; version := version old + 1 |}
  | None => {| value := val; create_revision := rev;
               mod_revision := rev; version := 1 |}
  end.

(** One operation of a transaction that commits at revision [rev]. *)
Definition apply_op (rev : Z) (d : gmap string Entry) (op : Op)
  : gmap string Entry * list Event :=
  match op with
  | OpPut key val =>
      let e := put_entry rev d key val in
      (<[key := e]> d, [ {| Type_ := PUT; Kv := to_kv (key, e) |} ])
  | OpDelete key withPrefix =>
      let gone := filter (λ kv, delete_matches key withPrefix (Key kv) = true)
                         (merge_sort key_le (to_kv <$> map_to_list d)) in
      (filter (λ p, delete_matches key withPrefix p.1 = false) d,
       delete_event rev <$> gone)
  end.

Fixpoint apply_ops (rev : Z) (d : gmap string Entry) (ops : list Op)
  : gmap string Entry * list Event :=
  match ops with
  | [] => (d, [])
  | op :: rest =>
      let '(d1, ev1) := apply_op rev d op in
      let '(d2, ev2) := apply_ops rev d1 rest in
      (d2, ev1 ++ ev2)
  end.

Definition put_keys (ops : list Op) : list string :=
  omap (λ op, match op with OpPut k _ => Some k | _ => None end) ops.

(** The request check of the server: in one branch no key is put twice and
    no put falls into a deleted range. *)
Definition ops_conflict (ops : list Op) : bool :=
  negb (bool_decide (NoDup (put_keys ops)))
  || existsb (λ op, match op with
                    | OpDelete key wp => existsb (delete_matches key wp) (put_keys ops)
                    | OpPut _ _ => false
                    end) ops.

Record TxnResponse := {
  Succeeded : bool;
  TxnRevision : Z;
}.

Definition ErrDuplicateKey : error :=
  Errorf "etcdserver: duplicate key given in txn request".

(** What the server makes of a transaction: the response or its refusal,
    the backend afterwards and the events of this revision. The branch
    taken is applied as a whole at revision [revision b + 1]; the revision
    moves only if something was written. *)
Definition apply_txn (b : Backend) (t : Txn)
  : result TxnResponse * Backend * list Event :=
  if ops_conflict (default [] (sus t)) || ops_conflict (default [] (fas t))
  then (Err ErrDuplicateKey, b, [])
  else
    let ok := eval_cmps (data b) (default [] (cmps t)) in
    let ops := default [] (if ok then sus t else fas t) in
    let '(d, evs) := apply_ops (revision b + 1) (data b) ops in
    let rev := match evs with [] => revision b | _ => revision b + 1 end in
    (Ok {| Succeeded := ok; TxnRevision := rev |},
     {| data := d; revision := rev |}, evs).

(** How the round trip of a transaction fails, when the environment makes
    it fail: the request does not reach the server, which then does
    nothing; or the server handles the transaction and its answer does not
    reach the client (a timeout, a connection lost after the request was
    sent). The client gets an error in both cases and cannot tell them
    apart. *)
Inductive Fault :=
| RequestLost (e : error)
| ResponseLost (e : error).

(** [txn.Commit()]: the response or the error the client gets, the backend
    afterwards and the events of this revision. *)
Definition Commit (fault : option Fault) (b : Backend) (t : Txn)
  : result TxnResponse * Backend * list Event :=
  match fault with
  | None => apply_txn b t
  | Some (RequestLost e) => (Err e, b, [])
  | Some (ResponseLost e) =>
      let '(_, b', evs) := apply_txn b t in (Err e, b', evs)
  end.

(** What a watcher of [prefix] receives for the events of one revision:
    nothing when none of them is under the prefix. *)
Definition watch_response (prefix : string) (rev : Z) (evs : list Event)
  : option WatchResponse :=
  match filter (λ e, GoStrings.HasPrefix (Key (Kv e)) prefix = true) evs with
  | [] => None
  | evs' => Some {| Events := evs'; WatchRevision := rev; WatchErr := None |}
  end.

End Etcd.

(** ** The store: data model *)

(** A Go [map[string]V]: [None] is the nil map. *)
Abbreviation GoMap V := (option (gmap string V)).

(** [encoding/json] at the map types the store serializes: [json.Marshal] of
    a map, and the value a document decodes to. *)
Class JSON (V : Type) := {
  Marshal : GoMap V → result string;
  Unmarshal : string → result (GoMap V);
}.

(** [json.Unmarshal(data, &m)], [m] a map: [null] makes [m] nil, an object
    stores its entries into [m], allocating it when it is nil. *)
Definition UnmarshalInto {V} `{!JSON V} (data : string) (m : GoMap V)
  : result (GoMap V) :=
  match Unmarshal data with
  | Err e => Err e
  | Ok None => Ok None
  | Ok (Some d) => Ok (Some (d ∪ default ∅ m))
  end.

Section Store.

(** [store.ShardState] and [store.ShardAssignment] are declared outside of
    the store's file; the store only moves them through JSON. *)
Context {ShardState ShardAssignment : Type}.
Context `{!JSON ShardState, !JSON ShardAssignment}.

(** [store.HeartbeatState]; [State] is a [store.ExecutorState], a string. *)
Record HeartbeatState := {
  hb_ExecutorID : string;
  LastHeartbeat : Z;
  State : string;
  hb_ReportedShards : GoMap ShardState;
}.

(** [store.AssignedState] *)
Record AssignedState := {
  as_ExecutorID : string;
  as_ReportedShards : GoMap ShardState;
  AssignedShards : GoMap ShardAssignment;
}.

(** [store.Txn] is an empty interface: a guard may hand back an etcd
    transaction or something else. *)
Inductive StoreTxn :=
| EtcdTxn (t : Etcd.Txn)
| OtherTxn.

(** [store.GuardFunc] *)
Definition GuardFunc : Type := StoreTxn → result StoreTxn.

(** The receiver; its client is the backend, passed along explicitly. *)
Record Store := { prefix : string }.

Definition heartbeatKey : string := "heartbeat".
Definition stateKey : string := "state".
Definition reportedShardsKey : string := "reported_shards".
Definition assignedShardsKey : string := "assigned_shards".

(** *** Key management utilities *)

Definition buildNamespacePrefix (s : Store) (namespace : string) : string :=
  prefix s +:+ "/" +:+ namespace.

Definition buildExecutorPrefix (s : Store) (namespace : string) : string :=
  buildNamespacePrefix s namespace +:+ "/executors/".

Definition buildExecutorKey (s : Store) (namespace executorID keyType : string)
  : string :=
  buildExecutorPrefix s namespace +:+ executorID +:+ "/" +:+ keyType.

Definition parseExecutorKey (s : Store) (namespace key : string)
  : result (string * string) :=
  let prefix := buildExecutorPrefix s namespace in
  if negb (GoStrings.HasPrefix key prefix) then
    Err (Errorf ("key '" +:+ key +:+ "' does not have expected prefix '"
                 +:+ prefix +:+ "'"))
  else
    let remainder := GoStrings.TrimPrefix key prefix in
    match GoStrings.Split "/" remainder with
    | [executorID; keyType] => Ok (executorID, keyType)
    | _ => Err (Errorf ("unexpected key format: " +:+ key))
    end.

(** *** What a mutating call leaves behind *)

Inductive Ret :=
| Return (err : option error)
| Panic.

Record Outcome := {
  ret : Ret;
  backend : Etcd.Backend;
  committed : list Etcd.Txn;   (* the transactions sent with Commit *)
  events : list Etcd.Event;    (* the events the backend published *)
}.

Definition returns (err : option error) (b : Etcd.Backend) : Outcome :=
  {| ret := Return err; backend := b; committed := []; events := [] |}.

(** *** HeartbeatStore *)

(** [now] is [time.Now().Unix()]. *)
Definition RecordHeartbeat (s : Store) (now : Z) (fault : option Etcd.Fault)
    (namespace : string) (request : HeartbeatState) (b : Etcd.Backend) : Outcome :=
  let heartbeatKey := buildExecutorKey s namespace (hb_ExecutorID request) heartbeatKey in
  let stateKey := buildExecutorKey s namespace (hb_ExecutorID request) stateKey in
  let reportedShardsKey :=
    buildExecutorKey s namespace (hb_ExecutorID request) reportedShardsKey in
  match Marshal (hb_ReportedShards request) with
  | Err err => returns (Some (Wrapf "marshal assinged shards" err)) b
  | Ok reportedShardsData =>
      match Etcd.Then Etcd.NewTxn
              [Etcd.OpPut heartbeatKey (Strconv.FormatInt now);
               Etcd.OpPut stateKey (State request);
               Etcd.OpPut reportedShardsKey reportedShardsData] with
      | None => {| ret := Panic; backend := b; committed := []; events := [] |}
      | Some txn =>
          let '(r, b', evs) := Etcd.Commit fault b txn in
          {| ret := Return match r with
                           | Err err => Some (Wrapf "record heartbeat" err)
                           | Ok _ => None
                           end;
             backend := b'; committed := [txn]; events := evs |}
      end
  end.

Definition set_LastHeartbeat (st : HeartbeatState) (t : Z) : HeartbeatState :=
  {| hb_ExecutorID := hb_ExecutorID st; LastHeartbeat := t; State := State st;
     hb_ReportedShards := hb_ReportedShards st |}.

Definition set_State (st : HeartbeatState) (v : string) : HeartbeatState :=
  {| hb_ExecutorID := hb_ExecutorID st; LastHeartbeat := LastHeartbeat st;
     State := v; hb_ReportedShards := hb_ReportedShards st |}.

Definition set_hb_ReportedShards (st : HeartbeatState) (m : GoMap ShardState)
  : HeartbeatState :=
  {| hb_ExecutorID := hb_ExecutorID st; LastHeartbeat := LastHeartbeat st;
     State := State st; hb_ReportedShards := m |}.

(** The loop of [GetHeartbeat] over [resp.Kvs], with the variables [state]
    and [found] it updates. The error of [ParseInt] is dropped and its
    value kept. *)
Fixpoint GetHeartbeat_loop (s : Store) (namespace : string)
    (kvs : list Etcd.KeyValue) (state : HeartbeatState) (found : bool)
  : result (HeartbeatState * bool) :=
  match kvs with
  | [] => Ok (state, found)
  | kv :: rest =>
      match parseExecutorKey s namespace (Etcd.Key kv) with
      | Err _ => GetHeartbeat_loop s namespace rest state found
      | Ok (_, keyType) =>
          if decide (keyType = heartbeatKey) then
            let timestamp := (Strconv.ParseInt (Etcd.Value kv)).1 in
            GetHeartbeat_loop s namespace rest (set_LastHeartbeat state timestamp) true
          else if decide (keyType = stateKey) then
            GetHeartbeat_loop s namespace rest (set_State state (Etcd.Value kv)) true
          else if decide (keyType = reportedShardsKey) then
            match UnmarshalInto (Etcd.Value kv) (hb_ReportedShards state) with
            | Err err => Err (Wrapf "unmarshal reported shards" err)
            | Ok m =>
                GetHeartbeat_loop s namespace rest (set_hb_ReportedShards state m) true
            end
          else GetHeartbeat_loop s namespace rest state true
      end
  end.

Definition GetHeartbeat (s : Store) (fault : option error)
    (namespace executorID : string) (b : Etcd.Backend) : result HeartbeatState :=
  let executorPrefix := buildExecutorKey s namespace executorID "" in
  match Etcd.Get fault b executorPrefix with
  | Err err => Err (Wrapf ("etcd get failed for executor " +:+ executorID) err)
  | Ok resp =>
      if Etcd.Count resp =? 0 then Err ErrExecutorNotFound
      else
        let state := {| hb_ExecutorID := executorID; LastHeartbeat := 0;
                        State := ""; hb_ReportedShards := None |} in
        match GetHeartbeat_loop s namespace (Etcd.Kvs resp) state false with
        | Err err => Err err
        | Ok (state, found) =>
            if negb found then Err ErrExecutorNotFound else Ok state
        end
  end.

(** *** ShardStore *)

Definition set_as_ReportedShards (a : AssignedState) (m : GoMap ShardState)
  : AssignedState :=
  {| as_ExecutorID := as_ExecutorID a; as_ReportedShards := m;
     AssignedShards := AssignedShards a |}.

Definition set_AssignedShards (a : AssignedState) (m : GoMap ShardAssignment)
  : AssignedState :=
  {| as_ExecutorID := as_ExecutorID a; as_ReportedShards := as_ReportedShards a;
     AssignedShards := m |}.

(** The loop of [GetState] over [resp.Kvs] with its two maps. *)
Fixpoint GetState_loop (s : Store) (namespace : string) (kvs : list Etcd.KeyValue)
    (heartbeatStates : gmap string HeartbeatState)
    (assignedStates : gmap string AssignedState)
  : result (gmap string HeartbeatState * gmap string AssignedState) :=
  match kvs with
  | [] => Ok (heartbeatStates, assignedStates)
  | kv :: rest =>
      match parseExecutorKey s namespace (Etcd.Key kv) with
      | Err _ => GetState_loop s namespace rest heartbeatStates assignedStates
      | Ok (executorID, keyType) =>
          let heartbeat :=
            default {| hb_ExecutorID := executorID; LastHeartbeat := 0; State := "";
                       hb_ReportedShards := None |}
                    (heartbeatStates !! executorID) in
          let assigned :=
            default {| as_ExecutorID := executorID; as_ReportedShards := Some ∅;
                       AssignedShards := Some ∅ |}
                    (assignedStates !! executorID) in
          let continue heartbeat assigned :=
            GetState_loop s namespace rest
              (<[executorID := heartbeat]> heartbeatStates)
              (<[executorID := assigned]> assignedStates) in
          if decide (keyType = heartbeatKey) then
            let timestamp := (Strconv.ParseInt (Etcd.Value kv)).1 in
            continue (set_LastHeartbeat heartbeat timestamp) assigned
          else if decide (keyType = stateKey) then
            continue (set_State heartbeat (Etcd.Value kv)) assigned
          else if decide (keyType = reportedShardsKey) then
            match UnmarshalInto (Etcd.Value kv) (as_ReportedShards assigned) with
            | Err err => Err (Wrapf "unmarshal reported shards" err)
            | Ok m => continue heartbeat (set_as_ReportedShards assigned m)
            end
          else if decide (keyType = assignedShardsKey) then
            match UnmarshalInto (Etcd.Value kv) (AssignedShards assigned) with
            | Err err => Err (Wrapf "unmarshal assigned shards" err)
            | Ok m => continue heartbeat (set_AssignedShards assigned m)
            end
          else continue heartbeat assigned
      end
  end.

Definition GetState (s : Store) (fault : option error) (namespace : string)
    (b : Etcd.Backend)
  : result (gmap string HeartbeatState * gmap string AssignedState * Z) :=
  let executorPrefix := buildExecutorPrefix s namespace in
  match Etcd.Get fault b executorPrefix with
  | Err err => Err (Wrapf "get executor data" err)
  | Ok resp =>
      match GetState_loop s namespace (Etcd.Kvs resp) ∅ ∅ with
      | Err err => Err err
      | Ok (heartbeatStates, assignedStates) =>
          Ok (heartbeatStates, assignedStates, Etcd.Header_Revision resp)
      end
  end.

(** The filter of [Subscribe] over the events of one watch response. *)
Fixpoint isSignificantChange (s : Store) (namespace : string)
    (events : list Etcd.Event) : bool :=
  match events with
  | [] => false
  | event :: rest =>
      if negb (Etcd.IsCreate event) && negb (Etcd.IsModify event) then true
      else
        match parseExecutorKey s namespace (Etcd.Key (Etcd.Kv event)) with
        | Err _ => isSignificantChange s namespace rest
        | Ok (_, keyType) =>
            if bool_decide (keyType ≠ heartbeatKey)
               && bool_decide (keyType ≠ assignedShardsKey)
            then true
            else isSignificantChange s namespace rest
        end
  end.

Definition ErrLeadershipLost : error :=
  Errorf "transaction failed, leadership may have changed".

(** The second half of [AssignShards] and of [DeleteExecutors], the same in
    both but for the message [what] put in front of a commit error: apply
    the guard to a fresh transaction, add the operations, commit. *)
Definition commit_guarded (what : string) (fault : option Etcd.Fault)
    (guard : GuardFunc) (ops : list Etcd.Op) (b : Etcd.Backend) : Outcome :=
  let nativeTxn := Etcd.NewTxn in
  match guard (EtcdTxn nativeTxn) with
  | Err err => returns (Some (Wrapf "apply transaction guard" err)) b
  | Ok OtherTxn =>
      returns (Some (Errorf "guard function returned invalid transaction type")) b
  | Ok (EtcdTxn etcdGuardedTxn) =>
      match Etcd.Then etcdGuardedTxn ops with
      | None => {| ret := Panic; backend := b; committed := []; events := [] |}
      | Some etcdGuardedTxn =>
          let '(r, b', evs) := Etcd.Commit fault b etcdGuardedTxn in
          {| ret := Return match r with
                           | Err err => Some (Wrapf what err)
                           | Ok resp =>
                               if negb (Etcd.Succeeded resp)
                               then Some ErrLeadershipLost
                               else None
                           end;
             backend := b'; committed := [etcdGuardedTxn]; events := evs |}
      end
  end.

(** The first loop of [AssignShards]: one put per entry of [newState]. *)
Fixpoint AssignShards_ops (s : Store) (namespace : string)
    (entries : list (string * AssignedState)) (ops : list Etcd.Op)
  : result (list Etcd.Op) :=
  match entries with
  | [] => Ok ops
  | (executorID, state) :: rest =>
      let key := buildExecutorKey s namespace executorID assignedShardsKey in
      match Marshal (AssignedShards state) with
      | Err err => Err (Wrapf "marshal assigned shards" err)
      | Ok value =>
          AssignShards_ops s namespace rest (ops ++ [Etcd.OpPut key value])
      end
  end.

(** Go leaves the order in which a map is ranged over open; [map_to_list]
    is one such order. *)
Definition AssignShards (s : Store) (fault : option Etcd.Fault)
    (namespace : string)
    (newState : gmap string AssignedState) (guard : GuardFunc)
    (b : Etcd.Backend) : Outcome :=
  match AssignShards_ops s namespace (map_to_list newState) [] with
  | Err err => returns (Some err) b
  | Ok ops =>
      if bool_decide (length ops = 0%nat) then returns None b
      else commit_guarded "commit shard assignments" fault guard ops b
  end.

Definition DeleteExecutors (s : Store) (fault : option Etcd.Fault)
    (namespace : string)
    (executorIDs : list string) (guard : GuardFunc) (b : Etcd.Backend) : Outcome :=
  if bool_decide (length executorIDs = 0%nat) then returns None b
  else
    let ops :=
      (λ executorID,
         let executorPrefix :=
           buildExecutorPrefix s namespace +:+ executorID +:+ "/" in
         Etcd.OpDelete executorPrefix true) <$> executorIDs in
    commit_guarded "commit executor deletion" fault guard ops b.

End Store.

(** The two maps [GetState] returns. *)
Abbreviation HeartbeatStates ShardState :=
  (gmap string (HeartbeatState (ShardState := ShardState))).
Abbreviation AssignedStates ShardState ShardAssignment :=
  (gmap string (AssignedState (ShardState := ShardState)
                  (ShardAssignment := ShardAssignment))).

(** An executor ID or key type that the key layout can carry: no ["/"]. *)
Definition slash_free (x : string) : Prop := GoStrings.has_byte "/" x = false.

(** A run of [RecordHeartbeat] calls, one after the other: when each one
    happens, whether its round trip fails, and what it reports. *)
Record HeartbeatCall {ShardState : Type} := {
  call_now : Z;
  call_fault : option Etcd.Fault;
  call_request : HeartbeatState (ShardState := ShardState);
}.
Global Arguments HeartbeatCall : clear implicits.

Fixpoint RecordHeartbeats {ShardState} `{!JSON ShardState} (s : Store)
    (namespace : string) (calls : list (HeartbeatCall ShardState))
    (b : Etcd.Backend) : list Ret * Etcd.Backend :=
  match calls with
  | [] => ([], b)
  | c :: rest =>
      let out := RecordHeartbeat s (call_now c) (call_fault c) namespace
                   (call_request c) b in
      let '(rets, b') := RecordHeartbeats s namespace rest (backend out) in
      (ret out :: rets, b')
  end.

(** JSON gives a map back as it was. *)
Definition json_faithful {V} `{!JSON V} (m : GoMap V) : Prop :=
  ∀ doc, Marshal m = Ok doc → Unmarshal doc = Ok m.

(** Some stored key under the prefix read for one executor parses as an
    executor key. *)
Definition has_valid_key (s : Store) (namespace executorID : string)
    (b : Etcd.Backend) : Prop :=
  ∃ key entry r,
    Etcd.data b !! key = Some entry
    ∧ GoStrings.HasPrefix key (buildExecutorKey s namespace executorID "") = true
    ∧ parseExecutorKey s namespace key = Ok r.

(** What holds of the two maps of [GetState] all along its loop over the
    keys of a keyspace [d]: they have the same executors, and a shard map of
    an assigned state is the empty map it was made as unless its key is
    stored. *)
Definition GetState_inv {ShardState ShardAssignment : Type}
    (s : Store) (namespace : string) (d : gmap string Etcd.Entry)
    (heartbeatStates : gmap string (HeartbeatState (ShardState := ShardState)))
    (assignedStates : gmap string (AssignedState (ShardState := ShardState)
                                     (ShardAssignment := ShardAssignment)))
  : Prop :=
  dom heartbeatStates = dom assignedStates
  ∧ ∀ executorID a, assignedStates !! executorID = Some a →
      (as_ReportedShards a = Some ∅
       ∨ is_Some (d !! buildExecutorKey s namespace executorID reportedShardsKey))
      ∧ (AssignedShards a = Some ∅
         ∨ is_Some (d !! buildExecutorKey s namespace executorID assignedShardsKey)).

(** Every stored reported-shards and assigned-shards value of the
    namespace decodes. *)
Definition shards_decodable {ShardState ShardAssignment : Type}
    `{!JSON ShardState, !JSON ShardAssignment}
    (s : Store) (namespace : string) (b : Etcd.Backend) : Prop :=
  ∀ key entry executorID, Etcd.data b !! key = Some entry →
    (parseExecutorKey s namespace key = Ok (executorID, reportedShardsKey) →
       ∃ m, Unmarshal (V := ShardState) (Etcd.value entry) = Ok m)
    ∧ (parseExecutorKey s namespace key = Ok (executorID, assignedShardsKey) →
         ∃ m, Unmarshal (V := ShardAssignment) (Etcd.value entry) = Ok m).

(** The key type a stored key parses to, if it parses. *)
Definition keyType_of (s : Store) (namespace : string) (kv : Etcd.KeyValue)
  : option string :=
  match parseExecutorKey s namespace (Etcd.Key kv) with
  | Ok (_, keyType) => Some keyType
  | Err _ => None
  end.

(** No two entries of a list of key-values have the same key type. *)
Definition typed_unique (s : Store) (namespace : string)
    (kvs : list Etcd.KeyValue) : Prop :=
  ∀ kv1 kv2 keyType, kv1 ∈ kvs → kv2 ∈ kvs →
    keyType_of s namespace kv1 = Some keyType →
    keyType_of s namespace kv2 = Some keyType → kv1 = kv2.

(** ** Subscribe: the watch goroutine and its channel

    [Subscribe] makes [revisionChan] with a buffer of one value and starts a
    goroutine that ranges over the watch channel.  The goroutine and the
    consumer of [revisionChan] are interleaved statement by statement. *)

Module Subscribe.

(** Where the goroutine stands. *)
Inductive PC :=
| Watching              (* in [range watchChan], waiting for a response *)
| Draining (rev : Z)    (* before [select { case <-revisionChan: default: }] *)
| Sending (rev : Z)     (* before [revisionChan <- rev] *)
| Exited.               (* returned; the deferred [close] has run *)

Record State := {
  pc : PC;
  slot : option Z;      (* the buffer of [revisionChan], capacity 1 *)
  closed : bool;        (* [revisionChan] is closed *)
  received : list Z;    (* what the consumer has received, oldest first *)
}.

(** The state [Subscribe] returns in. *)
Definition init : State :=
  {| pc := Watching; slot := None; closed := false; received := [] |}.

Inductive Action :=
| Deliver (resp : Etcd.WatchResponse)  (* the watch channel yields [resp] *)
| WatchClosed          (* the watch channel is closed: the context ended *)
| Step                 (* the goroutine runs its next channel statement *)
| Receive.             (* the consumer receives from [revisionChan] *)

(** One action; [None] when it cannot happen in this state (the party is
    blocked, or the goroutine is elsewhere). *)
Definition step (s : Store) (namespace : string) (a : Action) (st : State)
  : option State :=
  match a, pc st with
  | Deliver watchResp, Watching =>
      match Etcd.WatchErr watchResp with
      | Some _ =>
          Some {| pc := Exited; slot := slot st; closed := true;
                  received := received st |}
      | None =>
          if isSignificantChange s namespace (Etcd.Events watchResp)
          then Some {| pc := Draining (Etcd.WatchRevision watchResp);
                       slot := slot st; closed := closed st;
                       received := received st |}
          else Some st
      end
  | WatchClosed, Watching =>
      Some {| pc := Exited; slot := slot st; closed := true;
              received := received st |}
  | Step, Draining rev =>
      Some {| pc := Sending rev; slot := None; closed := closed st;
              received := received st |}
  | Step, Sending rev =>
      match slot st with
      | None => Some {| pc := Watching; slot := Some rev; closed := closed st;
                        received := received st |}
      | Some _ => None
      end
  | Receive, _ =>
      match slot st with
      | Some v => Some {| pc := pc st; slot := None; closed := closed st;
                          received := received st ++ [v] |}
      | None => if closed st then Some st else None
      end
  | _, _ => None
  end.

Fixpoint run (s : Store) (namespace : string) (acts : list Action) (st : State)
  : option State :=
  match acts with
  | [] => Some st
  | a :: rest =>
      match step s namespace a st with
      | Some st' => run s namespace rest st'
      | None => None
      end
  end.

(** The goroutine taking one response through the loop body with nothing
    in between. *)
Definition handle (watchResp : Etcd.WatchResponse) : list Action :=
  [Deliver watchResp; Step; Step].

Definition reachable (s : Store) (namespace : string) (st : State) : Prop :=
  ∃ acts, run s namespace acts init = Some st.

(** A response that makes the goroutine send its revision. *)
Definition significant (s : Store) (namespace : string)
    (watchResp : Etcd.WatchResponse) : Prop :=
  Etcd.WatchErr watchResp = None
  ∧ isSignificantChange s namespace (Etcd.Events watchResp) = true.

(** What holds in every state the goroutine and the consumer can get to:
    when the goroutine is about to send, the buffer is empty; the channel
    is closed exactly when the goroutine has returned. *)
Definition invariant (st : State) : Prop :=
  (∀ rev, pc st = Sending rev → slot st = None)
  ∧ (closed st = true ↔ pc st = Exited).

End Subscribe.

(** ** The elector *)

Module Elector.

(** The elector's implementation (the [elector] type with [Run] and
    [runElection], which the test file drives through mocks) is not among
    the sources; this module follows section 4.3 of the specification. *)

(** What ends a leadership. *)
Inductive Trigger :=
| SessionLost           (* [Election.Done()] fired *)
| LeaderPeriodElapsed   (* the rotation timer *)
| ContextCancelled.

Global Instance Trigger_eq_dec : EqDecision Trigger.
Proof. solve_decision. Defined.

(** What the collaborators answer during one pass. *)
Record Episode := {
  cancelled_in_wait : bool;     (* the context ends during the jitter wait *)
  campaign : option error;
  processor_run : option error;
  trigger : Trigger;
  terminate : option error;
  resign : option error;
}.

Inductive Event :=
| Campaign
| CreateProcessor
| ProcessorRun
| Emit (leading : bool)
| Await (t : Trigger)
| Terminate
| Resign
| Cooldown
| CloseChannel.

Global Instance Event_eq_dec : EqDecision Event.
Proof. solve_decision. Defined.

(** How a pass ends. *)
Inductive Ending :=
| Stopped                         (* the context ended *)
| CampaignFailure (err : error)
| OnLeaderFailure (err : error)   (* the error surfaced, tag included *)
| Rotated.                        (* leadership given up or lost *)

(** The shutdown every leading episode goes through. *)
Definition resigning : list Event := [Terminate; Resign; Emit false].

(** Modelled from the spec: [runElection], one pass of the elector, whose
    implementation is missing.  Wait the jitter; campaign; on success
    create a processor and call [Run]; an error of [Run] is an onLeader
    failure, surfaced under the tag "onLeader"; otherwise emit [true] and
    wait for the first of the election's [Done], the leader period and the
    context; in every case call [Terminate], then [Resign], then emit
    [false], whatever [Terminate] and [Resign] return. *)
Definition runElection (ep : Episode) : list Event * Ending :=
  if cancelled_in_wait ep then ([], Stopped)
  else
    match campaign ep with
    | Some err => ([Campaign], CampaignFailure err)
    | None =>
        match processor_run ep with
        | Some err =>
            ([Campaign; CreateProcessor; ProcessorRun] ++ resigning,
             OnLeaderFailure (Wrapf "onLeader" err))
        | None =>
            ([Campaign; CreateProcessor; ProcessorRun; Emit true;
              Await (trigger ep)] ++ resigning,
             match trigger ep with
             | ContextCancelled => Stopped
             | _ => Rotated
             end)
        end
    end.

(** Modelled from the spec: [Run], the loop of the elector, whose
    implementation is missing.  Passes follow one another until the
    context ends, when the channel is closed; a failed campaign is followed
    by the cooldown.  The script lists what happens in each pass; when it
    is used up the trace stops there. *)
Fixpoint Run (script : list Episode) : list Event :=
  match script with
  | [] => []
  | ep :: rest =>
      let '(tr, ending) := runElection ep in
      match ending with
      | Stopped => tr ++ [CloseChannel]
      | CampaignFailure _ => tr ++ [Cooldown] ++ Run rest
      | OnLeaderFailure _ | Rotated => tr ++ Run rest
      end
  end.

(** The values sent on the leadership channel. *)
Definition emissions (tr : list Event) : list bool :=
  omap (λ e, match e with Emit b => Some b | _ => None end) tr.

Definition count (e : Event) (tr : list Event) : nat :=
  length (filter (λ x, x = e) tr).

(** [true] is always followed by [false] before the next [true]. *)
Fixpoint alternating (l : list bool) : bool :=
  match l with
  | [] => true
  | true :: rest =>
      match rest with
      | false :: rest' => alternating rest'
      | _ => false
      end
  | false :: rest => alternating rest
  end.

End Elector.

(** ** Instances used in the examples *)

(** JSON for maps from strings to strings, in the shape [json.Marshal]
    gives them (keys in order, no white space), for keys and values without
    quotes and backslashes; a shard state or assignment that is a plain
    status string. *)
Module PlainJSON.

Definition dquote : ascii := ascii_of_nat 34.
Definition backslash : ascii := ascii_of_nat 92.

Definition quoted (s : string) : string :=
  String dquote (s +:+ String dquote EmptyString).

Definition plain (s : string) : bool :=
  negb (GoStrings.has_byte dquote s) && negb (GoStrings.has_byte backslash s).

Definition pair_le (a b : string * string) : Prop := String.le a.1 b.1.

Global Instance pair_le_dec : RelDecision pair_le.
Proof. intros a b. unfold pair_le. apply _. Defined.

Fixpoint join (sep : string) (l : list string) : string :=
  match l with
  | [] => EmptyString
  | [x] => x
  | x :: rest => x +:+ sep +:+ join sep rest
  end.

Definition marshal (m : GoMap string) : result string :=
  match m with
  | None => Ok "null"
  | Some m =>
      let entries := merge_sort pair_le (map_to_list m) in
      if forallb (λ p, plain p.1 && plain p.2) entries
      then Ok ("{" +:+ join "," ((λ p, quoted p.1 +:+ ":" +:+ quoted p.2) <$> entries)
                   +:+ "}")
      else Err (Errorf "json: unsupported value")
  end.

(** The text up to the next quote, and what follows the quote. *)
Fixpoint read_string (s : string) : option (string * string) :=
  match s with
  | EmptyString => None
  | String c rest =>
      if decide (c = dquote) then Some (EmptyString, rest)
      else if decide (c = backslash) then None
      else match read_string rest with
           | Some (str, rest') => Some (String c str, rest')
           | None => None
           end
  end.

(** The entries of an object after its opening brace. *)
Fixpoint read_entries (fuel : nat) (s : string) (acc : gmap string string)
  : option (gmap string string) :=
  match fuel with
  | O => None
  | S fuel =>
      match s with
      | String q s1 =>
          if decide (q = dquote) then
            match read_string s1 with
            | Some (k, String ":" (String q2 s2)) =>
                if decide (q2 = dquote) then
                  match read_string s2 with
                  | Some (v, String "," s3) => read_entries fuel s3 (<[k := v]> acc)
                  | Some (v, String "}" EmptyString) => Some (<[k := v]> acc)
                  | _ => None
                  end
                else None
            | _ => None
            end
          else None
      | EmptyString => None
      end
  end.

Definition unmarshal (data : string) : result (GoMap string) :=
  if decide (data = "null") then Ok None
  else if decide (data = "{}") then Ok (Some ∅)
  else match data with
       | String "{" rest =>
           match read_entries (String.length data) rest ∅ with
           | Some m => Ok (Some m)
           | None => Err (Errorf "invalid character in JSON document")
           end
       | _ => Err (Errorf "invalid character in JSON document")
       end.

Global Instance json : JSON string := {| Marshal := marshal; Unmarshal := unmarshal |}.

End PlainJSON.

(** Modelled from the spec: the guard that comes with a leadership grant
    (made by the election backend, which is not among the sources) attaches
    the precondition "still holds namespace leadership" to the transaction:
    here, that the leader key still has the modification revision seen when
    the campaign was won. *)
Definition leadershipGuard (leaderKey : string) (rev : Z) : GuardFunc :=
  λ txn,
    match txn with
    | EtcdTxn t =>
        match Etcd.If t [ {| Etcd.CmpKey := leaderKey; Etcd.CmpResult := Etcd.EQUAL;
                             Etcd.CmpTarget := Etcd.MOD rev |} ] with
        | Some t' => Ok (EtcdTxn t')
        | None => Err (Errorf "cannot attach the leadership precondition")
        end
    | OtherTxn => Err (Errorf "invalid transaction type")
    end.

(** ** Example data *)

Module Examples.
Import PlainJSON.

Definition store0 : Store := {| prefix := "/shard-distributor" |}.

Definition empty_backend : Etcd.Backend :=
  {| Etcd.data := ∅; Etcd.revision := 1 |}.

Definition heartbeat (executorID state : string) (shards : GoMap string)
  : HeartbeatState (ShardState := string) :=
  {| hb_ExecutorID := executorID; LastHeartbeat := 0; State := state;
     hb_ReportedShards := shards |}.

Definition call (now : Z) (req : HeartbeatState (ShardState := string))
  : HeartbeatCall string :=
  {| call_now := now; call_fault := None; call_request := req |}.

(** Two heartbeats of one executor, the second with other shards. *)
Definition two_calls : list (HeartbeatCall string) :=
  [ call 1700000000 (heartbeat "executor-1" "ACTIVE" (Some {[ "shard-1" := "ready" ]}));
    call 1700000005 (heartbeat "executor-1" "DRAINING"
                       (Some {[ "shard-1" := "done"; "shard-2" := "ready" ]})) ].

(** A heartbeat of an executor whose ID has a slash in it. *)
Definition slash_call : HeartbeatCall string :=
  call 1700000000 (heartbeat "rack-7/executor-1" "ACTIVE" (Some ∅)).

(** A keyspace in which the reported shards of an executor are not JSON. *)
Definition bad_shards_backend : Etcd.Backend :=
  {| Etcd.data :=
       {[ "/shard-distributor/ns/executors/executor-1/reported_shards" :=
            {| Etcd.value := "{bad"; Etcd.create_revision := 2;
               Etcd.mod_revision := 2; Etcd.version := 1 |} ]};
     Etcd.revision := 2 |}.

(** A keyspace in which the leader key of the namespace was written at
    revision 7: leadership has changed since a grant seen at revision 5. *)
Definition leader_key : string := "/election/ns/leader".

Definition new_leader_backend : Etcd.Backend :=
  {| Etcd.data :=
       {[ leader_key :=
            {| Etcd.value := "host-b"; Etcd.create_revision := 7;
               Etcd.mod_revision := 7; Etcd.version := 1 |};
          "/shard-distributor/ns/executors/executor-1/state" :=
            {| Etcd.value := "ACTIVE"; Etcd.create_revision := 3;
               Etcd.mod_revision := 3; Etcd.version := 1 |} ]};
     Etcd.revision := 7 |}.

Definition stale_guard : GuardFunc := leadershipGuard leader_key 5.

Definition assignment : gmap string (AssignedState (ShardState := string)
                                                   (ShardAssignment := string)) :=
  {[ "executor-1" :=
       {| as_ExecutorID := "executor-1"; as_ReportedShards := Some ∅;
          AssignedShards := Some {[ "shard-1" := "assigned" ]} |} ]}.

(** A keyspace in which the heartbeat of an executor is not a number. *)
Definition bad_timestamp_backend : Etcd.Backend :=
  {| Etcd.data :=
       {[ "/shard-distributor/ns/executors/executor-1/heartbeat" :=
            {| Etcd.value := "yesterday"; Etcd.create_revision := 2;
               Etcd.mod_revision := 2; Etcd.version := 1 |};
          "/shard-distributor/ns/executors/executor-1/state" :=
            {| Etcd.value := "ACTIVE"; Etcd.create_revision := 2;
               Etcd.mod_revision := 2; Etcd.version := 1 |} ]};
     Etcd.revision := 2 |}.

(** An executor that reports the same state and shards again, five seconds
    later. *)
Definition steady_request : HeartbeatState (ShardState := string) :=
  heartbeat "executor-1" "ACTIVE" (Some {[ "shard-1" := "ready" ]}).

Definition after_first_heartbeat : Etcd.Backend :=
  backend (RecordHeartbeat store0 1700000000 None "ns" steady_request empty_backend).

Definition second_heartbeat : Outcome :=
  RecordHeartbeat store0 1700000005 None "ns" steady_request after_first_heartbeat.

(** Two watch responses with a change of reported shards each. *)
Definition shards_changed (rev : Z) : Etcd.WatchResponse :=
  {| Etcd.Events :=
       [ {| Etcd.Type_ := Etcd.PUT;
            Etcd.Kv := {| Etcd.Key := "/shard-distributor/ns/executors/executor-1/reported_shards";
                          Etcd.Value := "{}"; Etcd.CreateRevision := 2;
                          Etcd.ModRevision := rev; Etcd.Version := rev |} |} ];
     Etcd.WatchRevision := rev;
     Etcd.WatchErr := None |}.

(** The run of the elector's test [TestOnLeader_Error]: the campaign is
    won and [Processor.Run] returns "leader error". *)
Definition onLeader_error_episode : Elector.Episode :=
  {| Elector.cancelled_in_wait := false; Elector.campaign := None;
     Elector.processor_run := Some (Errorf "leader error");
     Elector.trigger := Elector.ContextCancelled;
     Elector.terminate := None; Elector.resign := None |}.

(** The run of [TestElector_Run_Resign], "OnResign_and_resign_error": the
    leader period elapses, [Terminate] and [Resign] both fail. *)
Definition rotation_episode : Elector.Episode :=
  {| Elector.cancelled_in_wait := false; Elector.campaign := None;
     Elector.processor_run := None;
     Elector.trigger := Elector.LeaderPeriodElapsed;
     Elector.terminate := Some (Errorf "resign error");
     Elector.resign := Some (Errorf "failed to resign") |}.


End Examples.

(** ** Vocabulary of the further properties *)

(** What the keys of one executor say, field by field: the heartbeat time
    from the heartbeat key (0 without it), the state from the state key,
    the reported shards from the reported-shards key. *)
Definition stored_heartbeat {ShardState : Type} `{!JSON ShardState}
    (s : Store) (namespace executorID : string) (d : gmap string Etcd.Entry)
  : HeartbeatState (ShardState := ShardState) :=
  {| hb_ExecutorID := executorID;
     LastHeartbeat :=
       match d !! buildExecutorKey s namespace executorID heartbeatKey with
       | Some e => (Strconv.ParseInt (Etcd.value e)).1
       | None => 0
       end;
     State :=
       match d !! buildExecutorKey s namespace executorID stateKey with
       | Some e => Etcd.value e
       | None => ""
       end;
     hb_ReportedShards :=
       match d !! buildExecutorKey s namespace executorID reportedShardsKey with
       | Some e => match Unmarshal (Etcd.value e) with
                   | Ok m => m
                   | Err _ => None
                   end
       | None => None
       end |}.

(** The put of a key and a value given as a pair. *)
Definition put_of (p : string * string) : Etcd.Op := Etcd.OpPut p.1 p.2.

(** The revisions the goroutine of [Subscribe] is asked to pass on: those of
    the delivered responses without error that are significant, in the order
    of delivery. *)
Definition significant_revisions (s : Store) (namespace : string)
    (acts : list Subscribe.Action) : list Z :=
  omap (λ a, match a with
             | Subscribe.Deliver watchResp =>
                 match Etcd.WatchErr watchResp with
                 | Some _ => None
                 | None =>
                     if isSignificantChange s namespace (Etcd.Events watchResp)
                     then Some (Etcd.WatchRevision watchResp) else None
                 end
             | _ => None
             end) acts.

(** The revision the goroutine holds between taking a response and having
    sent it. *)
Definition in_flight (pc : Subscribe.PC) : list Z :=
  match pc with
  | Subscribe.Draining rev | Subscribe.Sending rev => [rev]
  | _ => []
  end.

(** The revisions that are on their way to the consumer or with it: those
    received, the one in the buffer, the one the goroutine holds. *)
Definition passed_on (st : Subscribe.State) : list Z :=
  Subscribe.received st ++ option_list (Subscribe.slot st)
    ++ in_flight (Subscribe.pc st).

(** The prefix [DeleteExecutors] deletes for an executor. *)
Definition executor_delete_prefix (s : Store) (namespace executorID : string)
  : string :=
  buildExecutorPrefix s namespace +:+ executorID +:+ "/".

(** The values a prefix read returns, by key. *)
Definition docs_of (kvs : list Etcd.KeyValue) : gmap string string :=
  list_to_map ((λ kv, (Etcd.Key kv, Etcd.Value kv)) <$> kvs).

(** What [GetState] makes of the stored values of one executor: the
    heartbeat state, in which it never sets the reported shards, ... *)
Definition state_heartbeat {ShardState : Type}
    (s : Store) (namespace executorID : string) (docs : gmap string string)
  : HeartbeatState (ShardState := ShardState) :=
  {| hb_ExecutorID := executorID;
     LastHeartbeat :=
       match docs !! buildExecutorKey s namespace executorID heartbeatKey with
       | Some v => (Strconv.ParseInt v).1
       | None => 0
       end;
     State := default "" (docs !! buildExecutorKey s namespace executorID stateKey);
     hb_ReportedShards := None |}.

(** ... a shard map, empty when its key is absent, ... *)
Definition shards_of {V : Type} `{!JSON V} (doc : option string) : GoMap V :=
  match doc with
  | None => Some ∅
  | Some v => match Unmarshal v with Ok m => m | Err _ => Some ∅ end
  end.

(** ... and the assigned state with its two shard maps. *)
Definition state_assigned {ShardState ShardAssignment : Type}
    `{!JSON ShardState, !JSON ShardAssignment}
    (s : Store) (namespace executorID : string) (docs : gmap string string)
  : AssignedState (ShardState := ShardState) (ShardAssignment := ShardAssignment) :=
  {| as_ExecutorID := executorID;
     as_ReportedShards :=
       shards_of (docs !! buildExecutorKey s namespace executorID reportedShardsKey);
     AssignedShards :=
       shards_of (docs !! buildExecutorKey s namespace executorID assignedShardsKey) |}.

(** The two maps hold, for each executor, what the values [docs] say: no
    entry for an executor without a key, and the states above for one with
    a key. *)
Definition GetState_reads {ShardState ShardAssignment : Type}
    `{!JSON ShardState, !JSON ShardAssignment}
    (s : Store) (namespace : string) (docs : gmap string string)
    (hs : gmap string (HeartbeatState (ShardState := ShardState)))
    (asg : gmap string (AssignedState (ShardState := ShardState)
                          (ShardAssignment := ShardAssignment))) : Prop :=
  ∀ executorID,
    (hs !! executorID = None ∧ asg !! executorID = None
     ∧ (slash_free executorID → ∀ keyType, slash_free keyType →
          docs !! buildExecutorKey s namespace executorID keyType = None))
    ∨ (slash_free executorID
       ∧ (∃ keyType, slash_free keyType
            ∧ is_Some (docs !! buildExecutorKey s namespace executorID keyType))
       ∧ hs !! executorID = Some (state_heartbeat s namespace executorID docs)
       ∧ asg !! executorID = Some (state_assigned s namespace executorID docs)).

(** ** More example data *)

Module MoreExamples.
Import PlainJSON.

(** A guard from the grant at revision 7, which is the current one in
    [Examples.new_leader_backend]. *)
Definition live_guard : GuardFunc := leadershipGuard Examples.leader_key 7.

(** The keyspace after the first heartbeat of "executor-1", with the leader
    key of the namespace written at revision 7. *)
Definition led_backend : Etcd.Backend :=
  {| Etcd.data :=
       <[ Examples.leader_key :=
            {| Etcd.value := "host-b"; Etcd.create_revision := 7;
               Etcd.mod_revision := 7; Etcd.version := 1 |} ]>
         (Etcd.data Examples.after_first_heartbeat);
     Etcd.revision := 7 |}.

(** An assignment to "executor-1" and to "executor-2", which has not sent a
    heartbeat. *)
Definition assignment2 : gmap string (AssignedState (ShardState := string)
                                                    (ShardAssignment := string)) :=
  {[ "executor-1" :=
       {| as_ExecutorID := "executor-1"; as_ReportedShards := Some ∅;
          AssignedShards := Some {[ "shard-1" := "assigned" ]} |};
     "executor-2" :=
       {| as_ExecutorID := "executor-2"; as_ReportedShards := None;
          AssignedShards := Some {[ "shard-2" := "assigned" ]} |} ]}.

Definition assigned : Outcome :=
  AssignShards Examples.store0 None "ns" assignment2 live_guard led_backend.

Definition deleted : Outcome :=
  DeleteExecutors Examples.store0 None "ns" ["executor-1"] live_guard
    (backend assigned).

Definition heartbeat2 : HeartbeatState (ShardState := string) :=
  Examples.heartbeat "executor-2" "ACTIVE" (Some {[ "shard-9" := "ready" ]}).

(** The transaction [Examples.stale_guard] hands back: the compare of the
    leader key with the revision of the grant, and no branch. *)
Definition stale_txn : Etcd.Txn :=
  {| Etcd.cmps := Some [ {| Etcd.CmpKey := Examples.leader_key;
                            Etcd.CmpResult := Etcd.EQUAL;
                            Etcd.CmpTarget := Etcd.MOD 5 |} ];
     Etcd.sus := None; Etcd.fas := None |}.


(** A round trip whose answer does not arrive. *)
Definition deadline : Etcd.Fault :=
  Etcd.ResponseLost (Errorf "context deadline exceeded").

(** What [GetState] returns after the first heartbeat of "executor-1", ... *)
Definition hs_first : gmap string (HeartbeatState (ShardState := string)) :=
  {[ "executor-1" :=
       {| hb_ExecutorID := "executor-1"; LastHeartbeat := 1700000000;
          State := "ACTIVE"; hb_ReportedShards := None |} ]}.

Definition asg_first : gmap string (AssignedState (ShardState := string)
                                                  (ShardAssignment := string)) :=
  {[ "executor-1" :=
       {| as_ExecutorID := "executor-1";
          as_ReportedShards := Some {[ "shard-1" := "ready" ]};
          AssignedShards := Some ∅ |} ]}.

(** ... after the assignment, ... *)
Definition hs_assigned : gmap string (HeartbeatState (ShardState := string)) :=
  {[ "executor-1" :=
       {| hb_ExecutorID := "executor-1"; LastHeartbeat := 1700000000;
          State := "ACTIVE"; hb_ReportedShards := None |};
     "executor-2" :=
       {| hb_ExecutorID := "executor-2"; LastHeartbeat := 0;
          State := EmptyString; hb_ReportedShards := None |} ]}.

Definition asg_assigned : gmap string (AssignedState (ShardState := string)
                                                     (ShardAssignment := string)) :=
  {[ "executor-1" :=
       {| as_ExecutorID := "executor-1";
          as_ReportedShards := Some {[ "shard-1" := "ready" ]};
          AssignedShards := Some {[ "shard-1" := "assigned" ]} |};
     "executor-2" :=
       {| as_ExecutorID := "executor-2"; as_ReportedShards := Some ∅;
          AssignedShards := Some {[ "shard-2" := "assigned" ]} |} ]}.

(** ... and after the deletion of "executor-1". *)
Definition hs_deleted : gmap string (HeartbeatState (ShardState := string)) :=
  {[ "executor-2" :=
       {| hb_ExecutorID := "executor-2"; LastHeartbeat := 0;
          State := EmptyString; hb_ReportedShards := None |} ]}.

Definition asg_deleted : gmap string (AssignedState (ShardState := string)
                                                    (ShardAssignment := string)) :=
  {[ "executor-2" :=
       {| as_ExecutorID := "executor-2"; as_ReportedShards := Some ∅;
          AssignedShards := Some {[ "shard-2" := "assigned" ]} |} ]}.

End MoreExamples.

(** * Properties *)

(** Case analysis on the key type tests of the two read loops. *)
Ltac key_cases :=
  repeat (case_decide; simplify_eq/=; try done).

(** ** Facts about the string helpers *)

Module GoStringsFacts.
Import GoStrings.

Lemma app_nil_l (s : string) : "" +:+ s = s.
Proof. reflexivity. Qed.

Lemma app_cons (a : ascii) (s r : string) : String a s +:+ r = String a (s +:+ r).
Proof. reflexivity. Qed.

Lemma app_assoc (a b c : string) : (a +:+ b) +:+ c = a +:+ (b +:+ c).
Proof. induction a as [|x a IH]; [done|]. rewrite !app_cons. by f_equal. Qed.

Lemma CutPrefix_app p r : CutPrefix (p +:+ r) p = Some r.
Proof.
  induction p as [|a p IH]; [by destruct r|].
  rewrite app_cons. simpl. by rewrite decide_True.
Qed.

Lemma CutPrefix_Some s p r : CutPrefix s p = Some r → s = p +:+ r.
Proof.
  revert s. induction p as [|a p IH]; intros [|b s] H; simplify_eq/=; try done.
  case_decide; [|done]. subst. rewrite app_cons. f_equal. by apply IH.
Qed.

Lemma HasPrefix_app p r : HasPrefix (p +:+ r) p = true.
Proof. unfold HasPrefix. by rewrite CutPrefix_app. Qed.

Lemma HasPrefix_true s p : HasPrefix s p = true → ∃ r, s = p +:+ r.
Proof.
  unfold HasPrefix. destruct (CutPrefix s p) as [r|] eqn:E; [|done].
  intros _. exists r. by apply CutPrefix_Some.
Qed.

Lemma TrimPrefix_app p r : TrimPrefix (p +:+ r) p = r.
Proof. unfold TrimPrefix. by rewrite CutPrefix_app. Qed.

Lemma has_byte_app c a b : has_byte c (a +:+ b) = has_byte c a || has_byte c b.
Proof.
  induction a as [|x a IH]; [done|].
  rewrite app_cons. simpl. rewrite IH. by rewrite orb_assoc.
Qed.

Lemma Split_nonempty sep s : Split sep s ≠ [].
Proof.
  destruct s as [|c s]; simpl; [done|].
  case_decide; [done|]. by destruct (Split sep s).
Qed.

(** A string without the separator is one part. *)
Lemma Split_no_sep sep s : has_byte sep s = false → Split sep s = [s].
Proof.
  induction s as [|c s IH]; simpl; [done|].
  intros [Hc Hs]%orb_false_elim. apply bool_decide_eq_false in Hc.
  rewrite decide_False by done. by rewrite IH.
Qed.

(** Splitting [a ++ sep ++ b], [a] free of the separator. *)
Lemma Split_app sep a b :
  has_byte sep a = false →
  Split sep (a +:+ String sep b) = a :: Split sep b.
Proof.
  induction a as [|c a IH].
  - intros _. rewrite app_nil_l. simpl. by rewrite decide_True.
  - rewrite app_cons. simpl.
    intros [Hc Hs]%orb_false_elim. apply bool_decide_eq_false in Hc.
    rewrite decide_False by done. by rewrite IH.
Qed.

(** A one-part split is the string itself, free of the separator. *)
Lemma Split_one sep s a :
  Split sep s = [a] → s = a ∧ has_byte sep a = false.
Proof.
  revert a. induction s as [|c s IH]; intros a; simpl.
  - by intros [= <-].
  - case_decide as Hc.
    + intros [= _ H]. by destruct (Split_nonempty sep s).
    + destruct (Split sep s) as [|p [|??]] eqn:E; [|intros [= <-]|done].
      { by destruct (Split_nonempty sep s). }
      destruct (IH p eq_refl) as [-> Hp].
      simpl. by rewrite bool_decide_eq_false_2.
Qed.

(** What a two-part split says about the string. *)
Lemma Split_two sep s a b :
  Split sep s = [a; b] →
  s = a +:+ String sep b ∧ has_byte sep a = false ∧ has_byte sep b = false.
Proof.
  revert a. induction s as [|c s IH]; intros a; simpl; [done|].
  case_decide as Hc.
  - subst c. intros [= <- Hs]. apply Split_one in Hs as [-> Hb].
    by rewrite app_nil_l.
  - destruct (Split sep s) as [|p ps] eqn:E; [done|].
    intros [= <- ->]. destruct (IH p eq_refl) as (-> & Ha & Hb).
    rewrite app_cons. simpl. by rewrite bool_decide_eq_false_2.
Qed.

Lemma app_nil_r (s : string) : s +:+ "" = s.
Proof. induction s as [|c s IH]; [done|]. rewrite app_cons. by f_equal. Qed.

Lemma Contains_unfold s substr :
  Contains s substr
  = HasPrefix s substr
    || match s with
       | EmptyString => false
       | String _ s' => Contains s' substr
       end.
Proof. by destruct s. Qed.

(** A text contains what it starts with and what it ends with. *)
Lemma Contains_app_l a b : Contains (a +:+ b) a = true.
Proof. rewrite Contains_unfold. by rewrite HasPrefix_app. Qed.

Lemma Contains_app_r a b : Contains (a +:+ b) b = true.
Proof.
  induction a as [|c a IH].
  - rewrite app_nil_l. rewrite <- (app_nil_r b) at 1. apply Contains_app_l.
  - rewrite app_cons, Contains_unfold, IH. apply orb_true_r.
Qed.

End GoStringsFacts.

(** ** Facts about the decimal conversions *)

Module StrconvFacts.
Import Strconv.

Lemma digit_val_char d : 0 ≤ d < 10 → digit_val (digit_char d) = Some d.
Proof.
  intros H.
  assert (d = 0 ∨ d = 1 ∨ d = 2 ∨ d = 3 ∨ d = 4 ∨ d = 5 ∨ d = 6 ∨ d = 7
          ∨ d = 8 ∨ d = 9) as Hd by lia.
  repeat (destruct Hd as [->|Hd]; [reflexivity|]). by subst.
Qed.

Lemma digit_char_not_sign d :
  0 ≤ d < 10 → digit_char d ≠ "+"%char ∧ digit_char d ≠ "-"%char.
Proof.
  intros H.
  assert (d = 0 ∨ d = 1 ∨ d = 2 ∨ d = 3 ∨ d = 4 ∨ d = 5 ∨ d = 6 ∨ d = 7
          ∨ d = 8 ∨ d = 9) as Hd by lia.
  repeat (destruct Hd as [->|Hd]; [by split|]). by subst.
Qed.

Lemma parse_uint_loop_digit d s n :
  0 ≤ d < 10 → 0 ≤ n → n * 10 + d ≤ maxUint64 →
  parse_uint_loop (String (digit_char d) s) n = parse_uint_loop s (n * 10 + d).
Proof.
  intros Hd Hn Hmax. simpl. rewrite digit_val_char by done.
  unfold maxUint64 in *.
  assert (2 ^ 64 = 18446744073709551616) as E by reflexivity.
  rewrite E in *.
  replace ((18446744073709551616 - 1) `div` 10 + 1) with 1844674407370955162
    by reflexivity.
  rewrite Z.mod_small by lia.
  destruct (Z.leb_spec 1844674407370955162 n); [lia|].
  destruct (Z.ltb_spec (n * 10 + d) (n * 10)); [lia|].
  destruct (Z.ltb_spec (18446744073709551616 - 1) (n * 10 + d)); [lia|].
  done.
Qed.

(** Reading back what [format_bits] wrote. *)
Lemma parse_format_bits fuel u acc :
  0 ≤ u ≤ maxUint64 → u < 10 ^ Z.of_nat fuel →
  parse_uint_loop (format_bits fuel u acc) 0 = parse_uint_loop acc u.
Proof.
  revert u acc. induction fuel as [|f IH]; intros u acc Hu Hf.
  - simpl in *. by replace u with 0 by lia.
  - cbn [format_bits]. destruct (Z.ltb_spec u 10) as [Hlt|Hge].
    + rewrite Z.mod_small by lia.
      rewrite parse_uint_loop_digit by (unfold maxUint64 in *; lia).
      by rewrite Z.mul_0_l, Z.add_0_l.
    + assert (u `div` 10 < 10 ^ Z.of_nat f).
      { apply Z.div_lt_upper_bound; [lia|].
        rewrite Nat2Z.inj_succ, Z.pow_succ_r in Hf by lia. lia. }
      pose proof (Z.div_mod u 10 ltac:(lia)) as Hdm.
      pose proof (Z.mod_pos_bound u 10 ltac:(lia)) as Hm.
      rewrite IH by (unfold maxUint64 in *; lia).
      rewrite parse_uint_loop_digit by (unfold maxUint64 in *; lia).
      f_equal. lia.
Qed.

(** [format_bits] starts with a digit, never with a sign. *)
Lemma format_bits_head fuel u acc :
  0 ≤ u →
  ∃ c rest, format_bits (S fuel) u acc = String c rest
            ∧ c ≠ "+"%char ∧ c ≠ "-"%char.
Proof.
  revert u acc. induction fuel as [|f IH]; intros u acc Hu.
  - pose proof (Z.mod_pos_bound u 10 ltac:(lia)) as Hm.
    destruct (digit_char_not_sign (u mod 10) Hm) as [??].
    simpl. destruct (u <? 10); eauto.
  - cbn [format_bits]. destruct (Z.ltb_spec u 10) as [Hlt|Hge].
    + pose proof (Z.mod_pos_bound u 10 ltac:(lia)) as Hm.
      destruct (digit_char_not_sign (u mod 10) Hm) as [??]. eauto.
    + apply (IH (u `div` 10)). apply Z.div_pos; lia.
Qed.

(** The timestamp written by [Sprintf("%d")] is read back by [ParseInt]. *)
Lemma ParseInt_FormatInt v : is_int64 v → ParseInt (FormatInt v) = (v, None).
Proof.
  unfold is_int64, minInt64, maxInt64. intros Hv.
  assert (2 ^ 63 = 9223372036854775808) as E63 by reflexivity.
  assert (2 ^ 64 = 18446744073709551616) as E64 by reflexivity.
  assert (10 ^ Z.of_nat 20 = 100000000000000000000) as E10 by reflexivity.
  unfold FormatInt. destruct (Z.ltb_spec v 0) as [Hneg|Hpos].
  - unfold ParseInt. rewrite bool_decide_eq_true_2 by done.
    rewrite decide_False by done. rewrite decide_True by done.
    destruct (format_bits_head 19 (- v) "" ltac:(lia)) as (c & rest & Hs & _).
    unfold ParseUint. rewrite Hs, <- Hs.
    rewrite parse_format_bits by (unfold maxUint64; lia). simpl parse_uint_loop.
    cbv iota beta. rewrite E63 in *.
    destruct (Z.ltb_spec 9223372036854775808 (- v)); [lia|].
    simpl negb. cbn [andb]. f_equal. unfold wrap64. rewrite E63, E64.
    destruct (decide (v = -9223372036854775808)) as [->|Hne]; [reflexivity|].
    rewrite (Z.mod_small (- v + _)) by lia.
    replace (- (- v + 9223372036854775808 - 9223372036854775808)) with v by lia.
    rewrite Z.mod_small by lia. lia.
  - destruct (format_bits_head 19 v "" Hpos) as (c & rest & Hs & Hp & Hm).
    pose proof (parse_format_bits 20 v "" ltac:(unfold maxUint64; lia) ltac:(lia))
      as Hparse.
    rewrite Hs in *. unfold ParseInt.
    rewrite bool_decide_eq_false_2 by done. rewrite !decide_False by done.
    unfold ParseUint. rewrite Hparse. simpl parse_uint_loop. cbv iota beta.
    rewrite E63 in *. destruct (Z.leb_spec 9223372036854775808 v); [lia|].
    simpl. f_equal. unfold wrap64. rewrite E63, E64.
    rewrite Z.mod_small by lia. lia.
Qed.



Lemma parse_uint_loop_all_digits s n :
  all_digits s = true → (parse_uint_loop s n).2 ≠ Some ErrSyntax.
Proof.
  revert n. induction s as [|c s IH]; intros n; simpl; [done|].
  intros [Hc Hs]%andb_true_iff. apply bool_decide_eq_true in Hc as [d Hd].
  rewrite Hd. destruct (_ <=? _); [done|]. destruct (_ || _); [done|].
  by apply IH.
Qed.

(** A syntax error is only reported for a text that is not a decimal
    literal. *)
Lemma ParseInt_syntax_not_literal s :
  (ParseInt s).2 = Some ErrSyntax → is_decimal_literal s = false.
Proof.
  intros Hs. destruct (is_decimal_literal s) eqn:Hl; [exfalso|done].
  revert Hs. unfold ParseInt, is_decimal_literal in *.
  destruct s as [|c rest]; [done|]. cbv zeta.
  assert (∀ t, t ≠ EmptyString → all_digits t = true →
            (ParseUint t).2 ≠ Some ErrSyntax) as Hu.
  { intros t Ht Hd. unfold ParseUint. destruct t; [done|].
    by apply parse_uint_loop_all_digits. }
  case_decide as Hsign.
  - apply andb_true_iff in Hl as [Hne Hd].
    apply negb_true_iff, bool_decide_eq_false in Hne.
    specialize (Hu rest Hne Hd).
    assert ((if decide (c = "+"%char) then rest
             else if decide (c = "-"%char) then rest else String c rest) = rest)
      as -> by (repeat case_decide; naive_solver).
    destruct (ParseUint rest) as [un [[]|]]; [done|..];
      repeat (match goal with |- context [if ?c then _ else _] => destruct c end);
      done.
  - rewrite !decide_False by naive_solver.
    specialize (Hu (String c rest) ltac:(done) Hl).
    destruct (ParseUint (String c rest)) as [un [[]|]]; [done|..];
      repeat (match goal with |- context [if ?c then _ else _] => destruct c end);
      done.
Qed.

End StrconvFacts.

(** ** Facts about the backend *)

Module EtcdFacts.
Import Etcd.

Lemma Key_to_kv p : Key (to_kv p) = p.1.
Proof. done. Qed.

(** A prefix read returns exactly the stored keys under the prefix. *)
Lemma elem_of_range_prefix d p kv :
  kv ∈ range_prefix d p ↔
  ∃ k e, d !! k = Some e ∧ kv = to_kv (k, e) ∧ GoStrings.HasPrefix k p = true.
Proof.
  unfold range_prefix. rewrite merge_sort_Permutation.
  rewrite list_elem_of_filter, list_elem_of_fmap. split.
  - intros (Hp & [k e] & -> & Hin). apply elem_of_map_to_list in Hin.
    exists k, e. done.
  - intros (k & e & Hl & -> & Hp). split; [done|].
    exists (k, e). split; [done|]. by apply elem_of_map_to_list.
Qed.

(** It returns every key once. *)
Lemma NoDup_range_prefix d p : NoDup (Key <$> range_prefix d p).
Proof.
  unfold range_prefix. rewrite merge_sort_Permutation.
  eapply sublist_NoDup; [|apply fmap_sublist, sublist_filter].
  rewrite <- list_fmap_compose.
  rewrite (list_fmap_ext (Key ∘ to_kv) fst (map_to_list d)) by done.
  apply NoDup_fst_map_to_list.
Qed.

Lemma NoDup_range_prefix_kvs d p : NoDup (range_prefix d p).
Proof. eapply NoDup_fmap_1, NoDup_range_prefix. Qed.

(** Two entries of a prefix read with the same key are the same entry. *)
Lemma range_prefix_key_inj d p kv1 kv2 :
  kv1 ∈ range_prefix d p → kv2 ∈ range_prefix d p → Key kv1 = Key kv2 → kv1 = kv2.
Proof.
  intros (k1 & e1 & H1 & -> & _)%elem_of_range_prefix
         (k2 & e2 & H2 & -> & _)%elem_of_range_prefix. simpl.
  intros <-. by simplify_eq.
Qed.

(** ... and in key order. *)
Lemma Sorted_range_prefix d p : Sorted key_le (range_prefix d p).
Proof.
  assert (Total key_le) by (intros a b; apply String.le_total).
  unfold range_prefix. by apply Sorted_merge_sort.
Qed.

Lemma Then_Some g ops t :
  Then g ops = Some t → cmps t = cmps g ∧ sus t = Some ops ∧ fas t = None.
Proof.
  unfold Then. destruct (sus g), (fas g); intros; by simplify_eq.
Qed.

(** A transaction without an [Else] branch whose compares fail writes
    nothing. *)
Lemma apply_txn_compare_fails b t :
  fas t = None →
  eval_cmps (data b) (default [] (cmps t)) = false →
  (apply_txn b t).1.2 = b ∧ (apply_txn b t).2 = []
  ∧ (apply_txn b t).1.1
    = if ops_conflict (default [] (sus t)) then Err ErrDuplicateKey
      else Ok {| Succeeded := false; TxnRevision := revision b |}.
Proof.
  intros Hfas Hcmp. unfold apply_txn. rewrite Hfas, Hcmp. cbn [default].
  assert (ops_conflict [] = false) as -> by done.
  rewrite orb_false_r. destruct (ops_conflict _); [done|].
  cbn. split_and!; [by destruct b|done|done].
Qed.

(** A transaction the server refuses is not applied. *)
Lemma apply_txn_Err b t err b' evs :
  apply_txn b t = (Err err, b', evs) → b' = b ∧ evs = [].
Proof.
  unfold apply_txn. destruct (_ || _); [by intros [= _ <- <-]|].
  by destruct (apply_ops _ _ _).
Qed.

Lemma apply_txn_not_succeeded b t resp b' evs :
  fas t = None →
  apply_txn b t = (Ok resp, b', evs) →
  Succeeded resp = false →
  b' = b ∧ evs = [].
Proof.
  intros Hfas. unfold apply_txn.
  destruct (_ || _); [done|]. rewrite Hfas.
  destruct (eval_cmps _ _) eqn:Hok.
  - destruct (apply_ops _ _ _) as [d evs']. intros; simplify_eq/=.
  - simpl. intros [= <- <- <-] _. by destruct b.
Qed.

Lemma Commit_not_succeeded fault b t resp b' evs :
  fas t = None →
  Commit fault b t = (Ok resp, b', evs) →
  Succeeded resp = false →
  b' = b ∧ evs = [].
Proof.
  intros Hfas. unfold Commit. destruct fault as [[e|e]|]; [done| |].
  - by destruct (apply_txn b t) as [[r b1] evs1].
  - by apply apply_txn_not_succeeded.
Qed.

(** The three ways of a round trip. *)
Lemma Commit_cases fault b t :
  (fault = None ∧ Commit fault b t = apply_txn b t)
  ∨ (∃ e, fault = Some (RequestLost e) ∧ Commit fault b t = (Err e, b, []))
  ∨ (∃ e, fault = Some (ResponseLost e)
       ∧ Commit fault b t = (Err e, (apply_txn b t).1.2, (apply_txn b t).2)).
Proof.
  destruct fault as [[e|e]|]; [right; left|right; right|left]; [eauto| |done].
  exists e. split; [done|]. simpl. by destruct (apply_txn b t) as [[r b1] evs1].
Qed.

(** An answer means that the round trip did not fail. *)
Lemma Commit_Ok fault b t resp b' evs :
  Commit fault b t = (Ok resp, b', evs) →
  fault = None ∧ apply_txn b t = (Ok resp, b', evs).
Proof.
  destruct fault as [[e|e]|]; simpl; [done| |done].
  by destruct (apply_txn b t) as [[r b1] evs1].
Qed.

(** A transaction of a [Then] branch alone applies it. *)
Lemma apply_txn_then b ops :
  ops_conflict ops = false →
  apply_txn b {| cmps := None; sus := Some ops; fas := None |}
  = let r := apply_ops (revision b + 1) (data b) ops in
    let rev := match r.2 with [] => revision b | _ => revision b + 1 end in
    (Ok {| Succeeded := true; TxnRevision := rev |},
     {| data := r.1; revision := rev |}, r.2).
Proof.
  intros Hc. unfold apply_txn. simpl. rewrite Hc. simpl.
  by destruct (apply_ops _ _ _).
Qed.

Lemma Commit_then b ops :
  ops_conflict ops = false →
  Commit None b {| cmps := None; sus := Some ops; fas := None |}
  = let r := apply_ops (revision b + 1) (data b) ops in
    let rev := match r.2 with [] => revision b | _ => revision b + 1 end in
    (Ok {| Succeeded := true; TxnRevision := rev |},
     {| data := r.1; revision := rev |}, r.2).
Proof. apply apply_txn_then. Qed.

End EtcdFacts.

(** ** Facts about the keys *)

Section KeyFacts.
Import GoStrings GoStringsFacts.

Variable s : Store.
Variable namespace : string.

Lemma buildExecutorKey_prefix executorID keyType :
  buildExecutorKey s namespace executorID keyType
  = buildExecutorPrefix s namespace +:+ (executorID +:+ String "/" keyType).
Proof. done. Qed.

(** A key built from slash-free parts parses back into them. *)
Lemma parse_build executorID keyType :
  slash_free executorID → slash_free keyType →
  parseExecutorKey s namespace (buildExecutorKey s namespace executorID keyType)
  = Ok (executorID, keyType).
Proof.
  intros Hid Hkt. unfold parseExecutorKey.
  rewrite buildExecutorKey_prefix, HasPrefix_app, TrimPrefix_app. simpl negb.
  cbv iota. rewrite Split_app by done. by rewrite Split_no_sep.
Qed.

(** A key that parses is the key built from its two parts, and these are
    slash-free. *)
Lemma parse_inv key executorID keyType :
  parseExecutorKey s namespace key = Ok (executorID, keyType) →
  key = buildExecutorKey s namespace executorID keyType
  ∧ slash_free executorID ∧ slash_free keyType.
Proof.
  unfold parseExecutorKey.
  destruct (HasPrefix key _) eqn:Hp; [|done]. simpl.
  apply HasPrefix_true in Hp as [r ->]. rewrite TrimPrefix_app.
  destruct (Split "/" r) as [|a [|b [|??]]] eqn:E; try done.
  intros [= -> ->]. apply Split_two in E as (-> & ? & ?). done.
Qed.

Lemma app_sep_inj (sep : ascii) (a b x y : string) :
  a +:+ String sep x = b +:+ String sep y →
  has_byte sep b = false → has_byte sep y = false → a = b ∧ x = y.
Proof.
  revert b. induction a as [|c a IH]; intros [|c' b]; rewrite ?app_nil_l, ?app_cons.
  - by intros [= ->].
  - intros [= <- _]. simpl. by rewrite bool_decide_eq_true_2.
  - intros [= -> <-] _. rewrite has_byte_app. simpl.
    rewrite bool_decide_eq_true_2 by done. by rewrite orb_true_r.
  - intros [= <- H]. simpl. intros [? Hb]%orb_false_elim Hy.
    destruct (IH b H Hb Hy) as [-> ->]. done.
Qed.

(** Under the prefix the store reads for one executor, a key that parses
    belongs to that executor. *)
Lemma parse_under_executor key executorID id keyType :
  HasPrefix key (buildExecutorKey s namespace executorID "") = true →
  parseExecutorKey s namespace key = Ok (id, keyType) →
  id = executorID ∧ key = buildExecutorKey s namespace executorID keyType.
Proof.
  intros [r Hr]%HasPrefix_true (Hk & Hid & Hkt)%parse_inv.
  rewrite Hk in Hr. rewrite !buildExecutorKey_prefix in Hr.
  rewrite app_assoc in Hr. apply (inj (String.app _)) in Hr.
  rewrite app_assoc in Hr. rewrite app_cons, app_nil_l in Hr.
  symmetry in Hr. apply app_sep_inj in Hr as [-> _]; [|done|done].
  done.
Qed.

(** The keys of one executor are told apart by their type. *)
Lemma buildExecutorKey_inj executorID kt1 kt2 :
  buildExecutorKey s namespace executorID kt1
  = buildExecutorKey s namespace executorID kt2 → kt1 = kt2.
Proof.
  unfold buildExecutorKey. intros H.
  do 3 apply (inj (String.app _)) in H. done.
Qed.

(** The prefix read of [GetHeartbeat] covers the keys of the executor. *)
Lemma buildExecutorKey_under executorID keyType :
  HasPrefix (buildExecutorKey s namespace executorID keyType)
            (buildExecutorKey s namespace executorID "") = true.
Proof.
  unfold buildExecutorKey.
  replace (buildExecutorPrefix s namespace +:+ executorID +:+ "/" +:+ keyType)
    with ((buildExecutorPrefix s namespace +:+ executorID +:+ "/" +:+ "") +:+ keyType).
  { apply HasPrefix_app. }
  rewrite !app_assoc. done.
Qed.

(** The prefix read of [GetState] covers every executor key. *)
Lemma buildExecutorKey_under_namespace executorID keyType :
  HasPrefix (buildExecutorKey s namespace executorID keyType)
            (buildExecutorPrefix s namespace) = true.
Proof. rewrite buildExecutorKey_prefix. apply HasPrefix_app. Qed.

End KeyFacts.

(** ** Facts about the loop of GetHeartbeat *)

Section HeartbeatLoop.
Context {ShardState : Type} `{!JSON ShardState}.
Variable s : Store.
Variable namespace : string.

Lemma UnmarshalInto_Err data (m : GoMap ShardState) e :
  UnmarshalInto data m = Err e ↔ Unmarshal data = Err e.
Proof.
  unfold UnmarshalInto. destruct (Unmarshal data) as [[?|]|]; naive_solver.
Qed.

Lemma UnmarshalInto_nil data (m : GoMap ShardState) :
  Unmarshal data = Ok m → UnmarshalInto data None = Ok m.
Proof.
  unfold UnmarshalInto. intros ->. destruct m as [m|]; [|done].
  simpl. by rewrite (right_id ∅ (∪)).
Qed.

Lemma keyType_of_Some kv keyType :
  keyType_of s namespace kv = Some keyType ↔
  ∃ id, parseExecutorKey s namespace (Etcd.Key kv) = Ok (id, keyType).
Proof.
  unfold keyType_of.
  destruct (parseExecutorKey _ _ _) as [[??]|]; naive_solver.
Qed.

Lemma keyType_of_None kv :
  keyType_of s namespace kv = None ↔
  ∃ e, parseExecutorKey s namespace (Etcd.Key kv) = Err e.
Proof.
  unfold keyType_of.
  destruct (parseExecutorKey _ _ _) as [[??]|]; naive_solver.
Qed.

(** The loop keeps the executor ID it was started with. *)
Lemma loop_ExecutorID kvs (st st' : HeartbeatState) f f' :
  GetHeartbeat_loop s namespace kvs st f = Ok (st', f') →
  hb_ExecutorID st' = hb_ExecutorID st.
Proof.
  revert st f. induction kvs as [|x rest IH]; intros st f; simpl.
  - by intros [= <- <-].
  - destruct (parseExecutorKey _ _ _) as [[id kt]|]; [|by apply IH].
    key_cases; try (by intros Hr%IH).
    destruct (UnmarshalInto _ _); [|done]. by intros Hr%IH.
Qed.

(** [found] tells whether some key parsed. *)
Lemma loop_found kvs (st st' : HeartbeatState) f f' :
  GetHeartbeat_loop s namespace kvs st f = Ok (st', f') →
  f' = true ↔ f = true ∨ ∃ kv, kv ∈ kvs ∧ is_Some (keyType_of s namespace kv).
Proof.
  revert st f. induction kvs as [|x rest IH]; intros st f; simpl.
  - intros [= <- <-]. set_solver.
  - destruct (parseExecutorKey _ _ _) as [[id kt]|] eqn:Hp.
    + assert (is_Some (keyType_of s namespace x)) as Hx.
      { exists kt. apply keyType_of_Some. eauto. }
      assert (∀ r, GetHeartbeat_loop s namespace rest r true = Ok (st', f') →
                   f' = true ↔ f = true ∨ ∃ kv, kv ∈ x :: rest
                                 ∧ is_Some (keyType_of s namespace kv)) as Hgo.
      { intros r Hr%IH. split; [|intros _; apply Hr; by left].
        intros _. right. exists x. split; [by left|done]. }
      key_cases; try apply Hgo.
      destruct (UnmarshalInto _ _); [apply Hgo|done].
    + intros Hr%IH. rewrite Hr. split; [set_solver|].
      intros [?|(kv & [->|?]%elem_of_cons & Hs)]; [by left| |set_solver].
      destruct Hs as [kt Hs]. apply keyType_of_Some in Hs as [??]. congruence.
Qed.

(** The loop fails only on a reported-shards value that does not decode. *)
Lemma loop_Err_inv kvs (st : HeartbeatState) f err :
  GetHeartbeat_loop s namespace kvs st f = Err err →
  ∃ kv je, kv ∈ kvs ∧ keyType_of s namespace kv = Some reportedShardsKey
           ∧ Unmarshal (V:=ShardState) (Etcd.Value kv) = Err je
           ∧ err = Wrapf "unmarshal reported shards" je.
Proof.
  revert st f. induction kvs as [|x rest IH]; intros st f; simpl; [done|].
  destruct (parseExecutorKey _ _ _) as [[id kt]|] eqn:Hp.
  - key_cases.
    1,2,4: intros (kv & je & ? & ?)%IH; exists kv, je; set_solver.
    destruct (UnmarshalInto _ _) as [m|je] eqn:Hu.
    + intros (kv & je & ? & ?)%IH; exists kv, je; set_solver.
    + intros [= <-]. exists x, je. apply UnmarshalInto_Err in Hu.
      split_and!; [set_solver| |done|done].
      apply keyType_of_Some. eauto.
  - intros (kv & je & ? & ?)%IH; exists kv, je; set_solver.
Qed.

(** A field stays as it is when no key of its type is met. *)
Lemma loop_frame kvs (st st' : HeartbeatState) f f' :
  GetHeartbeat_loop s namespace kvs st f = Ok (st', f') →
  ((∀ kv, kv ∈ kvs → keyType_of s namespace kv ≠ Some heartbeatKey) →
     LastHeartbeat st' = LastHeartbeat st)
  ∧ ((∀ kv, kv ∈ kvs → keyType_of s namespace kv ≠ Some stateKey) →
     State st' = State st)
  ∧ ((∀ kv, kv ∈ kvs → keyType_of s namespace kv ≠ Some reportedShardsKey) →
     hb_ReportedShards st' = hb_ReportedShards st).
Proof.
  revert st f. induction kvs as [|x rest IH]; intros st f; simpl.
  { by intros [= <- <-]. }
  destruct (parseExecutorKey _ _ _) as [[id kt]|] eqn:Hp.
  - assert (keyType_of s namespace x = Some kt) as Hx
      by (apply keyType_of_Some; eauto).
    key_cases;
      try (destruct (UnmarshalInto _ _) as [m|]; [|done]);
      intros (Ha & Hb & Hc)%IH; split_and!; intros Hno;
      first [ exfalso; apply (Hno x); [set_solver|done]
            | rewrite Ha by set_solver; done
            | rewrite Hb by set_solver; done
            | rewrite Hc by set_solver; done ].
  - intros (Ha & Hb & Hc)%IH. split_and!; intros Hno;
      [apply Ha|apply Hb|apply Hc]; set_solver.
Qed.

Lemma typed_unique_cons x rest :
  typed_unique s namespace (x :: rest) → typed_unique s namespace rest.
Proof. intros H kv1 kv2 kt ??. apply H; set_solver. Qed.

(** With every key type met at most once, the field of a key type that is
    met ends up holding what its key's value says. *)
Lemma loop_write kvs (st st' : HeartbeatState) f f' kv kt :
  NoDup kvs → typed_unique s namespace kvs →
  kv ∈ kvs → keyType_of s namespace kv = Some kt →
  GetHeartbeat_loop s namespace kvs st f = Ok (st', f') →
  (kt = heartbeatKey → LastHeartbeat st' = (Strconv.ParseInt (Etcd.Value kv)).1)
  ∧ (kt = stateKey → State st' = Etcd.Value kv)
  ∧ (kt = reportedShardsKey →
       UnmarshalInto (Etcd.Value kv) (hb_ReportedShards st)
       = Ok (hb_ReportedShards st')).
Proof.
  intros Hnd. revert st f.
  induction Hnd as [|x rest Hx Hnd IH]; intros st f Hu Hin Hkt; [set_solver|].
  pose proof (typed_unique_cons _ _ Hu) as Hu'.
  apply elem_of_cons in Hin as [->|Hin].
  - (* the key is the one at hand; the rest has none of its type *)
    assert (∀ kv', kv' ∈ rest → keyType_of s namespace kv' ≠ Some kt) as Hno.
    { intros kv' Hin' Hkt'. destruct Hx.
      rewrite (Hu x kv' kt); [done|set_solver|set_solver|done|done]. }
    simpl. apply keyType_of_Some in Hkt as [id Hp]. rewrite Hp.
    key_cases.
    + intros (Ha & _ & _)%loop_frame. split_and!; [intros _|done|done].
      by rewrite Ha.
    + intros (_ & Hb & _)%loop_frame. split_and!; [done|intros _|done].
      by rewrite Hb.
    + destruct (UnmarshalInto _ _) as [m|]; [|done].
      intros (_ & _ & Hc)%loop_frame. split_and!; [done|done|intros _].
      by rewrite Hc.
  - (* the key comes later; the one at hand has another type *)
    assert (keyType_of s namespace x ≠ Some kt) as Hne.
    { intros Hkx. destruct Hx.
      rewrite (Hu x kv kt); [done|set_solver|set_solver|done|done]. }
    simpl. unfold keyType_of in Hne.
    destruct (parseExecutorKey s namespace (Etcd.Key x)) as [[id ktx]|].
    + key_cases;
        try (destruct (UnmarshalInto _ _) as [m|]; [|done]);
        intros (Ha & Hb & Hc)%IH; try done;
        (split_and!; [done|done|]); intros ->; try done; by apply Hc.
    + by apply IH.
Qed.

(** The loop gets through when every reported-shards value decodes. *)
Lemma loop_Ok kvs (st : HeartbeatState) f :
  (∀ kv, kv ∈ kvs → keyType_of s namespace kv = Some reportedShardsKey →
         ∃ m, Unmarshal (V:=ShardState) (Etcd.Value kv) = Ok m) →
  ∃ r, GetHeartbeat_loop s namespace kvs st f = Ok r.
Proof.
  intros H. destruct (GetHeartbeat_loop s namespace kvs st f) as [r|err] eqn:E.
  { eauto. }
  apply loop_Err_inv in E as (kv & je & Hin & Hkt & Hje & _).
  destruct (H kv Hin Hkt) as [m Hm]. congruence.
Qed.

(** With every key type met at most once, a reported-shards value that
    does not decode makes the loop fail with that error. *)
Lemma loop_Err kvs (st : HeartbeatState) f kv je :
  typed_unique s namespace kvs →
  kv ∈ kvs → keyType_of s namespace kv = Some reportedShardsKey →
  Unmarshal (V:=ShardState) (Etcd.Value kv) = Err je →
  GetHeartbeat_loop s namespace kvs st f
  = Err (Wrapf "unmarshal reported shards" je).
Proof.
  intros Hu Hin Hkt Hje.
  destruct (GetHeartbeat_loop s namespace kvs st f) as [[st' f']|err] eqn:E.
  - exfalso. revert st f E.
    induction kvs as [|x rest IH]; intros st f; [set_solver|].
    pose proof (typed_unique_cons _ _ Hu) as Hu'. simpl.
    destruct (decide (x = kv)) as [->|Hne].
    + apply keyType_of_Some in Hkt as [id Hp]. rewrite Hp. key_cases.
      apply (UnmarshalInto_Err _ (hb_ReportedShards st)) in Hje.
      by rewrite Hje.
    + assert (kv ∈ rest) as Hin' by set_solver.
      destruct (parseExecutorKey s namespace (Etcd.Key x)) as [[id ktx]|];
        [|by apply IH].
      key_cases; try (destruct (UnmarshalInto _ _) as [m|]; [|done]);
        by apply IH.
  - apply loop_Err_inv in E as (kv' & je' & Hin' & Hkt' & Hje' & ->).
    rewrite (Hu kv kv' reportedShardsKey) in Hje by done. congruence.
Qed.

End HeartbeatLoop.

(** ** Facts about GetHeartbeat *)

Section HeartbeatFacts.
Context {ShardState : Type} `{!JSON ShardState}.
Variable s : Store.
Variable namespace : string.

Import Etcd EtcdFacts.

(** The keys read for one executor have pairwise different types. *)
Lemma executor_range_typed_unique executorID d :
  typed_unique s namespace
    (range_prefix d (buildExecutorKey s namespace executorID "")).
Proof.
  intros kv1 kv2 kt Hin1 Hin2 [id1 Hp1]%keyType_of_Some [id2 Hp2]%keyType_of_Some.
  apply (range_prefix_key_inj _ _ _ _ Hin1 Hin2).
  apply elem_of_range_prefix in Hin1 as (k1 & e1 & _ & -> & Hpre1).
  apply elem_of_range_prefix in Hin2 as (k2 & e2 & _ & -> & Hpre2).
  simpl in *.
  destruct (parse_under_executor _ _ _ _ _ _ Hpre1 Hp1) as [_ ->].
  destruct (parse_under_executor _ _ _ _ _ _ Hpre2 Hp2) as [_ ->]. done.
Qed.

(** A stored key of the executor is among the keys read, under its type. *)
Lemma executor_range_lookup executorID keyType d entry :
  slash_free executorID → slash_free keyType →
  d !! buildExecutorKey s namespace executorID keyType = Some entry →
  to_kv (buildExecutorKey s namespace executorID keyType, entry)
    ∈ range_prefix d (buildExecutorKey s namespace executorID "")
  ∧ keyType_of s namespace
      (to_kv (buildExecutorKey s namespace executorID keyType, entry))
    = Some keyType.
Proof.
  intros He Hk Hl. split.
  - apply elem_of_range_prefix. eexists _, _. split_and!; [done|done|].
    apply buildExecutorKey_under.
  - apply keyType_of_Some. exists executorID. simpl. by apply parse_build.
Qed.

(** A key read for the executor that has a type is the executor's key of
    that type. *)
Lemma executor_range_typed executorID d kv keyType :
  kv ∈ range_prefix d (buildExecutorKey s namespace executorID "") →
  keyType_of s namespace kv = Some keyType →
  ∃ entry, d !! buildExecutorKey s namespace executorID keyType = Some entry
           ∧ kv = to_kv (buildExecutorKey s namespace executorID keyType, entry)
           ∧ slash_free executorID.
Proof.
  intros (k & e & Hl & -> & Hpre)%elem_of_range_prefix [id Hp]%keyType_of_Some.
  simpl in *. pose proof (parse_inv _ _ _ _ _ Hp) as (_ & Hid & _).
  destruct (parse_under_executor _ _ _ _ _ _ Hpre Hp) as [-> ->]. eauto.
Qed.

Lemma has_valid_key_iff executorID b :
  has_valid_key s namespace executorID b ↔
  ∃ kv, kv ∈ range_prefix (data b) (buildExecutorKey s namespace executorID "")
        ∧ is_Some (keyType_of s namespace kv).
Proof.
  split.
  - intros (k & e & [id kt] & Hl & Hpre & Hp). exists (to_kv (k, e)). split.
    + apply elem_of_range_prefix. eauto.
    + exists kt. apply keyType_of_Some. eauto.
  - intros (kv & (k & e & Hl & -> & Hpre)%elem_of_range_prefix & kt & Hkt).
    apply keyType_of_Some in Hkt as [id Hp]. exists k, e, (id, kt). done.
Qed.

(** [GetHeartbeat] with the read done. *)
Lemma GetHeartbeat_read executorID b :
  GetHeartbeat s None namespace executorID b =
  let kvs := range_prefix (data b) (buildExecutorKey s namespace executorID "") in
  match kvs with
  | [] => Err ErrExecutorNotFound
  | _ =>
      match GetHeartbeat_loop s namespace kvs
              {| hb_ExecutorID := executorID; LastHeartbeat := 0; State := "";
                 hb_ReportedShards := None |} false with
      | Err err => Err err
      | Ok (state, found) =>
          if negb found then Err ErrExecutorNotFound else Ok state
      end
  end.
Proof.
  unfold GetHeartbeat, Get. cbn [Count Kvs].
  destruct (range_prefix _ _) as [|kv kvs]; [done|].
  destruct (Z.eqb_spec (Z.of_nat (length (kv :: kvs))) 0) as [H|_]; [|done].
  simpl in H. lia.
Qed.

(** [ExecutorNotFound] comes back exactly when no key read for the
    executor parses. *)
Lemma GetHeartbeat_NotFound_iff executorID b :
  GetHeartbeat (ShardState := ShardState) s None namespace executorID b
    = Err ErrExecutorNotFound
  ↔ ¬ has_valid_key s namespace executorID b.
Proof.
  rewrite has_valid_key_iff, GetHeartbeat_read. cbv zeta.
  destruct (range_prefix _ _) as [|kv0 kvs0] eqn:Hr.
  { split; [|done]. intros _ (kv & Hin & _). set_solver. }
  rewrite <- Hr. clear Hr kv0 kvs0.
  destruct (GetHeartbeat_loop _ _ _ _ _) as [[st found]|err] eqn:Hloop.
  - apply loop_found in Hloop. destruct found; simpl.
    + split; [done|]. intros Hno. destruct Hno.
      destruct (proj1 Hloop eq_refl) as [?|?]; done.
    + split; [|done]. intros _ Hex.
      assert (false = true); [|done]. apply Hloop. by right.
  - apply loop_Err_inv in Hloop as (kv & je & Hin & Hkt & _ & ->).
    split; [done|]. intros Hno. destruct Hno. exists kv. split; [done|].
    by exists reportedShardsKey.
Qed.

(** The fields [GetHeartbeat] returns are those of the stored keys. *)
Lemma GetHeartbeat_fields executorID b st :
  GetHeartbeat s None namespace executorID b = Ok st →
  hb_ExecutorID st = executorID
  ∧ (∀ entry,
       data b !! buildExecutorKey s namespace executorID heartbeatKey = Some entry →
       LastHeartbeat st = (Strconv.ParseInt (value entry)).1)
  ∧ (∀ entry,
       data b !! buildExecutorKey s namespace executorID stateKey = Some entry →
       State st = value entry)
  ∧ (∀ entry,
       data b !! buildExecutorKey s namespace executorID reportedShardsKey
         = Some entry →
       UnmarshalInto (value entry) None = Ok (hb_ReportedShards st)).
Proof.
  rewrite GetHeartbeat_read. cbv zeta.
  destruct (range_prefix _ _) as [|kv0 kvs0] eqn:Hr; [done|].
  rewrite <- Hr. clear Hr kv0 kvs0.
  destruct (GetHeartbeat_loop _ _ _ _ _) as [[st' found]|err] eqn:Hloop; [|done].
  destruct found; [|done]. simpl. intros [= ->].
  split; [by apply loop_ExecutorID in Hloop|].
  assert (slash_free executorID) as He.
  { apply loop_found in Hloop.
    destruct (proj1 Hloop eq_refl) as [?|(kv & Hin & kt & Hkt)]; [done|].
    by destruct (executor_range_typed _ _ _ _ Hin Hkt) as (? & _ & _ & ?). }
  split_and!; intros entry Hl.
  - destruct (executor_range_lookup _ heartbeatKey _ _ He eq_refl Hl) as [Hin Hkt].
    by destruct (loop_write s namespace _ _ _ _ _ _ _
                   (NoDup_range_prefix_kvs _ _)
                   (executor_range_typed_unique _ _) Hin Hkt Hloop) as (H & _ & _);
      rewrite H.
  - destruct (executor_range_lookup _ stateKey _ _ He eq_refl Hl) as [Hin Hkt].
    by destruct (loop_write s namespace _ _ _ _ _ _ _
                   (NoDup_range_prefix_kvs _ _)
                   (executor_range_typed_unique _ _) Hin Hkt Hloop) as (_ & H & _);
      rewrite H.
  - destruct (executor_range_lookup _ reportedShardsKey _ _ He eq_refl Hl)
      as [Hin Hkt].
    by destruct (loop_write s namespace _ _ _ _ _ _ _
                   (NoDup_range_prefix_kvs _ _)
                   (executor_range_typed_unique _ _) Hin Hkt Hloop) as (_ & _ & H);
      rewrite <- H.
Qed.

(** A field whose key is not stored keeps its zero value. *)
Lemma GetHeartbeat_absent executorID b st :
  GetHeartbeat s None namespace executorID b = Ok st →
  (data b !! buildExecutorKey s namespace executorID heartbeatKey = None →
     LastHeartbeat st = 0)
  ∧ (data b !! buildExecutorKey s namespace executorID stateKey = None →
     State st = "")
  ∧ (data b !! buildExecutorKey s namespace executorID reportedShardsKey = None →
     hb_ReportedShards st = None).
Proof.
  rewrite GetHeartbeat_read. cbv zeta.
  destruct (range_prefix _ _) as [|kv0 kvs0] eqn:Hr; [done|].
  rewrite <- Hr. clear Hr kv0 kvs0.
  destruct (GetHeartbeat_loop _ _ _ _ _) as [[st' found]|err] eqn:Hloop; [|done].
  destruct found; [|done]. simpl. intros [= ->].
  apply loop_frame in Hloop as (Ha & Hb & Hc).
  split_and!; intros Hl; [apply Ha|apply Hb|apply Hc]; intros kv Hin Hkt;
    destruct (executor_range_typed _ _ _ _ Hin Hkt) as (? & ? & _); congruence.
Qed.

(** With a valid key and a reported-shards value that decodes, if there is
    one, the call succeeds. *)
Lemma GetHeartbeat_Ok executorID b :
  has_valid_key s namespace executorID b →
  (∀ entry,
     data b !! buildExecutorKey s namespace executorID reportedShardsKey
       = Some entry →
     ∃ m, Unmarshal (V := ShardState) (value entry) = Ok m) →
  ∃ st, GetHeartbeat s None namespace executorID b = Ok st.
Proof.
  intros Hv Hdec.
  destruct (GetHeartbeat s None namespace executorID b) as [st|err] eqn:E;
    [eauto|exfalso].
  destruct (decide (err = ErrExecutorNotFound)) as [->|Hne].
  { by apply GetHeartbeat_NotFound_iff in E. }
  rewrite GetHeartbeat_read in E. cbv zeta in E.
  destruct (range_prefix _ _) as [|kv0 kvs0] eqn:Hr; [by simplify_eq|].
  rewrite <- Hr in E. clear Hr kv0 kvs0.
  destruct (GetHeartbeat_loop _ _ _ _ _) as [[st' found]|err'] eqn:Hloop.
  { destruct found; by simplify_eq/=. }
  apply loop_Err_inv in Hloop as (kv & je & Hin & Hkt & Hje & _).
  destruct (executor_range_typed _ _ _ _ Hin Hkt) as (entry & Hl & -> & _).
  destruct (Hdec _ Hl) as [m Hm]. simpl in Hje. congruence.
Qed.

(** A stored reported-shards value that does not decode fails the call. *)
Lemma GetHeartbeat_Err executorID b entry je :
  slash_free executorID →
  data b !! buildExecutorKey s namespace executorID reportedShardsKey = Some entry →
  Unmarshal (V := ShardState) (value entry) = Err je →
  GetHeartbeat (ShardState := ShardState) s None namespace executorID b
  = Err (Wrapf "unmarshal reported shards" je).
Proof.
  intros He Hl Hje.
  destruct (executor_range_lookup _ reportedShardsKey _ _ He eq_refl Hl) as [Hin Hkt].
  rewrite GetHeartbeat_read. cbv zeta.
  destruct (range_prefix _ _) as [|kv0 kvs0] eqn:Hr; [set_solver|].
  rewrite <- Hr in *. clear Hr kv0 kvs0.
  by rewrite (loop_Err s namespace _ _ _ _ je
                (executor_range_typed_unique _ _) Hin Hkt Hje).
Qed.

End HeartbeatFacts.

(** ** Facts about RecordHeartbeat *)

Section RecordHeartbeatFacts.
Context {ShardState : Type} `{!JSON ShardState}.
Variable s : Store.
Variable namespace : string.

Import Etcd EtcdFacts.

Lemma put_entry_value rev d key val : value (put_entry rev d key val) = val.
Proof. unfold put_entry. by destruct (d !! key). Qed.

Lemma executor_keys_NoDup executorID :
  NoDup [buildExecutorKey s namespace executorID heartbeatKey;
         buildExecutorKey s namespace executorID stateKey;
         buildExecutorKey s namespace executorID reportedShardsKey].
Proof.
  repeat constructor; set_unfold;
    intros H; repeat destruct H as [H|H]; try done;
    by apply buildExecutorKey_inj in H.
Qed.

(** A heartbeat whose shards serialize and whose round trip does not fail
    is one transaction of three puts, and it succeeds whatever is stored. *)
Lemma RecordHeartbeat_commit now (req : HeartbeatState) b doc :
  Marshal (hb_ReportedShards req) = Ok doc →
  let hk := buildExecutorKey s namespace (hb_ExecutorID req) heartbeatKey in
  let sk := buildExecutorKey s namespace (hb_ExecutorID req) stateKey in
  let rk := buildExecutorKey s namespace (hb_ExecutorID req) reportedShardsKey in
  let out := RecordHeartbeat s now None namespace req b in
  ret out = Return None
  ∧ committed out
    = [ {| cmps := None;
           sus := Some [OpPut hk (Strconv.FormatInt now); OpPut sk (State req);
                        OpPut rk doc];
           fas := None |} ]
  ∧ (∃ e1 e2 e3,
       data (backend out) = <[rk := e3]> (<[sk := e2]> (<[hk := e1]> (data b)))
       ∧ value e1 = Strconv.FormatInt now ∧ value e2 = State req
       ∧ value e3 = doc)
  ∧ revision (backend out) = revision b + 1.
Proof.
  intros Hm. cbv zeta. unfold RecordHeartbeat. rewrite Hm.
  cbn [Then NewTxn sus fas cmps]. rewrite Commit_then.
  2: { unfold ops_conflict. simpl.
       by rewrite bool_decide_eq_true_2 by apply executor_keys_NoDup. }
  simpl. split_and!; [done|done| |done].
  eexists _, _, _. split; [done|]. by rewrite !put_entry_value.
Qed.

(** After a heartbeat got through, [GetHeartbeat] returns its fields,
    provided the executor ID fits the key layout and JSON gives the
    reported shards back. *)
Lemma RecordHeartbeat_GetHeartbeat now (req : HeartbeatState) b doc :
  slash_free (hb_ExecutorID req) →
  Strconv.is_int64 now →
  Marshal (hb_ReportedShards req) = Ok doc →
  Unmarshal doc = Ok (hb_ReportedShards req) →
  GetHeartbeat s None namespace (hb_ExecutorID req)
    (backend (RecordHeartbeat s now None namespace req b))
  = Ok {| hb_ExecutorID := hb_ExecutorID req; LastHeartbeat := now;
          State := State req; hb_ReportedShards := hb_ReportedShards req |}.
Proof.
  intros He Hnow Hm Hrt.
  destruct (RecordHeartbeat_commit now req b doc Hm)
    as (_ & _ & (e1 & e2 & e3 & Hd & Hv1 & Hv2 & Hv3) & _).
  set (b' := backend (RecordHeartbeat s now None namespace req b)) in *.
  pose proof (executor_keys_NoDup (hb_ExecutorID req)) as Hnd.
  apply NoDup_cons in Hnd as [Hn1 Hnd]. apply NoDup_cons in Hnd as [Hn2 _].
  assert (data b' !! buildExecutorKey s namespace (hb_ExecutorID req) heartbeatKey
          = Some e1) as Hl1.
  { rewrite Hd. rewrite !lookup_insert_ne by set_solver. apply lookup_insert_eq. }
  assert (data b' !! buildExecutorKey s namespace (hb_ExecutorID req) stateKey
          = Some e2) as Hl2.
  { rewrite Hd. rewrite lookup_insert_ne by set_solver. apply lookup_insert_eq. }
  assert (data b' !! buildExecutorKey s namespace (hb_ExecutorID req)
                       reportedShardsKey = Some e3) as Hl3.
  { rewrite Hd. apply lookup_insert_eq. }
  destruct (GetHeartbeat_Ok s namespace (hb_ExecutorID req) b') as [st Hst].
  { exists (buildExecutorKey s namespace (hb_ExecutorID req) heartbeatKey), e1,
           (hb_ExecutorID req, heartbeatKey).
    split_and!; [done|apply buildExecutorKey_under|by apply parse_build]. }
  { intros entry Hl. rewrite Hl3 in Hl. injection Hl as <-.
    rewrite Hv3. eauto. }
  rewrite Hst. f_equal.
  apply GetHeartbeat_fields in Hst as (Hid & Hhb & Hs & Hr).
  specialize (Hhb _ Hl1). specialize (Hs _ Hl2). specialize (Hr _ Hl3).
  rewrite Hv1, StrconvFacts.ParseInt_FormatInt in Hhb by done.
  rewrite Hv2 in Hs. rewrite Hv3, (UnmarshalInto_nil _ _ Hrt) in Hr.
  destruct st; simplify_eq/=. done.
Qed.

End RecordHeartbeatFacts.

(** ** Heartbeats: last write wins *)

Section LastWriteWins.
Context {ShardState : Type} `{!JSON ShardState}.
Variable s : Store.
Variable namespace : string.

Lemma RecordHeartbeats_snoc (calls : list (HeartbeatCall ShardState)) last b :
  RecordHeartbeats s namespace (calls ++ [last]) b
  = let r := RecordHeartbeats s namespace calls b in
    let out := RecordHeartbeat s (call_now last) (call_fault last) namespace
                 (call_request last) r.2 in
    (r.1 ++ [ret out], backend out).
Proof.
  revert b. induction calls as [|c calls IH]; intros b; simpl; [done|].
  rewrite IH. by destruct (RecordHeartbeats s namespace calls _).
Qed.

(** A heartbeat that returned nil had its shards serialized and its round
    trip answered. *)
Lemma RecordHeartbeat_success_inv now fault (req : HeartbeatState) b :
  ret (RecordHeartbeat s now fault namespace req b) = Return None →
  fault = None ∧ ∃ doc, Marshal (hb_ReportedShards req) = Ok doc.
Proof.
  unfold RecordHeartbeat. destruct (Marshal _) as [doc|]; [|done].
  cbn [Etcd.Then Etcd.NewTxn Etcd.sus Etcd.fas].
  destruct fault as [[e|e]|]; [done| |eauto].
  by destruct (Etcd.Commit _ _ _) as [[[r|err] b'] evs] eqn:Hc;
    [apply EtcdFacts.Commit_Ok in Hc as [? _]|].
Qed.

End LastWriteWins.

(** C3 (amended). After any run of successful [RecordHeartbeat] calls,
    [GetHeartbeat] for the executor of the last call returns exactly the
    state and the reported shards of that call and the time of that call,
    provided the executor ID contains no slash (and JSON gives the reported
    shards back).  Each call that gets through is one transaction of the
    three puts, and it gets through whatever keys were stored before. *)
Theorem heartbeat_last_write_wins {ShardState : Type} `{!JSON ShardState}
    (s : Store) (namespace : string) :
  (∀ (calls : list (HeartbeatCall ShardState)) last b,
     let run := RecordHeartbeats s namespace (calls ++ [last]) b in
     let req := call_request last in
     Forall (λ r, r = Return None) run.1 →
     slash_free (hb_ExecutorID req) →
     Strconv.is_int64 (call_now last) →
     json_faithful (hb_ReportedShards req) →
     GetHeartbeat s None namespace (hb_ExecutorID req) run.2
     = Ok {| hb_ExecutorID := hb_ExecutorID req; LastHeartbeat := call_now last;
             State := State req; hb_ReportedShards := hb_ReportedShards req |})
  ∧ (∀ now (req : HeartbeatState) b doc,
       Marshal (hb_ReportedShards req) = Ok doc →
       let out := RecordHeartbeat s now None namespace req b in
       ret out = Return None
       ∧ committed out
         = [ {| Etcd.cmps := None;
                Etcd.sus :=
                  Some [Etcd.OpPut
                          (buildExecutorKey s namespace (hb_ExecutorID req) heartbeatKey)
                          (Strconv.FormatInt now);
                        Etcd.OpPut
                          (buildExecutorKey s namespace (hb_ExecutorID req) stateKey)
                          (State req);
                        Etcd.OpPut
                          (buildExecutorKey s namespace (hb_ExecutorID req)
                             reportedShardsKey) doc];
                Etcd.fas := None |} ]
       ∧ ∀ keyType, keyType ∈ [heartbeatKey; stateKey; reportedShardsKey] →
           is_Some (Etcd.data (backend out)
                      !! buildExecutorKey s namespace (hb_ExecutorID req) keyType)).
Proof.
  split.
  - intros calls last b run req Hok He Hnow Hjson. subst run.
    rewrite RecordHeartbeats_snoc in *. cbv zeta in *. cbn [fst snd] in *.
    apply Forall_app in Hok as [_ Hlast]. apply Forall_cons in Hlast as [Hlast _].
    apply RecordHeartbeat_success_inv in Hlast as [Hf [doc Hdoc]].
    rewrite Hf. by apply (RecordHeartbeat_GetHeartbeat s namespace _ _ _ doc);
      [| |done|apply Hjson].
  - intros now req b doc Hm out.
    destruct (RecordHeartbeat_commit s namespace now req b doc Hm)
      as (Hret & Hc & (e1 & e2 & e3 & Hd & _) & _).
    split_and!; [done|done|]. intros kt Hkt. subst out. rewrite Hd.
    pose proof (executor_keys_NoDup s namespace (hb_ExecutorID req)) as Hnd.
    apply NoDup_cons in Hnd as [Hn1 Hnd]. apply NoDup_cons in Hnd as [Hn2 _].
    set_unfold. destruct Hkt as [->|[->|[->|[]]]].
    + rewrite !lookup_insert_ne by set_solver. rewrite lookup_insert_eq. eauto.
    + rewrite lookup_insert_ne by set_solver. rewrite lookup_insert_eq. eauto.
    + rewrite lookup_insert_eq. eauto.
Qed.

(** Two heartbeats of "executor-1": the second one is what is read. *)
Lemma heartbeat_last_write_wins_witness :
  GetHeartbeat Examples.store0 None "ns" "executor-1"
    (RecordHeartbeats Examples.store0 "ns" Examples.two_calls
       Examples.empty_backend).2
  = Ok {| hb_ExecutorID := "executor-1"; LastHeartbeat := 1700000005;
          State := "DRAINING";
          hb_ReportedShards := Some {[ "shard-1" := "done"; "shard-2" := "ready" ]} |}.
Proof.
  apply (proj1 (heartbeat_last_write_wins Examples.store0 "ns")
           [Examples.call 1700000000
              (Examples.heartbeat "executor-1" "ACTIVE" (Some {[ "shard-1" := "ready" ]}))]
           (Examples.call 1700000005
              (Examples.heartbeat "executor-1" "DRAINING"
                 (Some {[ "shard-1" := "done"; "shard-2" := "ready" ]})))
           Examples.empty_backend).
  - vm_compute. repeat constructor.
  - reflexivity.
  - vm_compute. split; discriminate.
  - intros doc H. vm_compute in H. injection H as <-. vm_compute. reflexivity.
Defined.

(** C3, as stated, fails for an executor whose ID has a slash: its
    heartbeat is recorded, and [GetHeartbeat] does not find the executor. *)
Lemma heartbeat_slash_counterexample :
  let run := RecordHeartbeats Examples.store0 "ns" [Examples.slash_call]
               Examples.empty_backend in
  run.1 = [Return None]
  ∧ GetHeartbeat (ShardState := string) Examples.store0 None "ns"
      "rack-7/executor-1" run.2
    = Err ErrExecutorNotFound.
Proof. vm_compute. done. Qed.

(** ** GetHeartbeat and ExecutorNotFound *)

(** C7 (amended). With the read answered, [GetHeartbeat] returns
    [ExecutorNotFound] exactly when no stored key under the executor's
    prefix parses as an executor key, and a failed read never gives
    [ExecutorNotFound].  When a valid key exists, the call returns a
    heartbeat state, unless the stored reported shards do not decode: then
    it returns that decoding error. *)
Theorem GetHeartbeat_not_found {ShardState : Type} `{!JSON ShardState}
    (s : Store) (namespace executorID : string) (b : Etcd.Backend) :
  (GetHeartbeat (ShardState := ShardState) s None namespace executorID b
     = Err ErrExecutorNotFound
   ↔ ¬ has_valid_key s namespace executorID b)
  ∧ (∀ err, GetHeartbeat (ShardState := ShardState) s (Some err) namespace executorID b
            ≠ Err ErrExecutorNotFound)
  ∧ (has_valid_key s namespace executorID b →
       (∃ st, GetHeartbeat (ShardState := ShardState) s None namespace executorID b
              = Ok st)
       ∨ (∃ entry je,
            Etcd.data b !! buildExecutorKey s namespace executorID reportedShardsKey
              = Some entry
            ∧ Unmarshal (V := ShardState) (Etcd.value entry) = Err je
            ∧ GetHeartbeat (ShardState := ShardState) s None namespace executorID b
              = Err (Wrapf "unmarshal reported shards" je))).
Proof.
  split_and!.
  - apply GetHeartbeat_NotFound_iff.
  - done.
  - intros Hv.
    destruct (Etcd.data b !! buildExecutorKey s namespace executorID reportedShardsKey)
      as [entry|] eqn:Hl.
    + destruct (Unmarshal (V := ShardState) (Etcd.value entry)) as [m|je] eqn:Hu.
      * left. apply GetHeartbeat_Ok; [done|].
        intros entry' Hl'. rewrite Hl in Hl'. injection Hl' as <-. eauto.
      * right. exists entry, je. split_and!; [done|done|].
        apply (GetHeartbeat_Err s namespace executorID b entry je); [|done|done].
        apply has_valid_key_iff in Hv as (kv & Hin & kt & Hkt).
        by destruct (executor_range_typed _ _ _ _ _ _ Hin Hkt) as (? & _ & _ & ?).
    + left. apply GetHeartbeat_Ok; [done|]. intros entry Hl'. congruence.
Qed.

(** After its first heartbeat the executor has valid keys and is found. *)
Lemma GetHeartbeat_not_found_witness :
  ∃ st, GetHeartbeat (ShardState := string) Examples.store0 None "ns" "executor-1"
          (RecordHeartbeats Examples.store0 "ns" Examples.two_calls
             Examples.empty_backend).2
        = Ok st.
Proof.
  destruct (proj2 (proj2 (GetHeartbeat_not_found (ShardState := string)
                            Examples.store0 "ns" "executor-1"
                            (RecordHeartbeats Examples.store0 "ns" Examples.two_calls
                               Examples.empty_backend).2)))
    as [H|(entry & je & Hl & Hu & _)].
  - exists "/shard-distributor/ns/executors/executor-1/state",
      {| Etcd.value := "DRAINING"; Etcd.create_revision := 2;
         Etcd.mod_revision := 3; Etcd.version := 2 |},
      ("executor-1", "state").
    vm_compute. done.
  - exact H.
  - exfalso. vm_compute in Hl. injection Hl as <-. vm_compute in Hu. discriminate.
Defined.

(** C7, as stated, fails when the one valid key of an executor holds
    reported shards that are not JSON: the call returns neither a heartbeat
    state nor [ExecutorNotFound]. *)
Lemma GetHeartbeat_valid_key_counterexample :
  has_valid_key Examples.store0 "ns" "executor-1" Examples.bad_shards_backend
  ∧ GetHeartbeat (ShardState := string) Examples.store0 None "ns" "executor-1"
      Examples.bad_shards_backend
    = Err (Wrapf "unmarshal reported shards"
             (Errorf "invalid character in JSON document")).
Proof.
  split.
  - exists "/shard-distributor/ns/executors/executor-1/reported_shards",
      {| Etcd.value := "{bad"; Etcd.create_revision := 2;
         Etcd.mod_revision := 2; Etcd.version := 1 |},
      ("executor-1", "reported_shards").
    vm_compute. done.
  - vm_compute. done.
Qed.

(** ** Guarded writes *)

Section GuardedWrites.
Context {ShardState ShardAssignment : Type}.
Context `{!JSON ShardState, !JSON ShardAssignment}.
Variable s : Store.
Variable namespace : string.

Import Etcd EtcdFacts.

(** The operations [AssignShards] builds: one for each entry. *)
Lemma AssignShards_ops_length
    (entries : list (string * AssignedState (ShardState := ShardState)
                                            (ShardAssignment := ShardAssignment)))
    acc ops :
  AssignShards_ops s namespace entries acc = Ok ops →
  length ops = (length acc + length entries)%nat.
Proof.
  revert acc. induction entries as [|[id st] rest IH]; intros acc; simpl.
  - intros [= <-]. lia.
  - destruct (Marshal _); [|done]. intros ->%IH. rewrite length_app. simpl. lia.
Qed.

End GuardedWrites.

(** C8. With an empty [newState], [AssignShards] returns nil, leaves the
    backend as it is and commits nothing, whatever the guard and the state
    of the connection; so does [DeleteExecutors] with no executor IDs.
    [AssignShards] makes one operation for each entry of [newState], so it
    has no operations only when [newState] is empty. *)
Theorem empty_input_noop {ShardState ShardAssignment : Type}
    `{!JSON ShardState, !JSON ShardAssignment}
    (s : Store) (namespace : string) (fault : option Etcd.Fault)
    (guard : GuardFunc) (b : Etcd.Backend) :
  AssignShards (ShardState := ShardState) (ShardAssignment := ShardAssignment)
    s fault namespace ∅ guard b
  = {| ret := Return None; backend := b; committed := []; events := [] |}
  ∧ DeleteExecutors s fault namespace [] guard b
    = {| ret := Return None; backend := b; committed := []; events := [] |}
  ∧ ∀ (newState : gmap string (AssignedState (ShardState := ShardState)
                                             (ShardAssignment := ShardAssignment)))
      ops,
      AssignShards_ops s namespace (map_to_list newState) [] = Ok ops →
      length ops = size newState.
Proof.
  split_and!.
  - unfold AssignShards. by rewrite map_to_list_empty.
  - done.
  - intros newState ops ->%AssignShards_ops_length.
    by rewrite length_map_to_list.
Qed.

(** One entry gives one operation. *)
Lemma empty_input_noop_witness :
  ∃ ops, AssignShards_ops Examples.store0 "ns" (map_to_list Examples.assignment) []
         = Ok ops
         ∧ length ops = 1%nat.
Proof.
  pose proof (proj2 (proj2 (empty_input_noop (ShardState := string)
                              (ShardAssignment := string) Examples.store0 "ns" None
                              Examples.stale_guard Examples.empty_backend))
                Examples.assignment) as H.
  destruct (AssignShards_ops Examples.store0 "ns" (map_to_list Examples.assignment) [])
    as [ops|err] eqn:E.
  - exists ops. split; [reflexivity|]. rewrite (H ops eq_refl). reflexivity.
  - exfalso. vm_compute in E. discriminate.
Defined.

(** ** Facts about the loop of GetState *)

Section GetStateLoop.
Context {ShardState ShardAssignment : Type}.
Context `{!JSON ShardState, !JSON ShardAssignment}.
Variable s : Store.
Variable namespace : string.

Import Etcd EtcdFacts.

(** One round of the loop: the executor of the key gets an entry in both
    maps; the round changes the field of the key's type and no other. *)
Lemma GetState_loop_cons x rest
    (hs : gmap string (HeartbeatState (ShardState := ShardState)))
    (asg : gmap string (AssignedState (ShardState := ShardState)
                          (ShardAssignment := ShardAssignment))) r :
  GetState_loop s namespace (x :: rest) hs asg = Ok r →
  match parseExecutorKey s namespace (Key x) with
  | Err _ => GetState_loop s namespace rest hs asg = Ok r
  | Ok (id, kt) =>
      let h0 := default {| hb_ExecutorID := id; LastHeartbeat := 0; State := "";
                           hb_ReportedShards := None |} (hs !! id) in
      let a0 := default {| as_ExecutorID := id; as_ReportedShards := Some ∅;
                           AssignedShards := Some ∅ |} (asg !! id) in
      ∃ h a,
        GetState_loop s namespace rest (<[id := h]> hs) (<[id := a]> asg) = Ok r
        ∧ LastHeartbeat h
          = (if decide (kt = heartbeatKey) then (Strconv.ParseInt (Value x)).1
             else LastHeartbeat h0)
        ∧ (kt ≠ reportedShardsKey → as_ReportedShards a = as_ReportedShards a0)
        ∧ (kt ≠ assignedShardsKey → AssignedShards a = AssignedShards a0)
  end.
Proof.
  simpl. destruct (parseExecutorKey _ _ _) as [[id kt]|]; [|done].
  cbv zeta. key_cases;
    try (destruct (UnmarshalInto _ _) as [m|]; [|done]);
    intros Hr; eexists _, _; (split; [exact Hr|]); simpl;
    rewrite ?decide_True by done; rewrite ?decide_False by done; done.
Qed.

(** The loop keeps [GetState_inv] when the keys it ranges over are stored. *)
Lemma GetState_loop_inv d kvs
    (hs hs' : gmap string (HeartbeatState (ShardState := ShardState)))
    (asg asg' : gmap string (AssignedState (ShardState := ShardState)
                               (ShardAssignment := ShardAssignment))) :
  (∀ kv, kv ∈ kvs → is_Some (d !! Key kv)) →
  GetState_inv s namespace d hs asg →
  GetState_loop s namespace kvs hs asg = Ok (hs', asg') →
  GetState_inv s namespace d hs' asg'.
Proof.
  revert hs asg. induction kvs as [|x rest IH]; intros hs asg Hd Hinv.
  { simpl. by intros [= <- <-]. }
  intros Hloop. pose proof (GetState_loop_cons _ _ _ _ _ Hloop) as Hstep.
  destruct (parseExecutorKey s namespace (Key x)) as [[id kt]|] eqn:Hp.
  2: { eapply IH; [|done|done]. intros kv ?. apply Hd. set_solver. }
  destruct Hstep as (h & a & Hr & _ & Hrs & Has).
  eapply IH; [| |exact Hr]. { intros kv ?. apply Hd. set_solver. }
  destruct Hinv as [Hdom Hmaps]. split.
  { rewrite !dom_insert_L. by rewrite Hdom. }
  apply parse_inv in Hp as (Hk & _ & _).
  assert (is_Some (d !! buildExecutorKey s namespace id kt)) as Hstored.
  { rewrite <- Hk. apply Hd. set_solver. }
  intros e a' Hl. destruct (decide (e = id)) as [->|Hne].
  2: { rewrite lookup_insert_ne in Hl by done. by apply Hmaps. }
  rewrite lookup_insert_eq in Hl. injection Hl as <-.
  assert (∀ a1, asg !! id = Some a1 ∨ (asg !! id = None ∧ a1 =
            {| as_ExecutorID := id; as_ReportedShards := Some ∅;
               AssignedShards := Some ∅ |}) →
          default {| as_ExecutorID := id; as_ReportedShards := Some ∅;
                     AssignedShards := Some ∅ |} (asg !! id) = a1) as Hdef.
  { intros a1 [->|[-> ->]]; done. }
  split.
  - destruct (decide (kt = reportedShardsKey)) as [->|Hne]; [by right|].
    rewrite (Hrs Hne). destruct (asg !! id) as [a1|] eqn:Ha1; simpl.
    + by apply (Hmaps id a1).
    + by left.
  - destruct (decide (kt = assignedShardsKey)) as [->|Hne]; [by right|].
    rewrite (Has Hne). destruct (asg !! id) as [a1|] eqn:Ha1; simpl.
    + by apply (Hmaps id a1).
    + by left.
Qed.

(** The loop fails only on a shard value that does not decode. *)
Lemma GetState_loop_Err_inv kvs
    (hs : gmap string (HeartbeatState (ShardState := ShardState)))
    (asg : gmap string (AssignedState (ShardState := ShardState)
                          (ShardAssignment := ShardAssignment))) err :
  GetState_loop s namespace kvs hs asg = Err err →
  ∃ kv je, kv ∈ kvs
    ∧ ((keyType_of s namespace kv = Some reportedShardsKey
        ∧ Unmarshal (V := ShardState) (Value kv) = Err je
        ∧ err = Wrapf "unmarshal reported shards" je)
       ∨ (keyType_of s namespace kv = Some assignedShardsKey
          ∧ Unmarshal (V := ShardAssignment) (Value kv) = Err je
          ∧ err = Wrapf "unmarshal assigned shards" je)).
Proof.
  revert hs asg. induction kvs as [|x rest IH]; intros hs asg; simpl; [done|].
  assert (∀ (hs1 : gmap string (HeartbeatState (ShardState := ShardState)))
            (asg1 : gmap string (AssignedState (ShardState := ShardState)
                                   (ShardAssignment := ShardAssignment))),
            GetState_loop s namespace rest hs1 asg1 = Err err →
            ∃ kv je, kv ∈ x :: rest
              ∧ ((keyType_of s namespace kv = Some reportedShardsKey
                  ∧ Unmarshal (V := ShardState) (Value kv) = Err je
                  ∧ err = Wrapf "unmarshal reported shards" je)
                 ∨ (keyType_of s namespace kv = Some assignedShardsKey
                    ∧ Unmarshal (V := ShardAssignment) (Value kv) = Err je
                    ∧ err = Wrapf "unmarshal assigned shards" je))) as Hgo.
  { intros hs1 asg1 (kv & je & ? & ?)%IH. exists kv, je. set_solver. }
  destruct (parseExecutorKey _ _ _) as [[id kt]|] eqn:Hp; [|apply Hgo].
  assert (keyType_of s namespace x = Some kt) as Hx.
  { unfold keyType_of. by rewrite Hp. }
  key_cases; try apply Hgo.
  - destruct (UnmarshalInto _ _) as [m|je] eqn:Hu; [apply Hgo|].
    intros [= <-]. exists x, je. split; [set_solver|]. left.
    split_and!; [done| |done]. revert Hu. unfold UnmarshalInto.
    by destruct (Unmarshal _) as [[?|]|].
  - destruct (UnmarshalInto _ _) as [m|je] eqn:Hu; [apply Hgo|].
    intros [= <-]. exists x, je. split; [set_solver|]. right.
    split_and!; [done| |done]. revert Hu. unfold UnmarshalInto.
    by destruct (Unmarshal _) as [[?|]|].
Qed.

(** A shard value that does not decode makes the loop fail. *)
Lemma GetState_loop_Err kvs
    (hs : gmap string (HeartbeatState (ShardState := ShardState)))
    (asg : gmap string (AssignedState (ShardState := ShardState)
                          (ShardAssignment := ShardAssignment))) kv je :
  kv ∈ kvs →
  (keyType_of s namespace kv = Some reportedShardsKey
   ∧ Unmarshal (V := ShardState) (Value kv) = Err je)
  ∨ (keyType_of s namespace kv = Some assignedShardsKey
     ∧ Unmarshal (V := ShardAssignment) (Value kv) = Err je) →
  ∃ err, GetState_loop s namespace kvs hs asg = Err err.
Proof.
  intros Hin Hbad. revert hs asg.
  induction kvs as [|x rest IH]; intros hs asg; [set_solver|].
  destruct (decide (x = kv)) as [->|Hne].
  - simpl. unfold keyType_of in Hbad.
    destruct (parseExecutorKey s namespace (Key kv)) as [[id kt]|];
      [|by destruct Hbad as [[??]|[??]]].
    destruct Hbad as [[[= ->] Hje]|[[= ->] Hje]]; key_cases;
      unfold UnmarshalInto; rewrite Hje; eauto.
  - assert (kv ∈ rest) as Hin' by set_solver. simpl.
    destruct (parseExecutorKey s namespace (Key x)) as [[id kt]|]; [|by apply IH].
    key_cases; try (destruct (UnmarshalInto _ _) as [m|]; [|by eauto]);
      by apply IH.
Qed.

End GetStateLoop.

(** ** Facts about GetState *)

Section GetStateFacts.
Context {ShardState ShardAssignment : Type}.
Context `{!JSON ShardState, !JSON ShardAssignment}.
Variable s : Store.
Variable namespace : string.

Import Etcd EtcdFacts.



(** What [GetState] reads are stored keys. *)
Lemma namespace_range_stored d kv :
  kv ∈ range_prefix d (buildExecutorPrefix s namespace) → is_Some (d !! Key kv).
Proof. intros (k & e & Hl & -> & _)%elem_of_range_prefix. simpl. eauto. Qed.

Lemma namespace_range_lookup d executorID keyType entry :
  d !! buildExecutorKey s namespace executorID keyType = Some entry →
  to_kv (buildExecutorKey s namespace executorID keyType, entry)
    ∈ range_prefix d (buildExecutorPrefix s namespace).
Proof.
  intros Hl. apply elem_of_range_prefix. eexists _, _. split_and!; [done|done|].
  apply buildExecutorKey_under_namespace.
Qed.


(** [GetState] with the read done. *)
Lemma GetState_read b :
  GetState (ShardState := ShardState) (ShardAssignment := ShardAssignment)
    s None namespace b
  = match GetState_loop s namespace
            (range_prefix (data b) (buildExecutorPrefix s namespace)) ∅ ∅ with
    | Err err => Err err
    | Ok (hs, asg) => Ok (hs, asg, revision b)
    end.
Proof. done. Qed.

Lemma GetState_inv_empty d :
  GetState_inv s namespace d (∅ : (HeartbeatStates ShardState)) (∅ : (AssignedStates ShardState ShardAssignment)).
Proof. split; [by rewrite !dom_empty_L|]. intros e a. by rewrite lookup_empty. Qed.

(** [GetState] gets through when every shard value decodes. *)
Lemma GetState_Ok b :
  shards_decodable (ShardState := ShardState) (ShardAssignment := ShardAssignment)
    s namespace b →
  ∃ (hs : (HeartbeatStates ShardState)) (asg : (AssignedStates ShardState ShardAssignment)),
    GetState s None namespace b = Ok (hs, asg, revision b).
Proof.
  intros Hdec. rewrite GetState_read.
  destruct (GetState_loop _ _ _ _ _) as [[hs asg]|err] eqn:E; [eauto|exfalso].
  apply GetState_loop_Err_inv in E as (kv & je & Hin & Hbad).
  apply elem_of_range_prefix in Hin as (k & e & Hl & -> & _).
  destruct Hbad as [(Hkt & Hje & _)|(Hkt & Hje & _)];
    apply keyType_of_Some in Hkt as [id Hp]; simpl in *;
    destruct (Hdec k e id Hl) as [H1 H2].
  - destruct (H1 Hp) as [m Hm]. congruence.
  - destruct (H2 Hp) as [m Hm]. congruence.
Qed.


End GetStateFacts.

(** C9. The two maps of a successful [GetState] have the same executors,
    and in each assigned state the reported shards and the assigned shards
    are the empty, non-nil map when the key they are read from is not
    stored. *)
Theorem GetState_maps_agree {ShardState ShardAssignment : Type}
    `{!JSON ShardState, !JSON ShardAssignment}
    (s : Store) (fault : option error) (namespace : string) (b : Etcd.Backend)
    (heartbeatStates : gmap string (HeartbeatState (ShardState := ShardState)))
    (assignedStates : gmap string (AssignedState (ShardState := ShardState)
                                     (ShardAssignment := ShardAssignment)))
    (rev : Z) :
  GetState s fault namespace b = Ok (heartbeatStates, assignedStates, rev) →
  dom heartbeatStates = dom assignedStates
  ∧ ∀ executorID a, assignedStates !! executorID = Some a →
      (Etcd.data b !! buildExecutorKey s namespace executorID reportedShardsKey = None →
         as_ReportedShards a = Some ∅)
      ∧ (Etcd.data b !! buildExecutorKey s namespace executorID assignedShardsKey = None →
           AssignedShards a = Some ∅).
Proof.
  destruct fault as [e|]; [done|]. rewrite GetState_read.
  destruct (GetState_loop _ _ _ _ _) as [[hs asg]|err] eqn:E; [|done].
  intros [= -> -> _].
  destruct (GetState_loop_inv s namespace (Etcd.data b) _ _ _ _ _
              (namespace_range_stored s namespace _) (GetState_inv_empty s namespace _) E)
    as [Hdom Hmaps].
  split; [done|]. intros e a Hl. destruct (Hmaps e a Hl) as [Hr Ha].
  split; intros Hnone; [destruct Hr as [?|[? Hs]]|destruct Ha as [?|[? Hs]]];
    done || congruence.
Qed.

(** After two heartbeats of "executor-1" nothing was assigned to it: it is in
    both maps, with the empty map of assigned shards. *)
Lemma GetState_maps_agree_witness :
  ∃ hs asg rev a,
    GetState (ShardState := string) (ShardAssignment := string) Examples.store0 None
      "ns" (RecordHeartbeats Examples.store0 "ns" Examples.two_calls
              Examples.empty_backend).2
    = Ok (hs, asg, rev)
    ∧ dom hs = dom asg
    ∧ asg !! "executor-1" = Some a
    ∧ AssignedShards a = Some ∅.
Proof.
  destruct (GetState (ShardState := string) (ShardAssignment := string)
              Examples.store0 None "ns"
              (RecordHeartbeats Examples.store0 "ns" Examples.two_calls
                 Examples.empty_backend).2) as [[[hs asg] rev]|err] eqn:E.
  - destruct (GetState_maps_agree _ _ _ _ _ _ _ E) as [Hdom Hmaps].
    destruct (asg !! "executor-1") as [a|] eqn:Ha.
    + exists hs, asg, rev, a. split_and!; [done|done|done|].
      apply (Hmaps "executor-1" a Ha). vm_compute. reflexivity.
    + exfalso. vm_compute in E. injection E as <- <- <-. vm_compute in Ha.
      discriminate.
  - exfalso. vm_compute in E. discriminate.
Defined.

(** ** Malformed stored values *)

(** The digits read so far can overflow before a byte that is no digit is
    met: then [ParseInt] reports a range error and the largest value. *)
Lemma ParseInt_overflow_first :
  Strconv.ParseInt "99999999999999999999x" = (Strconv.maxInt64, Some Strconv.ErrRange).
Proof. vm_compute. reflexivity. Qed.

(** ** Subscribe: what is significant *)

Section Significance.
Context {ShardState : Type} `{!JSON ShardState}.
Variable s : Store.
Variable namespace : string.

Import Etcd EtcdFacts.

(** A response with a delete event is significant. *)
Lemma delete_is_significant events :
  (∃ ev, ev ∈ events ∧ Type_ ev = DELETE) →
  isSignificantChange s namespace events = true.
Proof.
  induction events as [|x rest IH]; intros (ev & Hin & Hdel); [set_solver|].
  simpl. destruct (negb (IsCreate x) && negb (IsModify x)) eqn:Hx; [done|].
  apply elem_of_cons in Hin as [->|Hin].
  { unfold IsCreate, IsModify in Hx. rewrite Hdel in Hx. done. }
  destruct (parseExecutorKey _ _ _) as [[id kt]|]; [|apply IH; by eauto].
  destruct (bool_decide _ && _); [done|apply IH; by eauto].
Qed.

(** A response with a put on a state or reported-shards key is
    significant. *)
Lemma put_is_significant events ev executorID keyType :
  ev ∈ events →
  parseExecutorKey s namespace (Key (Kv ev)) = Ok (executorID, keyType) →
  keyType ≠ heartbeatKey → keyType ≠ assignedShardsKey →
  isSignificantChange s namespace events = true.
Proof.
  intros Hin Hp Hh Ha. induction events as [|x rest IH]; [set_solver|].
  simpl. destruct (negb (IsCreate x) && negb (IsModify x)); [done|].
  apply elem_of_cons in Hin as [<-|Hin].
  { rewrite Hp. by rewrite !bool_decide_eq_true_2. }
  destruct (parseExecutorKey s namespace (Key (Kv x))) as [[id kt]|];
    [|by apply IH].
  destruct (bool_decide _ && _); [done|by apply IH].
Qed.

(** A response of puts on heartbeat and assigned-shards keys alone is not. *)
Lemma heartbeat_only_not_significant events :
  (∀ ev, ev ∈ events →
     Type_ ev = PUT
     ∧ (keyType_of s namespace (Kv ev) = Some heartbeatKey
        ∨ keyType_of s namespace (Kv ev) = Some assignedShardsKey
        ∨ keyType_of s namespace (Kv ev) = None)) →
  isSignificantChange s namespace events = false.
Proof.
  induction events as [|x rest IH]; intros H; [done|]. simpl.
  destruct (H x ltac:(set_solver)) as [Hput Hkt].
  assert (negb (IsCreate x) && negb (IsModify x) = false) as ->.
  { unfold IsCreate, IsModify. rewrite Hput. simpl. by destruct (_ =? _). }
  unfold keyType_of in Hkt.
  destruct (parseExecutorKey _ _ _) as [[id kt]|].
  - assert (bool_decide (kt ≠ heartbeatKey) && bool_decide (kt ≠ assignedShardsKey)
            = false) as ->.
    { destruct Hkt as [[= ->]|[[= ->]|?]]; done. }
    apply IH. intros ev ?. apply H. set_solver.
  - apply IH. intros ev ?. apply H. set_solver.
Qed.

(** The events of a heartbeat: a put for each of its three keys. *)
Lemma RecordHeartbeat_events now (req : HeartbeatState) b doc :
  Marshal (hb_ReportedShards req) = Ok doc →
  ∃ kv1 kv2 kv3,
    events (RecordHeartbeat s now None namespace req b)
    = [ {| Type_ := PUT; Kv := kv1 |}; {| Type_ := PUT; Kv := kv2 |};
        {| Type_ := PUT; Kv := kv3 |} ]
    ∧ Key kv1 = buildExecutorKey s namespace (hb_ExecutorID req) heartbeatKey
    ∧ Key kv2 = buildExecutorKey s namespace (hb_ExecutorID req) stateKey
    ∧ Key kv3 = buildExecutorKey s namespace (hb_ExecutorID req) reportedShardsKey.
Proof.
  intros Hm. unfold RecordHeartbeat. rewrite Hm.
  cbn [Then NewTxn sus fas cmps]. rewrite Commit_then.
  2: { unfold ops_conflict. simpl.
       by rewrite bool_decide_eq_true_2 by apply executor_keys_NoDup. }
  simpl. eexists _, _, _. split; [reflexivity|]. done.
Qed.

(** Every heartbeat that gets through, of an executor whose ID fits the key
    layout, gives the watchers of the namespace a significant response,
    whether or not its state and shards differ from what is stored. *)
Lemma RecordHeartbeat_significant now (req : HeartbeatState) b doc :
  slash_free (hb_ExecutorID req) →
  Marshal (hb_ReportedShards req) = Ok doc →
  let out := RecordHeartbeat s now None namespace req b in
  ∃ watchResp,
    watch_response (buildExecutorPrefix s namespace) (revision (backend out))
      (events out) = Some watchResp
    ∧ Subscribe.significant s namespace watchResp.
Proof.
  intros He Hm out.
  destruct (RecordHeartbeat_events now req b doc Hm)
    as (kv1 & kv2 & kv3 & Hev & Hk1 & Hk2 & Hk3).
  subst out. rewrite Hev. unfold watch_response.
  rewrite !filter_cons, filter_nil. cbn [Kv].
  rewrite Hk1, Hk2, Hk3.
  rewrite !decide_True by apply buildExecutorKey_under_namespace.
  eexists. split; [reflexivity|]. split; [done|]. cbn [Events].
  apply (put_is_significant _ {| Type_ := PUT; Kv := kv2 |}
           (hb_ExecutorID req) stateKey); [set_solver| |done|done].
  cbn [Kv]. rewrite Hk2. by apply parse_build.
Qed.

End Significance.

(** ** Subscribe: the channel *)

Section Channel.
Variable s : Store.
Variable namespace : string.

Import Subscribe.

Lemma step_invariant a st st' :
  invariant st → step s namespace a st = Some st' → invariant st'.
Proof.
  intros [Hsend Hclosed]. unfold step.
  destruct a as [resp| | |], st as [[] sl cl rcv]; simpl in *;
    try done;
    repeat (match goal with
            | |- context [match ?x with _ => _ end] => destruct x eqn:?
            end);
    intros; simplify_eq/=; split; simpl; try done;
    try (intros rev [= ->]); eauto; naive_solver.
Qed.

Lemma invariant_init : invariant init.
Proof. split; [done|]. simpl. split; done. Qed.

Lemma run_invariant acts st st' :
  invariant st → run s namespace acts st = Some st' → invariant st'.
Proof.
  revert st. induction acts as [|a acts IH]; intros st Hinv; simpl.
  - by intros [= <-].
  - destruct (step s namespace a st) as [st1|] eqn:E; [|done].
    apply IH. by eapply step_invariant.
Qed.

Lemma reachable_invariant st : reachable s namespace st → invariant st.
Proof. intros [acts H]. by eapply run_invariant; [apply invariant_init|]. Qed.

Lemma run_app acts1 acts2 st :
  run s namespace (acts1 ++ acts2) st
  = match run s namespace acts1 st with
    | Some st1 => run s namespace acts2 st1
    | None => None
    end.
Proof.
  revert st. induction acts1 as [|a acts1 IH]; intros st; simpl; [done|].
  by destruct (step s namespace a st).
Qed.

(** One significant response, taken through the loop body: whatever was in
    the buffer is dropped and the new revision is there; the consumer got
    nothing in between. *)
Lemma handle_significant watchResp st :
  pc st = Watching → significant s namespace watchResp →
  run s namespace (handle watchResp) st
  = Some {| pc := Watching; slot := Some (Etcd.WatchRevision watchResp);
            closed := closed st; received := received st |}.
Proof.
  intros Hpc [Herr Hsig]. unfold handle. cbn [run].
  unfold step at 1. rewrite Hpc, Herr, Hsig. done.
Qed.

(** A response that is not significant passes without a trace. *)
Lemma deliver_insignificant watchResp st :
  pc st = Watching → Etcd.WatchErr watchResp = None →
  isSignificantChange s namespace (Etcd.Events watchResp) = false →
  step s namespace (Deliver watchResp) st = Some st.
Proof. intros Hpc Herr Hsig. unfold step. by rewrite Hpc, Herr, Hsig. Qed.

(** Several significant responses in a row, the consumer away: the buffer
    holds the revision of the last one only. *)
Lemma handle_all_significant resps last st :
  pc st = Watching →
  Forall (significant s namespace) (resps ++ [last]) →
  run s namespace (concat (handle <$> (resps ++ [last]))) st
  = Some {| pc := Watching; slot := Some (Etcd.WatchRevision last);
            closed := closed st; received := received st |}.
Proof.
  revert st. induction resps as [|r resps IH]; intros st Hpc Hall.
  - cbn [app fmap list_fmap concat]. rewrite app_nil_r.
    apply handle_significant; [done|].
    by apply Forall_cons in Hall as [? _].
  - apply Forall_cons in Hall as [Hr Hall].
    cbn [app fmap list_fmap concat]. rewrite run_app.
    rewrite handle_significant by done. by rewrite IH.
Qed.

(** Once the goroutine has returned, only the consumer moves, and it can
    only take what is left in the buffer. *)
Lemma exited_stays acts st st' :
  pc st = Exited → run s namespace acts st = Some st' →
  pc st' = Exited ∧ closed st' = closed st
  ∧ Forall (λ a, a = Receive) acts
  ∧ (slot st' = slot st ∨ slot st' = None).
Proof.
  revert st. induction acts as [|a acts IH]; intros st Hpc; simpl.
  - intros [= <-]. split_and!; [done|done|constructor|by left].
  - destruct (step s namespace a st) as [st1|] eqn:E; [|done].
    assert (a = Receive ∧ pc st1 = Exited ∧ closed st1 = closed st
            ∧ (slot st1 = slot st ∨ slot st1 = None)) as (-> & Hpc1 & Hc1 & Hs1).
    { unfold step in E. rewrite Hpc in E. destruct a; try done.
      destruct (slot st) eqn:Hs; [|destruct (closed st) eqn:Hc; [|done]];
        injection E as <-; simpl; rewrite ?Hs; split_and!; eauto. }
    intros (Hp & Hc & Hall & Hs)%IH; [|done].
    split_and!; [done|congruence|by constructor|].
    destruct Hs as [Hs|Hs]; rewrite Hs; [done|by right].
Qed.

End Channel.

(** C6. The channel of [Subscribe] holds one value and coalesces.  The
    goroutine's send never finds the buffer full.  After any run of
    significant responses that the consumer did not receive between, the
    buffer holds the revision of the last response alone: earlier ones were
    replaced, not queued, and none of them reached the consumer.  The
    channel is closed when the watch channel is closed (the context ended)
    or hands over a response with an error, and only then; after that the
    goroutine takes no step again: no new watch, no further value. *)
Theorem subscribe_channel_coalesces (s : Store) (namespace : string) :
  (∀ st rev, Subscribe.reachable s namespace st →
     Subscribe.pc st = Subscribe.Sending rev →
     ∃ st', Subscribe.step s namespace Subscribe.Step st = Some st'
            ∧ Subscribe.slot st' = Some rev)
  ∧ (∀ st resps last, Subscribe.reachable s namespace st →
       Subscribe.pc st = Subscribe.Watching →
       Forall (Subscribe.significant s namespace) (resps ++ [last]) →
       Subscribe.run s namespace
         (concat (Subscribe.handle <$> (resps ++ [last]))) st
       = Some {| Subscribe.pc := Subscribe.Watching;
                 Subscribe.slot := Some (Etcd.WatchRevision last);
                 Subscribe.closed := Subscribe.closed st;
                 Subscribe.received := Subscribe.received st |})
  ∧ (∀ st, Subscribe.reachable s namespace st →
       Subscribe.pc st = Subscribe.Watching →
       (∃ st', Subscribe.step s namespace Subscribe.WatchClosed st = Some st'
               ∧ Subscribe.closed st' = true
               ∧ Subscribe.pc st' = Subscribe.Exited)
       ∧ ∀ watchResp err, Etcd.WatchErr watchResp = Some err →
           ∃ st', Subscribe.step s namespace (Subscribe.Deliver watchResp) st
                  = Some st'
                  ∧ Subscribe.closed st' = true
                  ∧ Subscribe.pc st' = Subscribe.Exited)
  ∧ (∀ st, Subscribe.reachable s namespace st →
       (Subscribe.closed st = true ↔ Subscribe.pc st = Subscribe.Exited))
  ∧ (∀ st acts st', Subscribe.pc st = Subscribe.Exited →
       Subscribe.run s namespace acts st = Some st' →
       Subscribe.pc st' = Subscribe.Exited
       ∧ Subscribe.closed st' = Subscribe.closed st
       ∧ Forall (λ a, a = Subscribe.Receive) acts
       ∧ (Subscribe.slot st' = Subscribe.slot st ∨ Subscribe.slot st' = None)).
Proof.
  split_and!.
  - intros st rev [Hsend _]%reachable_invariant Hpc.
    unfold Subscribe.step. rewrite Hpc, (Hsend rev Hpc). eauto.
  - intros st resps last _ Hpc Hall. by apply handle_all_significant.
  - intros st _ Hpc. split.
    + unfold Subscribe.step. rewrite Hpc. eauto.
    + intros resp err Herr. unfold Subscribe.step. rewrite Hpc, Herr. eauto.
  - intros st [_ Hclosed]%reachable_invariant. done.
  - intros st acts st'. apply exited_stays.
Qed.

(** Two changes of reported shards, at revisions 3 and 4, with the consumer
    away: the buffer holds 4. *)
Lemma subscribe_channel_coalesces_witness :
  Subscribe.run Examples.store0 "ns"
    (Subscribe.handle (Examples.shards_changed 3)
     ++ Subscribe.handle (Examples.shards_changed 4)) Subscribe.init
  = Some {| Subscribe.pc := Subscribe.Watching; Subscribe.slot := Some 4;
            Subscribe.closed := false; Subscribe.received := [] |}.
Proof.
  apply (proj1 (proj2 (subscribe_channel_coalesces Examples.store0 "ns"))
           Subscribe.init [Examples.shards_changed 3] (Examples.shards_changed 4)).
  - exists []. reflexivity.
  - reflexivity.
  - repeat constructor; vm_compute; reflexivity.
Defined.

(** C2. The code at the failing input: "executor-1" reports the state and
    the shards that are stored already, five seconds after its first
    heartbeat.  The values of its state and reported-shards keys stay as
    they are; the watchers of the namespace get a response all the same,
    [Subscribe] finds it significant and puts its revision on the channel. *)
Theorem steady_heartbeat_emits :
  ret Examples.second_heartbeat = Return None
  ∧ (∀ keyType, keyType ∈ [stateKey; reportedShardsKey] →
       Etcd.value <$> (Etcd.data (backend Examples.second_heartbeat)
                         !! buildExecutorKey Examples.store0 "ns" "executor-1" keyType)
       = Etcd.value <$> (Etcd.data Examples.after_first_heartbeat
                           !! buildExecutorKey Examples.store0 "ns" "executor-1" keyType))
  ∧ ∃ watchResp,
      Etcd.watch_response (buildExecutorPrefix Examples.store0 "ns")
        (Etcd.revision (backend Examples.second_heartbeat))
        (events Examples.second_heartbeat) = Some watchResp
      ∧ isSignificantChange Examples.store0 "ns" (Etcd.Events watchResp) = true
      ∧ Subscribe.run Examples.store0 "ns" (Subscribe.handle watchResp) Subscribe.init
        = Some {| Subscribe.pc := Subscribe.Watching; Subscribe.slot := Some 3;
                  Subscribe.closed := false; Subscribe.received := [] |}.
Proof.
  split_and!.
  - vm_compute. reflexivity.
  - intros keyType Hkt. set_unfold. destruct Hkt as [->|[->|[]]];
      vm_compute; reflexivity.
  - eexists. split_and!; [vm_compute; reflexivity|vm_compute; reflexivity|].
    vm_compute. reflexivity.
Qed.

(** ** The elector *)

Section ElectorFacts.
Import Elector.

Lemma emissions_app tr1 tr2 : emissions (tr1 ++ tr2) = emissions tr1 ++ emissions tr2.
Proof. apply omap_app. Qed.

(** What one pass sends on the leadership channel. *)
Lemma runElection_emissions ep :
  emissions (runElection ep).1 = []
  ∨ emissions (runElection ep).1 = [false]
  ∨ emissions (runElection ep).1 = [true; false].
Proof.
  unfold runElection. destruct (cancelled_in_wait ep); [by left|].
  destruct (campaign ep); [by left|].
  destruct (processor_run ep); [right; by left|right; by right].
Qed.

(** Over any number of passes, [true] is followed by [false] before the
    next [true]. *)
Lemma Run_alternating script : alternating (emissions (Run script)) = true.
Proof.
  induction script as [|ep rest IH]; [done|]. simpl.
  pose proof (runElection_emissions ep) as Hem.
  destruct (runElection ep) as [tr ending]. simpl in Hem.
  assert (alternating (emissions tr ++ emissions (Run rest)) = true) as Hgo.
  { destruct Hem as [->|[->| ->]]; done. }
  destruct ending; rewrite ?emissions_app; simpl; try done.
  destruct Hem as [->|[->| ->]]; done.
Qed.

End ElectorFacts.

(** C4 (on the elector as the specification describes it). When the
    campaign is won and [Processor.Run] returns an error, the elector calls
    [Terminate], then [Resign], then emits [false], without having emitted
    [true]; the error it surfaces is the error of [Run] under the tag
    "onLeader", and its text contains "onLeader" and the text of the error
    of [Run]. *)
Theorem onLeader_failure (ep : Elector.Episode) (err : error) :
  Elector.cancelled_in_wait ep = false →
  Elector.campaign ep = None →
  Elector.processor_run ep = Some err →
  Elector.runElection ep
  = ([Elector.Campaign; Elector.CreateProcessor; Elector.ProcessorRun;
      Elector.Terminate; Elector.Resign; Elector.Emit false],
     Elector.OnLeaderFailure (Wrapf "onLeader" err))
  ∧ GoStrings.Contains (Error (Wrapf "onLeader" err)) "onLeader" = true
  ∧ GoStrings.Contains (Error (Wrapf "onLeader" err)) (Error err) = true.
Proof.
  intros Hw Hc Hr. unfold Elector.runElection. rewrite Hw, Hc, Hr.
  split_and!; [done|apply GoStringsFacts.Contains_app_l|].
  cbn [Error]. rewrite <- GoStringsFacts.app_assoc.
  apply GoStringsFacts.Contains_app_r.
Qed.

(** The error "leader error" surfaces as "onLeader: leader error". *)
Lemma onLeader_failure_witness :
  Elector.runElection Examples.onLeader_error_episode
  = ([Elector.Campaign; Elector.CreateProcessor; Elector.ProcessorRun;
      Elector.Terminate; Elector.Resign; Elector.Emit false],
     Elector.OnLeaderFailure (Wrapf "onLeader" (Errorf "leader error")))
  ∧ GoStrings.Contains (Error (Wrapf "onLeader" (Errorf "leader error"))) "onLeader"
    = true
  ∧ GoStrings.Contains (Error (Wrapf "onLeader" (Errorf "leader error")))
      "leader error" = true.
Proof.
  apply (onLeader_failure Examples.onLeader_error_episode (Errorf "leader error"));
    reflexivity.
Defined.

(** C5 (on the elector as the specification describes it). In every pass in
    which the campaign is won, whatever ends the leadership and whatever
    [Run], [Terminate] and [Resign] return, the trace ends with
    [Terminate], [Resign] and the emission of [false], in this order, each
    of them once; [true] is emitted at most once, and before them.  Over
    any number of passes a [true] on the leadership channel is followed by
    a [false] before the next [true]. *)
Theorem leadership_episode_order (ep : Elector.Episode)
    (script : list Elector.Episode) :
  Elector.cancelled_in_wait ep = false →
  Elector.campaign ep = None →
  (∃ pre,
     (Elector.runElection ep).1
     = pre ++ [Elector.Terminate; Elector.Resign; Elector.Emit false]
     ∧ (Elector.Terminate ∉ pre) ∧ (Elector.Resign ∉ pre)
     ∧ (Elector.Emit false ∉ pre)
     ∧ (Elector.count (Elector.Emit true) pre ≤ 1)%nat)
  ∧ Elector.count Elector.Terminate (Elector.runElection ep).1 = 1%nat
  ∧ Elector.count Elector.Resign (Elector.runElection ep).1 = 1%nat
  ∧ Elector.count (Elector.Emit false) (Elector.runElection ep).1 = 1%nat
  ∧ (Elector.processor_run ep = None →
     Elector.emissions (Elector.runElection ep).1 = [true; false])
  ∧ Elector.alternating (Elector.emissions (Elector.Run script)) = true.
Proof.
  intros Hw Hc. unfold Elector.runElection. rewrite Hw, Hc.
  split_and!; [| | | | |apply Run_alternating].
  - destruct (Elector.processor_run ep); eexists;
      (split; [reflexivity|]); split_and!; try set_solver; vm_compute; lia.
  - destruct (Elector.processor_run ep); reflexivity.
  - destruct (Elector.processor_run ep); reflexivity.
  - destruct (Elector.processor_run ep); reflexivity.
  - by intros ->.
Qed.

(** The leader period elapses, [Terminate] and [Resign] fail: [true], then
    [Terminate], [Resign] and [false] all the same. *)
Lemma leadership_episode_order_witness :
  (Elector.runElection Examples.rotation_episode).1
  = [Elector.Campaign; Elector.CreateProcessor; Elector.ProcessorRun;
     Elector.Emit true; Elector.Await Elector.LeaderPeriodElapsed;
     Elector.Terminate; Elector.Resign; Elector.Emit false]
  ∧ Elector.count (Elector.Emit false)
      (Elector.runElection Examples.rotation_episode).1 = 1%nat.
Proof.
  split; [reflexivity|].
  apply (leadership_episode_order Examples.rotation_episode []); reflexivity.
Defined.

(** * Further properties of the store *)

(** ** The key layout *)

Section KeyLayout.
Import GoStrings GoStringsFacts.

Variable s : Store.

(** Cutting at the last separator. *)
Lemma app_sep_inj_r (sep : ascii) (a b x y : string) :
  a +:+ String sep x = b +:+ String sep y →
  has_byte sep x = false → has_byte sep y = false → a = b ∧ x = y.
Proof.
  revert b. induction a as [|c a IH]; intros [|c' b]; rewrite ?app_nil_l, ?app_cons.
  - by intros [= ->].
  - intros [= <- ->]. rewrite has_byte_app. simpl.
    rewrite bool_decide_eq_true_2 by done. by rewrite orb_true_r.
  - intros [= -> <-] _. rewrite has_byte_app. simpl.
    rewrite bool_decide_eq_true_2 by done. by rewrite orb_true_r.
  - intros [= <- H] Hx Hy. destruct (IH b H Hx Hy) as [-> ->]. done.
Qed.

Lemma buildExecutorKey_snoc namespace executorID keyType :
  buildExecutorKey s namespace executorID keyType
  = (buildExecutorPrefix s namespace +:+ executorID) +:+ String "/" keyType.
Proof. unfold buildExecutorKey. by rewrite app_assoc. Qed.

Lemma buildExecutorPrefix_snoc namespace executorID :
  buildExecutorPrefix s namespace +:+ executorID
  = ((prefix s +:+ "/" +:+ namespace) +:+ String "/" "executors")
    +:+ String "/" executorID.
Proof.
  unfold buildExecutorPrefix, buildNamespacePrefix. rewrite !app_assoc. done.
Qed.

(** The keys of slash-free executors and key types in any two namespaces
    are the same key only if namespace, executor and type are the same. *)
Lemma buildExecutorKey_inj_all ns1 ns2 e1 e2 kt1 kt2 :
  slash_free e1 → slash_free e2 → slash_free kt1 → slash_free kt2 →
  buildExecutorKey s ns1 e1 kt1 = buildExecutorKey s ns2 e2 kt2 →
  ns1 = ns2 ∧ e1 = e2 ∧ kt1 = kt2.
Proof.
  intros He1 He2 Hk1 Hk2. rewrite !buildExecutorKey_snoc.
  intros [H ->]%app_sep_inj_r; [|done|done].
  rewrite !buildExecutorPrefix_snoc in H.
  apply app_sep_inj_r in H as [H ->]; [|done|done].
  apply app_sep_inj_r in H as [H _]; [|done|done].
  rewrite <- !app_assoc in H. apply (inj (String.app _)) in H. done.
Qed.

End KeyLayout.

(** X1. A key built from an executor ID and a key type parses, and then
    into these two, exactly when neither contains a slash. *)
Theorem executor_key_round_trip (s : Store)
    (namespace executorID keyType : string) (r : string * string) :
  parseExecutorKey s namespace (buildExecutorKey s namespace executorID keyType)
    = Ok r
  ↔ slash_free executorID ∧ slash_free keyType ∧ r = (executorID, keyType).
Proof.
  split.
  - destruct r as [id kt]. intros Hp.
    pose proof (parse_inv _ _ _ _ _ Hp) as (Hk & Hid & Hkt).
    rewrite !buildExecutorKey_prefix in Hk. apply (inj (String.app _)) in Hk.
    apply app_sep_inj in Hk as [-> ->]; done.
  - intros (Hid & Hkt & ->). by apply parse_build.
Qed.

(** X2. A key that parses is the key built from the executor ID and the key
    type it parses into, and neither of them contains a slash. *)
Theorem executor_key_parse_build (s : Store)
    (namespace key executorID keyType : string) :
  parseExecutorKey s namespace key = Ok (executorID, keyType) →
  buildExecutorKey s namespace executorID keyType = key
  ∧ slash_free executorID ∧ slash_free keyType.
Proof. intros (-> & ? & ?)%parse_inv. done. Qed.

Lemma executor_key_parse_build_witness :
  buildExecutorKey Examples.store0 "ns" "executor-1" "state"
  = "/shard-distributor/ns/executors/executor-1/state"
  ∧ slash_free "executor-1" ∧ slash_free "state".
Proof.
  apply (executor_key_parse_build Examples.store0 "ns"
           "/shard-distributor/ns/executors/executor-1/state").
  vm_compute. reflexivity.
Defined.

(** X3. The keys of two executors never collide, across key types and
    across namespaces, as long as executor IDs and key types contain no
    slash (the namespaces may). *)
Theorem executor_keys_distinct (s : Store) (ns1 ns2 e1 e2 kt1 kt2 : string) :
  slash_free e1 → slash_free e2 → slash_free kt1 → slash_free kt2 →
  buildExecutorKey s ns1 e1 kt1 = buildExecutorKey s ns2 e2 kt2 →
  ns1 = ns2 ∧ e1 = e2 ∧ kt1 = kt2.
Proof. apply buildExecutorKey_inj_all. Qed.

Lemma executor_keys_distinct_witness :
  ("a/b" : string) = "a/b" ∧ ("executor-1" : string) = "executor-1"
  ∧ heartbeatKey = heartbeatKey.
Proof.
  apply (executor_keys_distinct Examples.store0 "a/b" "a/b" "executor-1"
           "executor-1" heartbeatKey heartbeatKey); reflexivity.
Defined.

(** ** GetHeartbeat reads the executor's own keys *)

Section ReadsOwnKeys.
Context {ShardState : Type} `{!JSON ShardState}.
Variable s : Store.
Variable namespace : string.

Import Etcd EtcdFacts.

(** A valid key of an executor is one of its keys, of a slash-free type. *)
Lemma has_valid_key_build executorID b :
  has_valid_key s namespace executorID b ↔
  slash_free executorID
  ∧ ∃ keyType, slash_free keyType
      ∧ is_Some (data b !! buildExecutorKey s namespace executorID keyType).
Proof.
  split.
  - intros (key & entry & [id kt] & Hl & Hpre & Hp).
    pose proof (parse_inv _ _ _ _ _ Hp) as (_ & Hid & Hkt).
    destruct (parse_under_executor _ _ _ _ _ _ Hpre Hp) as [-> ->]. eauto.
  - intros (He & kt & Hkt & entry & Hl).
    exists (buildExecutorKey s namespace executorID kt), entry, (executorID, kt).
    split_and!; [done|apply buildExecutorKey_under|by apply parse_build].
Qed.

(** When it succeeds, [GetHeartbeat] returns what the keys say. *)
Lemma GetHeartbeat_Ok_stored executorID b st :
  GetHeartbeat s None namespace executorID b = Ok st →
  st = stored_heartbeat s namespace executorID (data b).
Proof.
  intros Hst.
  pose proof (GetHeartbeat_fields _ _ _ _ _ Hst) as (Hid & Hhb & Hs & Hr).
  pose proof (GetHeartbeat_absent _ _ _ _ _ Hst) as (Hhb0 & Hs0 & Hr0).
  destruct st as [id t state shards]. unfold stored_heartbeat. simpl in *.
  f_equal.
  - done.
  - destruct (data b !! _) as [e|] eqn:E; [by apply Hhb|by apply Hhb0].
  - destruct (data b !! buildExecutorKey s namespace executorID stateKey)
      as [e|] eqn:E; [by apply Hs|by apply Hs0].
  - destruct (data b !! buildExecutorKey s namespace executorID reportedShardsKey)
      as [e|] eqn:E; [|by apply Hr0].
    specialize (Hr e eq_refl). unfold UnmarshalInto in Hr.
    destruct (Unmarshal (value e)) as [[m|]|]; simplify_eq/=; [|done].
    by rewrite (right_id ∅ (∪)).
Qed.

Lemma GetHeartbeat_Ok_valid executorID b st :
  GetHeartbeat s None namespace executorID b = Ok st →
  has_valid_key s namespace executorID b.
Proof.
  intros Hst. apply has_valid_key_iff. revert Hst.
  rewrite GetHeartbeat_read. cbv zeta.
  destruct (range_prefix _ _) as [|kv0 kvs0] eqn:Hr; [done|].
  rewrite <- Hr. clear Hr kv0 kvs0.
  destruct (GetHeartbeat_loop _ _ _ _ _) as [[st' found]|err] eqn:Hloop; [|done].
  destruct found; [|done]. intros _. apply loop_found in Hloop.
  by destruct (proj1 Hloop eq_refl) as [?|?].
Qed.

(** The three outcomes of [GetHeartbeat] with the read answered. *)
Lemma GetHeartbeat_cases executorID b :
  (¬ has_valid_key s namespace executorID b
   ∧ GetHeartbeat (ShardState := ShardState) s None namespace executorID b
     = Err ErrExecutorNotFound)
  ∨ (∃ r je,
       data b !! buildExecutorKey s namespace executorID reportedShardsKey = Some r
       ∧ Unmarshal (V := ShardState) (value r) = Err je
       ∧ slash_free executorID
       ∧ GetHeartbeat (ShardState := ShardState) s None namespace executorID b
         = Err (Wrapf "unmarshal reported shards" je))
  ∨ (has_valid_key s namespace executorID b
     ∧ (∀ r, data b !! buildExecutorKey s namespace executorID reportedShardsKey
               = Some r → ∃ m, Unmarshal (V := ShardState) (value r) = Ok m)
     ∧ GetHeartbeat s None namespace executorID b
       = Ok (stored_heartbeat s namespace executorID (data b))).
Proof.
  destruct (GetHeartbeat (ShardState := ShardState) s None namespace executorID b)
    as [st|err] eqn:E.
  - right; right.
    pose proof (GetHeartbeat_Ok_valid _ _ _ E) as Hv.
    split_and!; [done| |by rewrite (GetHeartbeat_Ok_stored _ _ _ E)].
    intros r Hr. destruct (Unmarshal (V := ShardState) (value r)) as [m|je] eqn:Hu;
      [eauto|].
    apply has_valid_key_build in Hv as [He _].
    rewrite (GetHeartbeat_Err s namespace executorID b r je He Hr Hu) in E. done.
  - destruct (decide (err = ErrExecutorNotFound)) as [->|Hne].
    { left. split; [|done]. by apply GetHeartbeat_NotFound_iff. }
    right; left. revert E. rewrite GetHeartbeat_read. cbv zeta.
    destruct (range_prefix _ _) as [|kv0 kvs0] eqn:Hr; [congruence|].
    rewrite <- Hr. clear Hr kv0 kvs0.
    destruct (GetHeartbeat_loop _ _ _ _ _) as [[st' found]|err'] eqn:Hloop.
    { destruct found; simpl; congruence. }
    intros [= ->].
    apply loop_Err_inv in Hloop as (kv & je & Hin & Hkt & Hje & ->).
    destruct (executor_range_typed _ _ _ _ _ _ Hin Hkt) as (entry & Hl & -> & He).
    exists entry, je. done.
Qed.

(** [GetHeartbeat] looks at nothing but the values stored under the keys
    of its executor. *)
Lemma GetHeartbeat_ext fault executorID b1 b2 :
  (∀ keyType, slash_free keyType →
     value <$> (data b1 !! buildExecutorKey s namespace executorID keyType)
     = value <$> (data b2 !! buildExecutorKey s namespace executorID keyType)) →
  GetHeartbeat (ShardState := ShardState) s fault namespace executorID b1
  = GetHeartbeat s fault namespace executorID b2.
Proof.
  intros Hsame. destruct fault as [err|]; [done|].
  assert (∀ b b', (∀ keyType, slash_free keyType →
              value <$> (data b !! buildExecutorKey s namespace executorID keyType)
              = value <$> (data b' !! buildExecutorKey s namespace executorID keyType)) →
            has_valid_key s namespace executorID b →
            has_valid_key s namespace executorID b') as Hvalid.
  { intros b b' H (He & kt & Hkt & entry & Hl)%has_valid_key_build.
    apply has_valid_key_build. split; [done|]. exists kt. split; [done|].
    specialize (H kt Hkt). rewrite Hl in H.
    destruct (data b' !! _); [eauto|done]. }
  assert (stored_heartbeat (ShardState := ShardState) s namespace executorID (data b1)
          = stored_heartbeat s namespace executorID (data b2)) as Hstored.
  { unfold stored_heartbeat.
    pose proof (Hsame heartbeatKey eq_refl) as H1.
    pose proof (Hsame stateKey eq_refl) as H2.
    pose proof (Hsame reportedShardsKey eq_refl) as H3.
    destruct (data b1 !! buildExecutorKey s namespace executorID heartbeatKey),
             (data b2 !! buildExecutorKey s namespace executorID heartbeatKey),
             (data b1 !! buildExecutorKey s namespace executorID stateKey),
             (data b2 !! buildExecutorKey s namespace executorID stateKey),
             (data b1 !! buildExecutorKey s namespace executorID reportedShardsKey),
             (data b2 !! buildExecutorKey s namespace executorID reportedShardsKey);
      simpl in *; try done;
      repeat match goal with H : Some _ = Some _ |- _ => injection H as H end;
      rewrite ?H1, ?H2, ?H3; done. }
  destruct (GetHeartbeat_cases executorID b1)
    as [[Hno1 ->]|[(r1 & je1 & Hl1 & Hu1 & He1 & ->)|(Hv1 & Hdec1 & ->)]];
  destruct (GetHeartbeat_cases executorID b2)
    as [[Hno2 ->]|[(r2 & je2 & Hl2 & Hu2 & He2 & ->)|(Hv2 & Hdec2 & ->)]];
    try done.
  - destruct Hno1. apply (Hvalid b2 b1); [by intros; symmetry; apply Hsame|].
    apply has_valid_key_build. split; [done|]. exists reportedShardsKey. split; [done|eauto].
  - destruct Hno1. by apply (Hvalid b2 b1); [intros; symmetry; apply Hsame|].
  - destruct Hno2. apply (Hvalid b1 b2); [done|].
    apply has_valid_key_build. split; [done|]. exists reportedShardsKey. split; [done|eauto].
  - pose proof (Hsame reportedShardsKey eq_refl) as H. rewrite Hl1, Hl2 in H.
    simpl in H. congruence.
  - pose proof (Hsame reportedShardsKey eq_refl) as H. rewrite Hl1 in H.
    destruct (data b2 !! _) as [r2|] eqn:Hl2; [|done].
    destruct (Hdec2 r2 eq_refl) as [m Hm]. simpl in H. congruence.
  - by destruct Hno2; apply (Hvalid b1 b2).
  - pose proof (Hsame reportedShardsKey eq_refl) as H. rewrite Hl2 in H.
    destruct (data b1 !! _) as [r1|] eqn:Hl1; [|done].
    destruct (Hdec1 r1 eq_refl) as [m Hm]. simpl in H. congruence.
  - by rewrite Hstored.
Qed.

End ReadsOwnKeys.

(** ** What the writes change *)

Module EtcdWriteFacts.
Import Etcd EtcdFacts.

Lemma apply_ops_put_cons rev d k0 v0 (kvs : list (string * string)) :
  apply_ops rev d (put_of <$> (k0, v0) :: kvs)
  = let e := put_entry rev d k0 v0 in
    let r := apply_ops rev (<[k0 := e]> d) (put_of <$> kvs) in
    (r.1, {| Type_ := PUT; Kv := to_kv (k0, e) |} :: r.2).
Proof.
  cbn [fmap list_fmap apply_ops]. unfold put_of at 1. cbn [fst snd apply_op].
  by destruct (apply_ops _ _ _).
Qed.

(** A run of puts on different keys: each key holds its value afterwards,
    no other key changes, and each event is a put on one of the keys. *)
Lemma apply_ops_puts rev d (kvs : list (string * string)) :
  NoDup kvs.*1 →
  (∀ k v, (k, v) ∈ kvs →
     value <$> ((apply_ops rev d (put_of <$> kvs)).1 !! k) = Some v)
  ∧ (∀ k, k ∉ kvs.*1 → (apply_ops rev d (put_of <$> kvs)).1 !! k = d !! k)
  ∧ (∀ ev, ev ∈ (apply_ops rev d (put_of <$> kvs)).2 →
       Type_ ev = PUT ∧ Key (Kv ev) ∈ kvs.*1)
  ∧ (kvs ≠ [] → (apply_ops rev d (put_of <$> kvs)).2 ≠ []).
Proof.
  revert d. induction kvs as [|[k0 v0] kvs IH]; intros d Hnd.
  { simpl. split_and!; [set_solver|done|set_solver|done]. }
  rewrite fmap_cons in Hnd. cbn [fst] in Hnd.
  apply NoDup_cons in Hnd as [Hk0 Hnd]. rewrite apply_ops_put_cons. cbv zeta.
  specialize (IH (<[k0 := put_entry rev d k0 v0]> d) Hnd).
  destruct (apply_ops rev (<[k0 := put_entry rev d k0 v0]> d) (put_of <$> kvs))
    as [d2 ev2] eqn:E.
  destruct IH as (Hin & Hout & Hev & _). cbn [fst snd] in Hin, Hout, Hev |- *.
  split_and!.
  - intros k v [[= -> ->]|Hkv]%elem_of_cons; [|by apply Hin].
    rewrite (Hout k0 Hk0). rewrite lookup_insert_eq. simpl.
    unfold put_entry. by destruct (d !! k0).
  - intros k Hk. rewrite fmap_cons in Hk. cbn [fst] in Hk.
    apply not_elem_of_cons in Hk as [Hne Hk].
    rewrite (Hout k Hk). by apply lookup_insert_ne.
  - intros ev [->|Hin']%elem_of_cons.
    + split; [done|]. rewrite fmap_cons. simpl. by left.
    + destruct (Hev ev Hin') as [? ?]. split; [done|].
      rewrite fmap_cons. by right.
  - done.
Qed.

(** A run of prefix deletes: the keys under one of the prefixes are gone,
    the others stay, each event is a delete of a key that was stored, and
    there is no event exactly when no stored key is under a prefix. *)
Lemma apply_ops_deletes rev d (prefixes : list string) :
  let r := apply_ops rev d ((λ p, OpDelete p true) <$> prefixes) in
  (∀ k, (∃ p, p ∈ prefixes ∧ GoStrings.HasPrefix k p = true) → r.1 !! k = None)
  ∧ (∀ k, (∀ p, p ∈ prefixes → GoStrings.HasPrefix k p = false) →
       r.1 !! k = d !! k)
  ∧ (∀ ev, ev ∈ r.2 →
       Type_ ev = DELETE
       ∧ is_Some (d !! Key (Kv ev))
       ∧ ∃ p, p ∈ prefixes ∧ GoStrings.HasPrefix (Key (Kv ev)) p = true)
  ∧ (∀ k p, is_Some (d !! k) → p ∈ prefixes → GoStrings.HasPrefix k p = true →
       r.2 ≠ []).
Proof.
  cbv zeta. revert d. induction prefixes as [|p0 ps IH]; intros d.
  { simpl. split_and!; [set_solver|done|set_solver|set_solver]. }
  cbn [fmap list_fmap apply_ops apply_op].
  set (d1 := filter (λ p, delete_matches p0 true p.1 = false) d).
  set (ev1 := delete_event rev <$>
                filter (λ kv, delete_matches p0 true (Key kv) = true)
                  (merge_sort key_le (to_kv <$> map_to_list d))).
  specialize (IH d1).
  destruct (apply_ops rev d1 ((λ p, OpDelete p true) <$> ps)) as [d2 ev2] eqn:E.
  destruct IH as (Hgone & Hstay & Hev & Hne). cbn [fst snd] in *.
  assert (∀ k, d1 !! k = if GoStrings.HasPrefix k p0 then None else d !! k) as Hd1.
  { intros k. unfold d1. rewrite map_lookup_filter. simpl.
    destruct (d !! k) as [e|]; simpl; [|by destruct (GoStrings.HasPrefix k p0)].
    destruct (GoStrings.HasPrefix k p0); case_guard; done. }
  assert (∀ ev, ev ∈ ev1 ↔ ∃ k e, d !! k = Some e ∧ GoStrings.HasPrefix k p0 = true
                            ∧ ev = delete_event rev (to_kv (k, e))) as Hev1.
  { intros ev. unfold ev1. rewrite list_elem_of_fmap. split.
    - intros (kv & -> & Hkv). apply list_elem_of_filter in Hkv as [Hm Hkv].
      rewrite merge_sort_Permutation in Hkv.
      apply list_elem_of_fmap in Hkv as ([k e] & -> & Hkv).
      apply elem_of_map_to_list in Hkv. exists k, e. done.
    - intros (k & e & Hl & Hp & ->). exists (to_kv (k, e)). split; [done|].
      apply list_elem_of_filter. split; [done|].
      rewrite merge_sort_Permutation. apply list_elem_of_fmap.
      exists (k, e). split; [done|]. by apply elem_of_map_to_list. }
  split_and!.
  - intros k (p & [->|Hp]%elem_of_cons & Hpre).
    + destruct (decide (Exists (λ p, GoStrings.HasPrefix k p = true) ps))
        as [Hex|Hno].
      * apply Hgone. by apply Exists_exists.
      * rewrite Hstay, Hd1, Hpre; [done|]. intros p Hp.
        destruct (GoStrings.HasPrefix k p) eqn:E'; [|done]. destruct Hno.
        apply Exists_exists. eauto.
    + apply Hgone. eauto.
  - intros k Hk. rewrite Hstay by (intros p ?; apply Hk; set_solver).
    rewrite Hd1. by rewrite (Hk p0) by set_solver.
  - intros ev [Hin|Hin]%elem_of_app.
    + apply Hev1 in Hin as (k & e & Hl & Hp & ->). simpl.
      split_and!; [done|eauto|]. exists p0. split; [set_solver|done].
    + destruct (Hev ev Hin) as (Hty & [e He] & p & Hp & Hpre).
      split_and!; [done| |exists p; split; [set_solver|done]].
      rewrite Hd1 in He. destruct (GoStrings.HasPrefix _ p0); [done|eauto].
  - intros k p [e Hl] [->|Hp]%elem_of_cons Hpre.
    + assert (delete_event rev (to_kv (k, e)) ∈ ev1) as Hin.
      { apply Hev1. eauto. }
      intros [Hnil _]%app_eq_nil. rewrite Hnil in Hin. set_solver.
    + destruct (GoStrings.HasPrefix k p0) eqn:Hp0.
      * assert (delete_event rev (to_kv (k, e)) ∈ ev1) as Hin.
        { apply Hev1. eauto. }
        intros [Hnil _]%app_eq_nil. rewrite Hnil in Hin. set_solver.
      * intros [_ Hnil]%app_eq_nil. revert Hnil. apply (Hne k p); [|done|done].
        rewrite Hd1, Hp0. eauto.
Qed.

End EtcdWriteFacts.

Section WriteEffects.
Context {ShardState ShardAssignment : Type}.
Context `{!JSON ShardState, !JSON ShardAssignment}.
Variable s : Store.
Variable namespace : string.

Import Etcd EtcdFacts EtcdWriteFacts.

Lemma Ret_nil_cases (r : Ret) : r = Return None ∨ r ≠ Return None.
Proof. destruct r as [[e|]|]; [by right|by left|by right]. Qed.

(** The transaction of a heartbeat is a fresh one: [Then] cannot panic. *)
Lemma RecordHeartbeat_no_panic now fault (req : HeartbeatState) b :
  ret (RecordHeartbeat s now fault namespace req b) ≠ Panic.
Proof.
  unfold RecordHeartbeat. destruct (Marshal _) as [doc|]; [|done].
  cbn [Then NewTxn sus fas cmps]. by destruct (Commit _ _ _) as [[r b'] evs].
Qed.

(** A heartbeat whose round trip is answered and that does not return nil
    has written nothing. *)
Lemma RecordHeartbeat_failure now (req : HeartbeatState) b :
  ret (RecordHeartbeat s now None namespace req b) ≠ Return None →
  backend (RecordHeartbeat s now None namespace req b) = b
  ∧ events (RecordHeartbeat s now None namespace req b) = [].
Proof.
  unfold RecordHeartbeat. destruct (Marshal _) as [doc|]; [|done].
  cbn [Then NewTxn sus fas cmps]. rewrite Commit_then.
  2: { unfold ops_conflict. simpl.
       by rewrite bool_decide_eq_true_2 by apply executor_keys_NoDup. }
  simpl. done.
Qed.

(** What a heartbeat leaves behind, whatever becomes of its round trip: it
    returns nil; or it returns an error and nothing was written; or the
    answer was lost, it returns that error, and the server has done what it
    does for a heartbeat that returns nil. *)
Lemma RecordHeartbeat_outcome now fault (req : HeartbeatState) b :
  let out := RecordHeartbeat s now fault namespace req b in
  let answered := RecordHeartbeat s now None namespace req b in
  (ret out = Return None ∧ fault = None)
  ∨ ((∃ err, ret out = Return (Some err)) ∧ backend out = b ∧ events out = [])
  ∨ (∃ e, fault = Some (ResponseLost e)
       ∧ ret out = Return (Some (Wrapf "record heartbeat" e))
       ∧ ret answered = Return None
       ∧ backend out = backend answered ∧ events out = events answered).
Proof.
  cbv zeta. unfold RecordHeartbeat.
  destruct (Marshal _) as [doc|err]; [|right; left; by eauto].
  cbn [Then NewTxn sus fas cmps].
  assert (ops_conflict
            [OpPut (buildExecutorKey s namespace (hb_ExecutorID req) heartbeatKey)
               (Strconv.FormatInt now);
             OpPut (buildExecutorKey s namespace (hb_ExecutorID req) stateKey)
               (State req);
             OpPut (buildExecutorKey s namespace (hb_ExecutorID req)
                      reportedShardsKey) doc] = false) as Hno.
  { unfold ops_conflict. simpl.
    by rewrite bool_decide_eq_true_2 by apply executor_keys_NoDup. }
  rewrite (Commit_then b _ Hno).
  destruct fault as [[e|e]|].
  - right; left. simpl. eauto.
  - right; right. exists e. split; [done|]. unfold Commit.
    by rewrite (apply_txn_then b _ Hno).
  - left. by rewrite (Commit_then b _ Hno).
Qed.

(** A heartbeat writes the three keys of its executor and no other key. *)
Lemma RecordHeartbeat_other_keys now fault (req : HeartbeatState) b key :
  key ∉ [buildExecutorKey s namespace (hb_ExecutorID req) heartbeatKey;
         buildExecutorKey s namespace (hb_ExecutorID req) stateKey;
         buildExecutorKey s namespace (hb_ExecutorID req) reportedShardsKey] →
  data (backend (RecordHeartbeat s now fault namespace req b)) !! key
  = data b !! key.
Proof.
  intros Hkey.
  assert (ret (RecordHeartbeat s now None namespace req b) = Return None →
          data (backend (RecordHeartbeat s now None namespace req b)) !! key
          = data b !! key) as Hanswered.
  { intros Hok. apply RecordHeartbeat_success_inv in Hok as [_ [doc Hdoc]].
    destruct (RecordHeartbeat_commit s namespace now req b doc Hdoc)
      as (_ & _ & (e1 & e2 & e3 & -> & _) & _).
    rewrite !lookup_insert_ne; [done|set_solver..]. }
  destruct (RecordHeartbeat_outcome now fault req b)
    as [[Hok ->]|[(_ & -> & _)|(e & _ & _ & Hok & -> & _)]]; [|done|];
    by apply Hanswered.
Qed.

(** The guarded commit, the round trip answered: anything but nil means
    that nothing was written. *)
Lemma commit_guarded_failure what guard ops b :
  ret (commit_guarded what None guard ops b) ≠ Return None →
  backend (commit_guarded what None guard ops b) = b
  ∧ events (commit_guarded what None guard ops b) = [].
Proof.
  unfold commit_guarded. destruct (guard _) as [[g|]|]; [|done|done].
  destruct (Then g ops) as [t|] eqn:Ht; [|done].
  apply Then_Some in Ht as (_ & _ & Hfas).
  destruct (Commit None b t) as [[r b'] evs] eqn:Hc. cbn.
  destruct r as [resp|err].
  - destruct (Succeeded resp) eqn:Hs; [done|]. intros _.
    by apply (Commit_not_succeeded None b t resp).
  - intros _. by apply (apply_txn_Err b t err).
Qed.

(** The guarded commit, whatever becomes of its round trip: it returns
    nil; or it does not and nothing was written; or the answer was lost,
    it returns that error, and the server has done what it does for a call
    that returns nil. *)
Lemma commit_guarded_outcome what fault guard ops b :
  let out := commit_guarded what fault guard ops b in
  let answered := commit_guarded what None guard ops b in
  ret out = Return None
  ∨ (ret out ≠ Return None ∧ backend out = b ∧ events out = [])
  ∨ (∃ e, fault = Some (ResponseLost e)
       ∧ ret out = Return (Some (Wrapf what e))
       ∧ ret answered = Return None
       ∧ backend out = backend answered ∧ events out = events answered).
Proof.
  cbv zeta. destruct fault as [[e|e]|].
  - right; left. unfold commit_guarded.
    destruct (guard _) as [[g|]|]; [|done|done].
    by destruct (Then g ops) as [t|].
  - destruct (Ret_nil_cases (ret (commit_guarded what None guard ops b)))
      as [Hok|Hfail].
    + right; right. exists e. split; [done|]. revert Hok.
      unfold commit_guarded. destruct (guard _) as [[g|]|]; [|done|done].
      destruct (Then g ops) as [t|]; [|done]. unfold Commit.
      by destruct (apply_txn b t) as [[r b'] evs].
    + right; left. destruct (commit_guarded_failure what guard ops b Hfail)
        as [Hb Hev]. revert Hb Hev.
      unfold commit_guarded. destruct (guard _) as [[g|]|]; [|done|done].
      destruct (Then g ops) as [t|]; [|done]. unfold Commit.
      by destruct (apply_txn b t) as [[r b'] evs].
  - destruct (Ret_nil_cases (ret (commit_guarded what None guard ops b)))
      as [Hok|Hfail]; [by left|].
    right; left. split; [done|]. by apply commit_guarded_failure.
Qed.

(** The guarded commit: nil means that the guard gave an etcd transaction,
    its compares held, and the operations were applied at the next
    revision. *)
Lemma commit_guarded_success what fault guard ops b :
  ret (commit_guarded what fault guard ops b) = Return None →
  ∃ g, guard (EtcdTxn NewTxn) = Ok (EtcdTxn g)
    ∧ eval_cmps (data b) (default [] (cmps g)) = true
    ∧ committed (commit_guarded what fault guard ops b)
      = [ {| cmps := cmps g; sus := Some ops; fas := None |} ]
    ∧ data (backend (commit_guarded what fault guard ops b))
      = (apply_ops (revision b + 1) (data b) ops).1
    ∧ events (commit_guarded what fault guard ops b)
      = (apply_ops (revision b + 1) (data b) ops).2
    ∧ revision (backend (commit_guarded what fault guard ops b))
      = match (apply_ops (revision b + 1) (data b) ops).2 with
        | [] => revision b
        | _ => revision b + 1
        end.
Proof.
  unfold commit_guarded. destruct (guard _) as [[g|]|]; [|done|done].
  unfold Then. destruct (sus g), (fas g); try done.
  unfold Commit. destruct fault as [[e|e]|]; [done| |].
  { by destruct (apply_txn _ _) as [[r b'] evs]. }
  unfold apply_txn. cbn [sus fas cmps default].
  destruct (_ || _); [done|].
  destruct (eval_cmps _ _) eqn:Hok; cbn [default].
  - destruct (apply_ops _ _ _) as [d evs]. cbn. intros _. exists g. done.
  - cbn. done.
Qed.

(** A guard whose compares fail: the call writes nothing and does not
    return nil; when the round trip is answered and the guard has added
    nothing but its compares, the call reports lost leadership. *)
Lemma commit_guarded_compare_fails what fault guard ops b g :
  guard (EtcdTxn NewTxn) = Ok (EtcdTxn g) →
  eval_cmps (data b) (default [] (cmps g)) = false →
  let out := commit_guarded what fault guard ops b in
  ret out ≠ Return None ∧ backend out = b ∧ events out = []
  ∧ (fault = None → sus g = None → fas g = None → ops_conflict ops = false →
     ret out = Return (Some ErrLeadershipLost)).
Proof.
  intros Hg Hcmp. cbv zeta. unfold commit_guarded. rewrite Hg.
  destruct (Then g ops) as [t|] eqn:Ht.
  2: { split_and!; [done..|]. intros _ Hs Hf. unfold Then in Ht.
       by rewrite Hs, Hf in Ht. }
  apply Then_Some in Ht as (Hc & Hs & Hf).
  destruct (apply_txn_compare_fails b t Hf) as (Hb & Hev & Hr).
  { by rewrite Hc. }
  rewrite Hs in Hr. cbn [default] in Hr.
  destruct (Commit_cases fault b t)
    as [[-> Hcm]|[(e & -> & Hcm)|(e & -> & Hcm)]]; rewrite Hcm.
  - destruct (apply_txn b t) as [[r b'] evs]. cbn in *. subst.
    destruct (ops_conflict ops); cbn; [done|].
    split_and!; [done..|]. by intros _ _ _ _.
  - cbn. done.
  - cbn. rewrite Hb, Hev. done.
Qed.

(** The operations of the two guarded writes pass the request check. *)
Lemma ops_conflict_puts (kvs : list (string * string)) :
  NoDup kvs.*1 → ops_conflict (put_of <$> kvs) = false.
Proof.
  intros Hnd. unfold ops_conflict.
  assert (put_keys (put_of <$> kvs) = kvs.*1) as ->.
  { unfold put_keys. induction kvs as [|[k v] kvs IH]; [done|].
    rewrite !fmap_cons. cbn. f_equal. apply IH. by apply NoDup_cons in Hnd as [_ ?]. }
  rewrite bool_decide_eq_true_2 by done. cbn.
  generalize (kvs.*1). intros keys. clear Hnd.
  by induction kvs as [|[k v] rest IH].
Qed.

Lemma ops_conflict_deletes (prefixes : list string) :
  ops_conflict ((λ p, OpDelete p true) <$> prefixes) = false.
Proof.
  unfold ops_conflict.
  assert (put_keys ((λ p, OpDelete p true) <$> prefixes) = []) as ->.
  { unfold put_keys. by induction prefixes as [|p ps IH]. }
  rewrite bool_decide_eq_true_2 by constructor. cbn.
  by induction prefixes as [|p ps IH].
Qed.

(** [AssignShards_ops]: a put of the serialized assignment for each entry,
    on the assigned-shards key of its executor. *)
Lemma AssignShards_ops_spec
    (entries : list (string * AssignedState (ShardState := ShardState)
                                            (ShardAssignment := ShardAssignment)))
    acc ops :
  AssignShards_ops s namespace entries acc = Ok ops →
  ∃ kvs, ops = acc ++ (put_of <$> kvs)
    ∧ kvs.*1 = (λ p, buildExecutorKey s namespace p.1 assignedShardsKey) <$> entries
    ∧ ∀ id st, (id, st) ∈ entries →
        ∃ doc, Marshal (AssignedShards st) = Ok doc
               ∧ (buildExecutorKey s namespace id assignedShardsKey, doc) ∈ kvs.
Proof.
  revert acc. induction entries as [|[id st] rest IH]; intros acc; simpl.
  - intros [= <-]. exists []. simpl. rewrite app_nil_r. set_solver.
  - destruct (Marshal (AssignedShards st)) as [doc|] eqn:Hm; [|done].
    intros (kvs & -> & Hkeys & Hin)%IH.
    exists ((buildExecutorKey s namespace id assignedShardsKey, doc) :: kvs).
    split_and!.
    + by rewrite <- app_assoc.
    + rewrite !fmap_cons. by rewrite Hkeys.
    + intros id' st' [[= -> ->]|Hin']%elem_of_cons.
      * exists doc. split; [done|]. by left.
      * destruct (Hin id' st' Hin') as (doc' & ? & ?). exists doc'.
        split; [done|]. by right.
Qed.

(** Different executors have different keys of one slash-free type. *)
Lemma buildExecutorKey_inj_id keyType :
  slash_free keyType →
  Inj (=) (=) (λ executorID, buildExecutorKey s namespace executorID keyType).
Proof.
  intros Hkt id1 id2. rewrite !buildExecutorKey_prefix.
  intros H%(inj (String.app _)). by apply app_sep_inj_r in H as [? _].
Qed.

(** The effect of an [AssignShards] that returns nil. *)
Lemma AssignShards_success fault
    (newState : gmap string (AssignedState (ShardState := ShardState)
                                           (ShardAssignment := ShardAssignment)))
    guard b :
  ret (AssignShards s fault namespace newState guard b) = Return None →
  (∀ id st, newState !! id = Some st →
     ∃ doc, Marshal (AssignedShards st) = Ok doc
       ∧ value <$> (data (backend (AssignShards s fault namespace newState guard b))
                      !! buildExecutorKey s namespace id assignedShardsKey)
         = Some doc)
  ∧ (∀ key, (∀ id, id ∈ dom newState →
                   key ≠ buildExecutorKey s namespace id assignedShardsKey) →
       data (backend (AssignShards s fault namespace newState guard b)) !! key
       = data b !! key)
  ∧ (∀ ev, ev ∈ events (AssignShards s fault namespace newState guard b) →
       Type_ ev = PUT
       ∧ ∃ id, id ∈ dom newState
           ∧ Key (Kv ev) = buildExecutorKey s namespace id assignedShardsKey)
  ∧ (newState ≠ ∅ →
       revision (backend (AssignShards s fault namespace newState guard b))
       = revision b + 1).
Proof.
  unfold AssignShards.
  destruct (AssignShards_ops _ _ _ _) as [ops|] eqn:Hops; [|done].
  apply AssignShards_ops_spec in Hops as (kvs & -> & Hkeys & Hdocs).
  rewrite app_nil_l.
  assert (NoDup kvs.*1) as Hnd.
  { rewrite Hkeys.
    rewrite (list_fmap_ext _
               ((λ id, buildExecutorKey s namespace id assignedShardsKey) ∘ fst)
               (map_to_list newState)) by done.
    rewrite list_fmap_compose.
    pose proof (buildExecutorKey_inj_id assignedShardsKey eq_refl).
    apply (NoDup_fmap_2 _), NoDup_fst_map_to_list. }
  assert (∀ key, key ∈ kvs.*1 ↔
            ∃ id, id ∈ dom newState
              ∧ key = buildExecutorKey s namespace id assignedShardsKey) as Hkey.
  { intros key. rewrite Hkeys, list_elem_of_fmap. split.
    - intros ([id st] & -> & Hin). apply elem_of_map_to_list in Hin.
      exists id. split; [|done]. apply elem_of_dom. eauto.
    - intros (id & [st Hst]%elem_of_dom & ->). exists (id, st).
      split; [done|]. by apply elem_of_map_to_list. }
  case_bool_decide as Hlen.
  - apply length_zero_iff_nil, fmap_nil_inv in Hlen. subst kvs. intros _.
    simpl. split_and!; [|done|set_solver|].
    + intros id st Hst. apply elem_of_map_to_list in Hst.
      destruct (Hdocs id st Hst) as (doc & _ & Hin). set_solver.
    + intros Hne. destruct Hne. apply map_to_list_empty_iff.
      symmetry in Hkeys. by apply fmap_nil_inv in Hkeys.
  - intros Hok. apply commit_guarded_success in Hok
      as (g & _ & _ & _ & -> & -> & ->).
    destruct (apply_ops_puts (revision b + 1) (data b) kvs Hnd)
      as (Hin & Hout & Hev & Hsome).
    split_and!.
    4: { intros _. destruct (apply_ops _ _ _).2 eqn:E; [|done].
         destruct Hsome; [|done]. intros ->. done. }
    + intros id st Hst. apply elem_of_map_to_list in Hst.
      destruct (Hdocs id st Hst) as (doc & Hdoc & Hkv). exists doc.
      split; [done|]. by apply Hin.
    + intros key Hkey'. apply Hout. intros (id & Hid & ->)%Hkey.
      by apply (Hkey' id).
    + intros ev Hin'. destruct (Hev ev Hin') as [Hput Hk].
      split; [done|]. by apply Hkey.
Qed.

End WriteEffects.

Section OutcomeFacts.
Context {ShardState ShardAssignment : Type}.
Context `{!JSON ShardState, !JSON ShardAssignment}.
Variable s : Store.
Variable namespace : string.

Import Etcd EtcdFacts EtcdWriteFacts.

(** What [AssignShards] leaves behind, whatever becomes of the round trip
    of its commit: it returns nil; or it does not and nothing was written;
    or the answer was lost, it returns that error, and the server has done
    what it does for a call that returns nil. *)
Lemma AssignShards_outcome fault
    (newState : gmap string (AssignedState (ShardState := ShardState)
                                           (ShardAssignment := ShardAssignment)))
    guard b :
  let out := AssignShards s fault namespace newState guard b in
  let answered := AssignShards s None namespace newState guard b in
  ret out = Return None
  ∨ (ret out ≠ Return None ∧ backend out = b ∧ events out = [])
  ∨ (∃ e, fault = Some (ResponseLost e)
       ∧ ret out = Return (Some (Wrapf "commit shard assignments" e))
       ∧ ret answered = Return None
       ∧ backend out = backend answered ∧ events out = events answered).
Proof.
  cbv zeta. unfold AssignShards.
  destruct (AssignShards_ops _ _ _ _) as [ops|]; [|by right; left].
  case_bool_decide; [by left|]. apply commit_guarded_outcome.
Qed.

(** The same for [DeleteExecutors]. *)
Lemma DeleteExecutors_outcome fault executorIDs guard b :
  let out := DeleteExecutors s fault namespace executorIDs guard b in
  let answered := DeleteExecutors s None namespace executorIDs guard b in
  ret out = Return None
  ∨ (ret out ≠ Return None ∧ backend out = b ∧ events out = [])
  ∨ (∃ e, fault = Some (ResponseLost e)
       ∧ ret out = Return (Some (Wrapf "commit executor deletion" e))
       ∧ ret answered = Return None
       ∧ backend out = backend answered ∧ events out = events answered).
Proof.
  cbv zeta. unfold DeleteExecutors. case_bool_decide; [by left|].
  apply commit_guarded_outcome.
Qed.

(** The operations of [AssignShards] pass the request check: no two
    executors share a key. *)
Lemma AssignShards_ops_conflict
    (newState : gmap string (AssignedState (ShardState := ShardState)
                                           (ShardAssignment := ShardAssignment)))
    ops :
  AssignShards_ops s namespace (map_to_list newState) [] = Ok ops →
  ops_conflict ops = false.
Proof.
  intros (kvs & -> & Hkeys & _)%AssignShards_ops_spec. rewrite app_nil_l.
  apply ops_conflict_puts. rewrite Hkeys.
  rewrite (list_fmap_ext _
             ((λ id, buildExecutorKey s namespace id assignedShardsKey) ∘ fst)
             (map_to_list newState)) by done.
  rewrite list_fmap_compose.
  pose proof (buildExecutorKey_inj_id s namespace assignedShardsKey eq_refl).
  apply (NoDup_fmap_2 _), NoDup_fst_map_to_list.
Qed.

(** A guard whose compares fail in the keyspace: [AssignShards] with
    something to assign writes nothing and does not return nil; when every
    assignment serializes, the round trip is answered and the guard has
    added nothing but its compares, it reports lost leadership. *)
Lemma AssignShards_compare_fails fault
    (newState : gmap string (AssignedState (ShardState := ShardState)
                                           (ShardAssignment := ShardAssignment)))
    guard b g :
  guard (EtcdTxn NewTxn) = Ok (EtcdTxn g) →
  eval_cmps (data b) (default [] (cmps g)) = false →
  newState ≠ ∅ →
  let out := AssignShards s fault namespace newState guard b in
  ret out ≠ Return None ∧ backend out = b ∧ events out = []
  ∧ (fault = None → sus g = None → fas g = None →
     (∀ id st, newState !! id = Some st →
        ∃ doc, Marshal (AssignedShards st) = Ok doc) →
     ret out = Return (Some ErrLeadershipLost)).
Proof.
  intros Hg Hcmp Hne. cbv zeta. unfold AssignShards.
  destruct (AssignShards_ops s namespace (map_to_list newState) [])
    as [ops|err] eqn:Hops.
  - pose proof (AssignShards_ops_conflict newState ops Hops) as Hno.
    pose proof (AssignShards_ops_length s namespace _ _ _ Hops) as Hlen.
    rewrite length_map_to_list in Hlen. simpl in Hlen.
    case_bool_decide as Hz.
    { destruct Hne. apply map_size_empty_iff. lia. }
    destruct (commit_guarded_compare_fails "commit shard assignments" fault guard
                ops b g Hg Hcmp) as (Hr & Hb & Hev & Herr).
    split_and!; [done..|]. intros Hf Hs Hfa _. by apply Herr.
  - split_and!; [done..|]. intros _ _ _ Hdocs. exfalso.
    clear Hne. revert Hops. generalize (@nil Op).
    assert (∀ id st, (id, st) ∈ map_to_list newState →
              ∃ doc, Marshal (AssignedShards st) = Ok doc) as Hall.
    { intros id st Hin. apply (Hdocs id st). by apply elem_of_map_to_list. }
    induction (map_to_list newState) as [|[id st] rest IH]; intros acc; simpl;
      [done|].
    destruct (Hall id st ltac:(by left)) as [doc ->].
    apply IH. intros id' st' Hin. apply (Hall id' st'). by right.
Qed.

(** The same for [DeleteExecutors] with something to delete. *)
Lemma DeleteExecutors_compare_fails fault executorIDs guard b g :
  guard (EtcdTxn NewTxn) = Ok (EtcdTxn g) →
  eval_cmps (data b) (default [] (cmps g)) = false →
  executorIDs ≠ [] →
  let out := DeleteExecutors s fault namespace executorIDs guard b in
  ret out ≠ Return None ∧ backend out = b ∧ events out = []
  ∧ (fault = None → sus g = None → fas g = None →
     ret out = Return (Some ErrLeadershipLost)).
Proof.
  intros Hg Hcmp Hne. cbv zeta. unfold DeleteExecutors.
  case_bool_decide as Hz. { by apply length_zero_iff_nil in Hz. }
  destruct (commit_guarded_compare_fails "commit executor deletion" fault guard
              ((λ executorID,
                  OpDelete (buildExecutorPrefix s namespace +:+ executorID +:+ "/")
                    true) <$> executorIDs) b g Hg Hcmp)
    as (Hr & Hb & Hev & Herr).
  split_and!; [done..|]. intros Hf Hs Hfa. apply Herr; [done..|].
  rewrite (list_fmap_compose
             (λ executorID, buildExecutorPrefix s namespace +:+ executorID +:+ "/")
             (λ p, OpDelete p true)).
  apply ops_conflict_deletes.
Qed.

(** The events of [AssignShards], whatever it returns: puts on
    assigned-shards keys of the namespace. *)
Lemma AssignShards_events fault
    (newState : gmap string (AssignedState (ShardState := ShardState)
                                           (ShardAssignment := ShardAssignment)))
    guard b ev :
  ev ∈ events (AssignShards s fault namespace newState guard b) →
  Type_ ev = PUT
  ∧ ∃ id, Key (Kv ev) = buildExecutorKey s namespace id assignedShardsKey.
Proof.
  destruct (AssignShards_outcome fault newState guard b)
    as [Hok|[(_ & _ & ->)|(e & _ & _ & Hok & _ & ->)]].
  - destruct (AssignShards_success s namespace fault newState guard b Hok)
      as (_ & _ & Hev & _).
    intros (? & id & _ & ?)%Hev. eauto.
  - set_solver.
  - destruct (AssignShards_success s namespace None newState guard b Hok)
      as (_ & _ & Hev & _).
    intros (? & id & _ & ?)%Hev. eauto.
Qed.

(** A key that parses in some namespace into the key type it was built
    with in another. *)
Lemma parse_keyType ns ns' executorID keyType r :
  slash_free keyType →
  parseExecutorKey s ns' (buildExecutorKey s ns executorID keyType) = Ok r →
  r.2 = keyType.
Proof.
  destruct r as [id kt]. intros Hkt (Hkey & _ & Hkt')%parse_inv. simpl.
  rewrite !buildExecutorKey_snoc in Hkey.
  by apply app_sep_inj_r in Hkey as [_ ?].
Qed.

End OutcomeFacts.

(** X4. What [GetHeartbeat] returns when the read is answered is one of
    three things. If no stored key under the executor's prefix parses, it
    is [ErrExecutorNotFound]. If the reported-shards key holds something
    that is not JSON for a shard map, it is that error, wrapped. In any
    other case it is the executor's state read key by key: the timestamp as
    [ParseInt] gives it, the state as stored, the reported shards decoded,
    and the zero value for each key that is absent. *)
Theorem GetHeartbeat_outcomes {ShardState : Type} `{!JSON ShardState}
    (s : Store) (namespace executorID : string) (b : Etcd.Backend) :
  (¬ has_valid_key s namespace executorID b
   ∧ GetHeartbeat (ShardState := ShardState) s None namespace executorID b
     = Err ErrExecutorNotFound)
  ∨ (∃ r je,
       Etcd.data b !! buildExecutorKey s namespace executorID reportedShardsKey
         = Some r
       ∧ Unmarshal (V := ShardState) (Etcd.value r) = Err je
       ∧ slash_free executorID
       ∧ GetHeartbeat (ShardState := ShardState) s None namespace executorID b
         = Err (Wrapf "unmarshal reported shards" je))
  ∨ (has_valid_key s namespace executorID b
     ∧ (∀ r, Etcd.data b !! buildExecutorKey s namespace executorID reportedShardsKey
               = Some r → ∃ m, Unmarshal (V := ShardState) (Etcd.value r) = Ok m)
     ∧ GetHeartbeat s None namespace executorID b
       = Ok (stored_heartbeat s namespace executorID (Etcd.data b))).
Proof. apply GetHeartbeat_cases. Qed.

(** X5. [GetHeartbeat] depends on nothing but the values stored under the
    keys of its executor: two keyspaces that agree on them give the same
    answer, whatever else they hold and whatever their revisions are. *)
Theorem GetHeartbeat_reads_own_keys {ShardState : Type} `{!JSON ShardState}
    (s : Store) (fault : option error) (namespace executorID : string)
    (b1 b2 : Etcd.Backend) :
  (∀ keyType, slash_free keyType →
     Etcd.value <$> (Etcd.data b1 !! buildExecutorKey s namespace executorID keyType)
     = Etcd.value <$> (Etcd.data b2 !! buildExecutorKey s namespace executorID keyType)) →
  GetHeartbeat (ShardState := ShardState) s fault namespace executorID b1
  = GetHeartbeat s fault namespace executorID b2.
Proof. apply GetHeartbeat_ext. Qed.

Lemma GetHeartbeat_reads_own_keys_witness :
  GetHeartbeat (ShardState := string) Examples.store0 None "ns" "executor-1"
    MoreExamples.led_backend
  = GetHeartbeat Examples.store0 None "ns" "executor-1"
      Examples.after_first_heartbeat.
Proof.
  apply GetHeartbeat_reads_own_keys. intros keyType Hkt. f_equal.
Defined.

(** X7. A heartbeat of one executor, whose ID contains no slash, does not
    change what [GetHeartbeat] returns for any other executor, in the same
    namespace or in another one. *)
Theorem RecordHeartbeat_frame {ShardState : Type} `{!JSON ShardState}
    (s : Store) (now : Z) (fault : option Etcd.Fault) (fault' : option error)
    (ns1 ns2 e2 : string)
    (req : HeartbeatState (ShardState := ShardState)) (b : Etcd.Backend) :
  slash_free (hb_ExecutorID req) →
  (ns1, hb_ExecutorID req) ≠ (ns2, e2) →
  GetHeartbeat (ShardState := ShardState) s fault' ns2 e2
    (backend (RecordHeartbeat s now fault ns1 req b))
  = GetHeartbeat s fault' ns2 e2 b.
Proof.
  intros He1 Hne. destruct (decide (slash_free e2)) as [He2|He2].
  - apply GetHeartbeat_ext. intros keyType Hkt. f_equal.
    apply RecordHeartbeat_other_keys. intros Hin.
    assert (∃ kt1, slash_free kt1
              ∧ buildExecutorKey s ns2 e2 keyType
                = buildExecutorKey s ns1 (hb_ExecutorID req) kt1)
      as (kt1 & Hkt1 & Heq).
    { rewrite !elem_of_cons in Hin. destruct Hin as [H|[H|[H|H]]];
        [by exists heartbeatKey|by exists stateKey|by exists reportedShardsKey|].
      by apply elem_of_nil in H. }
    apply buildExecutorKey_inj_all in Heq as (-> & -> & _); done.
  - destruct fault' as [err|]; [done|].
    assert (∀ b', GetHeartbeat (ShardState := ShardState) s None ns2 e2 b'
                  = Err ErrExecutorNotFound) as Hnf.
    { intros b'. apply GetHeartbeat_NotFound_iff.
      by intros [? _]%has_valid_key_build. }
    by rewrite !Hnf.
Qed.

Lemma RecordHeartbeat_frame_witness :
  GetHeartbeat (ShardState := string) Examples.store0 None "ns" "executor-1"
    (backend (RecordHeartbeat Examples.store0 1700000009 None "ns"
                MoreExamples.heartbeat2 Examples.after_first_heartbeat))
  = GetHeartbeat Examples.store0 None "ns" "executor-1"
      Examples.after_first_heartbeat.
Proof.
  apply (RecordHeartbeat_frame Examples.store0 1700000009 None None "ns" "ns"
           "executor-1" MoreExamples.heartbeat2 Examples.after_first_heartbeat).
  - reflexivity.
  - intros [=].
Defined.

(** X10. An [AssignShards] that returns nil has stored, for every executor
    of the new state, the JSON of its assigned shards under the executor's
    assigned-shards key; it has changed no other key; and, unless the new
    state is empty, the revision has moved by exactly one. *)
Theorem AssignShards_effect {ShardState ShardAssignment : Type}
    `{!JSON ShardState, !JSON ShardAssignment}
    (s : Store) (fault : option Etcd.Fault) (namespace : string)
    (newState : gmap string (AssignedState (ShardState := ShardState)
                                           (ShardAssignment := ShardAssignment)))
    (guard : GuardFunc) (b : Etcd.Backend) :
  let out := AssignShards s fault namespace newState guard b in
  ret out = Return None →
  (∀ id st, newState !! id = Some st →
     ∃ doc, Marshal (AssignedShards st) = Ok doc
       ∧ Etcd.value <$>
           (Etcd.data (backend out)
              !! buildExecutorKey s namespace id assignedShardsKey)
         = Some doc)
  ∧ (∀ key, (∀ id, id ∈ dom newState →
                   key ≠ buildExecutorKey s namespace id assignedShardsKey) →
       Etcd.data (backend out) !! key = Etcd.data b !! key)
  ∧ (newState ≠ ∅ → Etcd.revision (backend out) = Etcd.revision b + 1).
Proof.
  cbv zeta. intros Hok.
  destruct (AssignShards_success s namespace fault newState guard b Hok)
    as (Hin & Hout & _ & Hrev).
  done.
Qed.

Lemma AssignShards_effect_witness :
  (∀ id st, MoreExamples.assignment2 !! id = Some st →
     ∃ doc, Marshal (AssignedShards st) = Ok doc
       ∧ Etcd.value <$>
           (Etcd.data (backend MoreExamples.assigned)
              !! buildExecutorKey Examples.store0 "ns" id assignedShardsKey)
         = Some doc)
  ∧ (∀ key, (∀ id, id ∈ dom MoreExamples.assignment2 →
                   key ≠ buildExecutorKey Examples.store0 "ns" id assignedShardsKey) →
       Etcd.data (backend MoreExamples.assigned) !! key
       = Etcd.data MoreExamples.led_backend !! key)
  ∧ (MoreExamples.assignment2 ≠ ∅ →
     Etcd.revision (backend MoreExamples.assigned)
     = Etcd.revision MoreExamples.led_backend + 1).
Proof.
  apply (AssignShards_effect Examples.store0 None "ns" MoreExamples.assignment2
           MoreExamples.live_guard MoreExamples.led_backend).
  vm_compute. reflexivity.
Defined.

(** X11. No watch response that [AssignShards] causes is significant for
    [Subscribe], in any namespace: its events are puts on assigned-shards
    keys, which the filter passes over. *)
Theorem AssignShards_not_significant {ShardState ShardAssignment : Type}
    `{!JSON ShardState, !JSON ShardAssignment}
    (s : Store) (fault : option Etcd.Fault) (namespace watched : string)
    (newState : gmap string (AssignedState (ShardState := ShardState)
                                           (ShardAssignment := ShardAssignment)))
    (guard : GuardFunc) (b : Etcd.Backend) :
  isSignificantChange s watched
    (events (AssignShards s fault namespace newState guard b)) = false.
Proof.
  apply heartbeat_only_not_significant. intros ev Hin.
  destruct (AssignShards_events s namespace fault newState guard b ev Hin)
    as [Hput [id Hkey]].
  split; [done|]. unfold keyType_of. rewrite Hkey.
  destruct (parseExecutorKey _ _ _) as [[id' kt]|] eqn:Hp; [|by right; right].
  right; left. f_equal.
  by apply (parse_keyType s namespace watched id assignedShardsKey (id', kt)).
Qed.

(** X12. An executor that has no key of its own becomes visible by being
    assigned shards: after an [AssignShards] that returned nil,
    [GetHeartbeat] for an executor of the new state (with an ID that fits
    the key layout) no longer returns [ErrExecutorNotFound] but a state
    with the zero time, the empty state and no reported shards. *)
Theorem AssignShards_makes_found {ShardState ShardAssignment : Type}
    `{!JSON ShardState, !JSON ShardAssignment}
    (s : Store) (fault : option Etcd.Fault)
    (namespace executorID : string)
    (newState : gmap string (AssignedState (ShardState := ShardState)
                                           (ShardAssignment := ShardAssignment)))
    (guard : GuardFunc) (b : Etcd.Backend) :
  ret (AssignShards s fault namespace newState guard b) = Return None →
  executorID ∈ dom newState →
  slash_free executorID →
  ¬ has_valid_key s namespace executorID b →
  GetHeartbeat (ShardState := ShardState) s None namespace executorID
    (backend (AssignShards s fault namespace newState guard b))
  = Ok {| hb_ExecutorID := executorID; LastHeartbeat := 0; State := "";
          hb_ReportedShards := None |}.
Proof.
  intros Hok [st Hst]%elem_of_dom Hid Hnone.
  destruct (AssignShards_success s namespace fault newState guard b Hok)
    as (Hin & Hout & _ & _).
  destruct (Hin executorID st Hst) as (doc & _ & Hdoc).
  assert (∀ keyType, slash_free keyType → keyType ≠ assignedShardsKey →
            Etcd.data (backend (AssignShards s fault namespace newState guard b))
              !! buildExecutorKey s namespace executorID keyType = None) as Habsent.
  { intros keyType Hkt Hne. rewrite Hout.
    - destruct (Etcd.data b !! _) as [entry|] eqn:Hl; [|done].
      destruct Hnone. apply has_valid_key_build. split; [done|].
      exists keyType. split; [done|]. by rewrite Hl.
    - intros id _ Heq. rewrite !buildExecutorKey_snoc in Heq.
      by apply app_sep_inj_r in Heq as [_ ?]. }
  destruct (GetHeartbeat_cases (ShardState := ShardState) s namespace executorID
              (backend (AssignShards s fault namespace newState guard b)))
    as [[Hno _]|[(r & je & Hr & _)|(_ & _ & ->)]].
  - destruct Hno. apply has_valid_key_build. split; [done|].
    exists assignedShardsKey. split; [done|].
    destruct (Etcd.data _ !! _); [by eexists|done].
  - by rewrite Habsent in Hr.
  - unfold stored_heartbeat. by rewrite !Habsent.
Qed.

Lemma AssignShards_makes_found_witness :
  GetHeartbeat (ShardState := string) Examples.store0 None "ns" "executor-2"
    (backend MoreExamples.assigned)
  = Ok {| hb_ExecutorID := "executor-2"; LastHeartbeat := 0; State := "";
          hb_ReportedShards := None |}.
Proof.
  apply (AssignShards_makes_found Examples.store0 None "ns" "executor-2"
           MoreExamples.assignment2 MoreExamples.live_guard
           MoreExamples.led_backend).
  - vm_compute. reflexivity.
  - apply elem_of_dom. eexists. reflexivity.
  - reflexivity.
  - intros (_ & keyType & Hkt & Hl)%has_valid_key_build. revert Hl.
    unfold MoreExamples.led_backend. cbn [Etcd.data].
    rewrite lookup_insert_ne.
    2: { intros H. vm_compute in H. discriminate H. }
    unfold Examples.after_first_heartbeat. rewrite RecordHeartbeat_other_keys.
    { by intros [e He]. }
    rewrite !elem_of_cons. intros [H|[H|[H|H]]];
      [apply buildExecutorKey_inj_all in H as (_ & [=] & _); done..|].
    by apply elem_of_nil in H.
Defined.

(** ** What DeleteExecutors deletes *)

Section DeleteFacts.
Context {ShardState : Type} `{!JSON ShardState}.
Variable s : Store.
Variable namespace : string.

Import Etcd EtcdFacts EtcdWriteFacts GoStrings GoStringsFacts.

Lemma executor_delete_prefix_key executorID :
  executor_delete_prefix s namespace executorID
  = buildExecutorKey s namespace executorID "".
Proof. unfold executor_delete_prefix, buildExecutorKey. done. Qed.

(** A key of an executor, of a slash-free type, is under the deleted prefix
    of no other executor of the namespace. *)
Lemma executor_delete_prefix_own executorID e2 keyType :
  slash_free e2 → slash_free keyType →
  HasPrefix (buildExecutorKey s namespace e2 keyType)
            (executor_delete_prefix s namespace executorID) = true →
  executorID = e2.
Proof.
  intros He2 Hkt [r Hr]%HasPrefix_true. unfold executor_delete_prefix in Hr.
  rewrite buildExecutorKey_prefix in Hr. rewrite !app_assoc in Hr.
  apply (inj (String.app _)) in Hr. rewrite app_cons, app_nil_l in Hr.
  symmetry in Hr. by apply app_sep_inj in Hr as [? _].
Qed.

(** The effect of a [DeleteExecutors] that returns nil. *)
Lemma DeleteExecutors_success fault executorIDs guard b :
  ret (DeleteExecutors s fault namespace executorIDs guard b) = Return None →
  let out := DeleteExecutors s fault namespace executorIDs guard b in
  (∀ k id, id ∈ executorIDs → HasPrefix k (executor_delete_prefix s namespace id) = true →
     data (backend out) !! k = None)
  ∧ (∀ k, (∀ id, id ∈ executorIDs →
                 HasPrefix k (executor_delete_prefix s namespace id) = false) →
       data (backend out) !! k = data b !! k)
  ∧ (∀ ev, ev ∈ events out → Type_ ev = DELETE)
  ∧ (∀ k id, id ∈ executorIDs → HasPrefix k (executor_delete_prefix s namespace id) = true →
       is_Some (data b !! k) → events out ≠ [])
  ∧ revision (backend out)
    = match events out with [] => revision b | _ => revision b + 1 end.
Proof.
  cbv zeta. unfold DeleteExecutors. case_bool_decide as Hlen.
  { apply length_zero_iff_nil in Hlen as ->. intros _. simpl.
    split_and!; [set_solver|done|set_solver|set_solver|done]. }
  intros Hok. apply commit_guarded_success in Hok
    as (g & _ & _ & _ & -> & -> & ->).
  pose proof (apply_ops_deletes (revision b + 1) (data b)
                (executor_delete_prefix s namespace <$> executorIDs)) as H.
  cbv zeta in H. rewrite <- list_fmap_compose in H.
  destruct H as (Hgone & Hstay & Hev & Hsome).
  split_and!; [| | | |done].
  - intros k id Hid Hp. apply Hgone. exists (executor_delete_prefix s namespace id).
    split; [|done]. apply list_elem_of_fmap. eauto.
  - intros k Hk. apply Hstay. intros p (id & -> & Hid)%list_elem_of_fmap.
    by apply Hk.
  - intros ev Hin. by destruct (Hev ev Hin).
  - intros k id Hid Hp Hk. apply (Hsome k (executor_delete_prefix s namespace id)); [done| |done].
    apply list_elem_of_fmap. eauto.
Qed.

(** The events of a [DeleteExecutors] that returns nil. *)
Lemma DeleteExecutors_nil_events fault watched executorIDs guard b :
  let out := DeleteExecutors s fault namespace executorIDs guard b in
  ret out = Return None →
  (events out = [] ∧ revision (backend out) = revision b)
  ∨ (isSignificantChange s watched (events out) = true
     ∧ revision (backend out) = revision b + 1
     ∧ ∀ ev, ev ∈ events out →
         Type_ ev = DELETE ∧ is_Some (data b !! Key (Kv ev))).
Proof.
  cbv zeta. unfold DeleteExecutors. case_bool_decide as Hlen; [by left|].
  intros Hok. apply commit_guarded_success in Hok
    as (g & _ & _ & _ & _ & -> & ->).
  pose proof (apply_ops_deletes (revision b + 1) (data b)
                ((λ executorID, buildExecutorPrefix s namespace +:+ executorID +:+ "/")
                   <$> executorIDs)) as H.
  cbv zeta in H. rewrite <- list_fmap_compose in H.
  destruct H as (_ & _ & Hev & _).
  destruct (apply_ops _ _ _).2 as [|ev evs] eqn:E; [by left|].
  right. split_and!; [|done|].
  - apply delete_is_significant. exists ev. split; [by left|].
    apply Hev. by left.
  - intros ev' Hin. by destruct (Hev ev' Hin) as (? & ? & _).
Qed.

End DeleteFacts.

(** X13. After a [DeleteExecutors] that returned nil, [GetHeartbeat]
    returns [ErrExecutorNotFound] for every executor of the list, and, for
    every executor of the namespace that is not in the list, what it
    returned before. *)
Theorem DeleteExecutors_effect {ShardState : Type} `{!JSON ShardState}
    (s : Store) (fault : option Etcd.Fault) (fault' : option error)
    (namespace : string)
    (executorIDs : list string) (guard : GuardFunc) (b : Etcd.Backend) :
  let out := DeleteExecutors s fault namespace executorIDs guard b in
  ret out = Return None →
  (∀ id, id ∈ executorIDs →
     GetHeartbeat (ShardState := ShardState) s None namespace id (backend out)
     = Err ErrExecutorNotFound)
  ∧ (∀ id, id ∉ executorIDs →
     GetHeartbeat (ShardState := ShardState) s fault' namespace id (backend out)
     = GetHeartbeat s fault' namespace id b).
Proof.
  cbv zeta. intros Hok.
  destruct (DeleteExecutors_success s namespace fault executorIDs guard b Hok)
    as (Hgone & Hstay & _).
  split.
  - intros id Hid. apply GetHeartbeat_NotFound_iff.
    intros (key & entry & r & Hl & Hp & _).
    rewrite <- executor_delete_prefix_key in Hp.
    by rewrite (Hgone key id Hid Hp) in Hl.
  - intros id Hid. destruct (decide (slash_free id)) as [Hfree|Hslash].
    + apply GetHeartbeat_ext. intros keyType Hkt. f_equal. apply Hstay.
      intros id' Hid'.
      destruct (GoStrings.HasPrefix _ _) eqn:Hp; [|done].
      apply executor_delete_prefix_own in Hp; [|done..]. by subst.
    + destruct fault' as [err|]; [done|].
      assert (∀ b', GetHeartbeat (ShardState := ShardState) s None namespace id b'
                    = Err ErrExecutorNotFound) as Hnf.
      { intros b'. apply GetHeartbeat_NotFound_iff.
        by intros [? _]%has_valid_key_build. }
      by rewrite !Hnf.
Qed.

Lemma DeleteExecutors_effect_witness :
  (∀ id, id ∈ ["executor-1"] →
     GetHeartbeat (ShardState := string) Examples.store0 None "ns" id
       (backend MoreExamples.deleted)
     = Err ErrExecutorNotFound)
  ∧ (∀ id, id ∉ ["executor-1"] →
     GetHeartbeat (ShardState := string) Examples.store0 None "ns" id
       (backend MoreExamples.deleted)
     = GetHeartbeat Examples.store0 None "ns" id (backend MoreExamples.assigned)).
Proof.
  apply (DeleteExecutors_effect Examples.store0 None None "ns" ["executor-1"]
           MoreExamples.live_guard (backend MoreExamples.assigned)).
  vm_compute. reflexivity.
Defined.

(** X14. A [DeleteExecutors] that returned nil and found a key of one of
    its executors stored has moved the revision by exactly one, and its
    watch response is significant for [Subscribe] in any namespace. *)
Theorem DeleteExecutors_significant
    (s : Store) (fault : option Etcd.Fault) (namespace watched : string)
    (executorIDs : list string) (guard : GuardFunc) (b : Etcd.Backend)
    (executorID keyType : string) :
  let out := DeleteExecutors s fault namespace executorIDs guard b in
  ret out = Return None →
  executorID ∈ executorIDs →
  is_Some (Etcd.data b !! buildExecutorKey s namespace executorID keyType) →
  isSignificantChange s watched (events out) = true
  ∧ Etcd.revision (backend out) = Etcd.revision b + 1.
Proof.
  cbv zeta. intros Hok Hid Hstored.
  destruct (DeleteExecutors_success s namespace fault executorIDs guard b Hok)
    as (_ & _ & Hdel & Hsome & Hrev).
  assert (events (DeleteExecutors s fault namespace executorIDs guard b) ≠ [])
    as Hne.
  { apply (Hsome (buildExecutorKey s namespace executorID keyType) executorID Hid);
      [|done].
    rewrite executor_delete_prefix_key. apply buildExecutorKey_under. }
  rewrite Hrev.
  destruct (events (DeleteExecutors s fault namespace executorIDs guard b))
    as [|ev evs] eqn:Hev; [done|].
  split; [|done]. apply delete_is_significant. exists ev.
  split; [by left|]. apply Hdel. by left.
Qed.

Lemma DeleteExecutors_significant_witness :
  isSignificantChange Examples.store0 "ns" (events MoreExamples.deleted) = true
  ∧ Etcd.revision (backend MoreExamples.deleted)
    = Etcd.revision (backend MoreExamples.assigned) + 1.
Proof.
  apply (DeleteExecutors_significant Examples.store0 None "ns" "ns"
           ["executor-1"] MoreExamples.live_guard (backend MoreExamples.assigned)
           "executor-1" stateKey).
  - vm_compute. reflexivity.
  - by left.
  - eexists. vm_compute. reflexivity.
Defined.

(** X15. A [DeleteExecutors] that finds nothing to delete publishes no
    event and leaves the revision where it was; any event it publishes is
    a delete, so that every watch response it causes is significant. *)
Theorem DeleteExecutors_events
    (s : Store) (fault : option Etcd.Fault) (namespace watched : string)
    (executorIDs : list string) (guard : GuardFunc) (b : Etcd.Backend) :
  let out := DeleteExecutors s fault namespace executorIDs guard b in
  (events out = [] ∧ Etcd.revision (backend out) = Etcd.revision b)
  ∨ (isSignificantChange s watched (events out) = true
     ∧ Etcd.revision (backend out) = Etcd.revision b + 1
     ∧ ∀ ev, ev ∈ events out →
         Etcd.Type_ ev = Etcd.DELETE
         ∧ is_Some (Etcd.data b !! Etcd.Key (Etcd.Kv ev))).
Proof.
  cbv zeta.
  destruct (DeleteExecutors_outcome s namespace fault executorIDs guard b)
    as [Hok|[(_ & -> & ->)|(e & _ & _ & Hok & -> & ->)]]; [|by left|];
    by apply DeleteExecutors_nil_events.
Qed.

(** ** GetState reads every executor's keys *)

Section GetStateReads.
Context {ShardState ShardAssignment : Type}.
Context `{!JSON ShardState, !JSON ShardAssignment}.
Variable s : Store.
Variable namespace : string.

Import Etcd EtcdFacts.

Implicit Types hs : gmap string (HeartbeatState (ShardState := ShardState)).
Implicit Types asg : gmap string (AssignedState (ShardState := ShardState)
                                    (ShardAssignment := ShardAssignment)).
Implicit Types M : gmap string string.

(** The states of an executor look at its own keys only. *)
Lemma state_heartbeat_ext M1 M2 executorID :
  (∀ keyType, slash_free keyType →
     M1 !! buildExecutorKey s namespace executorID keyType
     = M2 !! buildExecutorKey s namespace executorID keyType) →
  state_heartbeat (ShardState := ShardState) s namespace executorID M1
  = state_heartbeat s namespace executorID M2.
Proof.
  intros H. unfold state_heartbeat.
  by rewrite (H heartbeatKey eq_refl), (H stateKey eq_refl).
Qed.

Lemma state_assigned_ext M1 M2 executorID :
  (∀ keyType, slash_free keyType →
     M1 !! buildExecutorKey s namespace executorID keyType
     = M2 !! buildExecutorKey s namespace executorID keyType) →
  state_assigned (ShardState := ShardState) (ShardAssignment := ShardAssignment)
    s namespace executorID M1
  = state_assigned s namespace executorID M2.
Proof.
  intros H. unfold state_assigned.
  by rewrite (H reportedShardsKey eq_refl), (H assignedShardsKey eq_refl).
Qed.

Lemma GetState_reads_ext M1 M2 hs asg :
  (∀ executorID keyType, slash_free executorID → slash_free keyType →
     M1 !! buildExecutorKey s namespace executorID keyType
     = M2 !! buildExecutorKey s namespace executorID keyType) →
  GetState_reads s namespace M1 hs asg → GetState_reads s namespace M2 hs asg.
Proof.
  intros H Hinv e. destruct (Hinv e) as [(Hh & Ha & Hno)|(He & (kt & Hkt & Hs) & Hh & Ha)].
  - left. split_and!; [done..|]. intros He kt Hkt. rewrite <- H by done. by apply Hno.
  - right. split_and!; [done| | |].
    + exists kt. split; [done|]. by rewrite <- H.
    + rewrite Hh. f_equal. apply state_heartbeat_ext. intros; by apply H.
    + rewrite Ha. f_equal. apply state_assigned_ext. intros; by apply H.
Qed.

(** A key that does not parse is the key of no executor. *)
Lemma GetState_reads_skip M hs asg k v err :
  parseExecutorKey s namespace k = Err err →
  GetState_reads s namespace M hs asg →
  GetState_reads s namespace (<[k := v]> M) hs asg.
Proof.
  intros Hp. apply GetState_reads_ext. intros e kt He Hkt.
  rewrite lookup_insert_ne; [done|]. intros ->.
  by rewrite parse_build in Hp.
Qed.

(** The entries of an executor before one of its keys is read. *)
Lemma GetState_reads_default M hs asg executorID :
  slash_free executorID →
  GetState_reads s namespace M hs asg →
  default {| hb_ExecutorID := executorID; LastHeartbeat := 0; State := "";
             hb_ReportedShards := None |} (hs !! executorID)
  = state_heartbeat s namespace executorID M
  ∧ default {| as_ExecutorID := executorID; as_ReportedShards := Some ∅;
               AssignedShards := Some ∅ |} (asg !! executorID)
    = state_assigned s namespace executorID M.
Proof.
  intros He Hinv. destruct (Hinv executorID) as [(-> & -> & Hno)|(_ & _ & -> & ->)];
    [|done].
  unfold state_heartbeat, state_assigned. by rewrite !Hno.
Qed.

(** A round of the loop on a key of executor [e0] that leaves the entries
    of [e0] as the values with the key say. *)
Lemma GetState_reads_insert M hs asg k v e0 kt0 :
  parseExecutorKey s namespace k = Ok (e0, kt0) →
  GetState_reads s namespace M hs asg →
  GetState_reads s namespace (<[k := v]> M)
    (<[e0 := state_heartbeat s namespace e0 (<[k := v]> M)]> hs)
    (<[e0 := state_assigned s namespace e0 (<[k := v]> M)]> asg).
Proof.
  intros (-> & He0 & Hkt0)%parse_inv Hinv e.
  destruct (decide (e = e0)) as [->|Hne].
  { right. split_and!; [done| |by rewrite lookup_insert_eq..].
    exists kt0. split; [done|]. by rewrite lookup_insert_eq. }
  assert (∀ kt, slash_free e → slash_free kt →
            <[buildExecutorKey s namespace e0 kt0 := v]> M
              !! buildExecutorKey s namespace e kt
            = M !! buildExecutorKey s namespace e kt) as Hsame.
  { intros kt He Hkt. apply lookup_insert_ne.
    intros Heq. by apply buildExecutorKey_inj_all in Heq as (_ & ? & _). }
  rewrite !lookup_insert_ne by done.
  destruct (Hinv e) as [(Hh & Ha & Hno)|(He & (kt & Hkt & Hs) & Hh & Ha)].
  - left. split_and!; [done..|]. intros He kt Hkt. rewrite Hsame by done.
    by apply Hno.
  - right. split_and!; [done| | |].
    + exists kt. split; [done|]. by rewrite Hsame.
    + rewrite Hh. f_equal. apply state_heartbeat_ext. intros. by rewrite Hsame.
    + rewrite Ha. f_equal. apply state_assigned_ext. intros. by rewrite Hsame.
Qed.

(** The loop of [GetState], over keys read once each: its maps go on
    holding what the values read so far say. *)
Lemma GetState_loop_reads kvs M hs asg hs' asg' :
  NoDup (Key <$> kvs) →
  (∀ kv, kv ∈ kvs → M !! Key kv = None) →
  GetState_reads s namespace M hs asg →
  GetState_loop s namespace kvs hs asg = Ok (hs', asg') →
  GetState_reads s namespace (docs_of kvs ∪ M) hs' asg'.
Proof.
  revert M hs asg. induction kvs as [|kv rest IH]; intros M hs asg Hnd Hfresh Hinv.
  { simpl. intros [= <- <-]. unfold docs_of. simpl. by rewrite (left_id_L ∅ (∪)). }
  rewrite fmap_cons in Hnd. apply NoDup_cons in Hnd as [Hkv Hnd].
  assert (docs_of (kv :: rest) ∪ M = docs_of rest ∪ <[Key kv := Value kv]> M) as ->.
  { unfold docs_of. rewrite fmap_cons. cbn [list_to_map foldr].
    rewrite <- insert_union_l. rewrite insert_union_r; [done|].
    apply not_elem_of_list_to_map_1. by rewrite <- list_fmap_compose. }
  assert (∀ kv', kv' ∈ rest → <[Key kv := Value kv]> M !! Key kv' = None) as Hfresh'.
  { intros kv' Hin. rewrite lookup_insert_ne.
    - apply Hfresh. by right.
    - intros Heq. apply Hkv. rewrite Heq. by apply list_elem_of_fmap_2. }
  pose proof (Hfresh kv ltac:(by left)) as Hnew.
  simpl. destruct (parseExecutorKey s namespace (Key kv)) as [[e0 kt0]|err] eqn:Hp.
  2: { apply IH; [done|done|]. by eapply GetState_reads_skip. }
  pose proof (parse_inv _ _ _ _ _ Hp) as (Hk & He0 & Hkt0).
  destruct (GetState_reads_default M hs asg e0 He0 Hinv) as [-> ->].
  pose proof (GetState_reads_insert M hs asg (Key kv) (Value kv) e0 kt0 Hp Hinv)
    as Hstep.
  assert (∀ kt, kt ≠ kt0 →
            <[Key kv := Value kv]> M !! buildExecutorKey s namespace e0 kt
            = M !! buildExecutorKey s namespace e0 kt) as Hother.
  { intros kt Hne. apply lookup_insert_ne. rewrite Hk.
    intros Heq%buildExecutorKey_inj. done. }
  assert (<[Key kv := Value kv]> M !! buildExecutorKey s namespace e0 kt0
          = Some (Value kv)) as Hthis.
  { rewrite <- Hk. apply lookup_insert_eq. }
  assert (M !! buildExecutorKey s namespace e0 kt0 = None) as Hnone.
  { by rewrite <- Hk. }
  cbv zeta. repeat case_decide; subst.
  - intros Hloop. eapply IH; [done|done| |exact Hloop].
    replace (set_LastHeartbeat _ _)
      with (state_heartbeat (ShardState := ShardState) s namespace e0
              (<[Key kv := Value kv]> M)).
    2: { unfold state_heartbeat, set_LastHeartbeat. cbn.
         rewrite Hthis. by rewrite (Hother stateKey). }
    replace (state_assigned s namespace e0 M)
      with (state_assigned (ShardState := ShardState)
              (ShardAssignment := ShardAssignment) s namespace e0
              (<[Key kv := Value kv]> M)); [done|].
    unfold state_assigned.
    by rewrite (Hother reportedShardsKey), (Hother assignedShardsKey).
  - intros Hloop. eapply IH; [done|done| |exact Hloop].
    replace (set_State _ _)
      with (state_heartbeat (ShardState := ShardState) s namespace e0
              (<[Key kv := Value kv]> M)).
    2: { unfold state_heartbeat, set_State. cbn.
         rewrite Hthis. by rewrite (Hother heartbeatKey). }
    replace (state_assigned s namespace e0 M)
      with (state_assigned (ShardState := ShardState)
              (ShardAssignment := ShardAssignment) s namespace e0
              (<[Key kv := Value kv]> M)); [done|].
    unfold state_assigned.
    by rewrite (Hother reportedShardsKey), (Hother assignedShardsKey).
  - destruct (UnmarshalInto _ _) as [m|] eqn:Hu; [|done].
    intros Hloop. eapply IH; [done|done| |exact Hloop].
    replace (state_heartbeat s namespace e0 M)
      with (state_heartbeat (ShardState := ShardState) s namespace e0
              (<[Key kv := Value kv]> M)).
    2: { unfold state_heartbeat.
         by rewrite (Hother heartbeatKey), (Hother stateKey). }
    replace (set_as_ReportedShards _ _)
      with (state_assigned (ShardState := ShardState)
              (ShardAssignment := ShardAssignment) s namespace e0
              (<[Key kv := Value kv]> M)); [done|].
    revert Hu. unfold state_assigned, set_as_ReportedShards, UnmarshalInto. cbn.
    rewrite Hthis, Hnone, (Hother assignedShardsKey) by done. cbn.
    destruct (Unmarshal (Value kv)) as [[d|]|]; intros [= <-]; [|done].
    by rewrite (right_id_L ∅ (∪)).
  - destruct (UnmarshalInto _ _) as [m|] eqn:Hu; [|done].
    intros Hloop. eapply IH; [done|done| |exact Hloop].
    replace (state_heartbeat s namespace e0 M)
      with (state_heartbeat (ShardState := ShardState) s namespace e0
              (<[Key kv := Value kv]> M)).
    2: { unfold state_heartbeat.
         by rewrite (Hother heartbeatKey), (Hother stateKey). }
    replace (set_AssignedShards _ _)
      with (state_assigned (ShardState := ShardState)
              (ShardAssignment := ShardAssignment) s namespace e0
              (<[Key kv := Value kv]> M)); [done|].
    revert Hu. unfold state_assigned, set_AssignedShards, UnmarshalInto. cbn.
    rewrite Hthis, Hnone, (Hother reportedShardsKey) by done. cbn.
    destruct (Unmarshal (Value kv)) as [[d|]|]; intros [= <-]; [|done].
    by rewrite (right_id_L ∅ (∪)).
  - intros Hloop. eapply IH; [done|done| |exact Hloop].
    replace (state_heartbeat s namespace e0 M)
      with (state_heartbeat (ShardState := ShardState) s namespace e0
              (<[Key kv := Value kv]> M)).
    2: { unfold state_heartbeat.
         by rewrite (Hother heartbeatKey), (Hother stateKey). }
    replace (state_assigned s namespace e0 M)
      with (state_assigned (ShardState := ShardState)
              (ShardAssignment := ShardAssignment) s namespace e0
              (<[Key kv := Value kv]> M)); [done|].
    unfold state_assigned.
    by rewrite (Hother reportedShardsKey), (Hother assignedShardsKey).
Qed.

(** The values of a prefix read are the stored values of the keys under
    the prefix. *)
Lemma docs_of_range d p k :
  GoStrings.HasPrefix k p = true →
  docs_of (range_prefix d p) !! k = value <$> (d !! k).
Proof.
  intros Hp. unfold docs_of.
  assert (NoDup ((λ kv, (Key kv, Value kv)) <$> range_prefix d p).*1) as Hnd.
  { rewrite <- list_fmap_compose. apply NoDup_range_prefix. }
  destruct (d !! k) as [e|] eqn:Hl; simpl.
  - apply elem_of_list_to_map; [done|]. apply list_elem_of_fmap.
    exists (to_kv (k, e)). split; [done|]. apply elem_of_range_prefix. eauto.
  - apply not_elem_of_list_to_map_1. rewrite <- list_fmap_compose.
    intros (kv & -> & (k' & e' & Hl' & -> & _)%elem_of_range_prefix)%list_elem_of_fmap.
    simpl in Hl. congruence.
Qed.

(** What a successful [GetState] returns. *)
Lemma GetState_Ok_reads b hs asg rev :
  GetState s None namespace b = Ok (hs, asg, rev) →
  rev = revision b
  ∧ GetState_reads s namespace (value <$> data b) hs asg.
Proof.
  rewrite GetState_read.
  destruct (GetState_loop _ _ _ _ _) as [[hs0 asg0]|] eqn:Hloop; [|done].
  intros [= -> -> <-]. split; [done|].
  apply GetState_loop_reads with (M := ∅) in Hloop.
  - revert Hloop. apply GetState_reads_ext. intros e kt He Hkt.
    rewrite (right_id_L ∅ (∪)), lookup_fmap.
    apply docs_of_range, buildExecutorKey_under_namespace.
  - apply NoDup_range_prefix.
  - intros; apply lookup_empty.
  - intros e. left. split_and!; [apply lookup_empty..|]. intros; apply lookup_empty.
Qed.

End GetStateReads.

Section GetStateCases.
Context {ShardState ShardAssignment : Type}.
Context `{!JSON ShardState, !JSON ShardAssignment}.
Variable s : Store.
Variable namespace : string.

Import Etcd EtcdFacts.

Implicit Types hs : gmap string (HeartbeatState (ShardState := ShardState)).
Implicit Types asg : gmap string (AssignedState (ShardState := ShardState)
                                    (ShardAssignment := ShardAssignment)).

(** The executors of the two maps are those with a valid key. *)
Lemma GetState_reads_cases b hs asg executorID :
  GetState_reads s namespace (value <$> data b) hs asg →
  (has_valid_key s namespace executorID b
   ∧ hs !! executorID
     = Some (state_heartbeat s namespace executorID (value <$> data b))
   ∧ asg !! executorID
     = Some (state_assigned s namespace executorID (value <$> data b)))
  ∨ (¬ has_valid_key s namespace executorID b
     ∧ hs !! executorID = None ∧ asg !! executorID = None).
Proof.
  intros Hinv.
  destruct (Hinv executorID) as [(Hh & Ha & Hno)|(He & (kt & Hkt & Hs) & Hh & Ha)].
  - right. split_and!; [|done..].
    intros (He & kt & Hkt & Hs)%has_valid_key_build.
    specialize (Hno He kt Hkt). rewrite lookup_fmap in Hno.
    destruct Hs as [entry Hs]. by rewrite Hs in Hno.
  - left. split_and!; [|done..]. apply has_valid_key_build. split; [done|].
    exists kt. split; [done|]. rewrite lookup_fmap in Hs.
    by apply fmap_is_Some in Hs.
Qed.

(** A [GetState] that got through has met shard values that decode. *)
Lemma GetState_Ok_decodes b hs asg rev executorID entry :
  GetState s None namespace b = Ok (hs, asg, rev) →
  slash_free executorID →
  (data b !! buildExecutorKey s namespace executorID reportedShardsKey = Some entry →
     ∃ m, Unmarshal (V := ShardState) (value entry) = Ok m)
  ∧ (data b !! buildExecutorKey s namespace executorID assignedShardsKey = Some entry →
     ∃ m, Unmarshal (V := ShardAssignment) (value entry) = Ok m).
Proof.
  rewrite GetState_read. intros Hok He.
  split; intros Hl; apply namespace_range_lookup in Hl.
  - destruct (Unmarshal (V := ShardState) (value entry)) as [m|je] eqn:Hu; [eauto|].
    destruct (GetState_loop_Err s namespace _ (∅ : HeartbeatStates ShardState)
                (∅ : AssignedStates ShardState ShardAssignment) _ je Hl)
      as [err Herr].
    { left. split; [|exact Hu]. unfold keyType_of. cbn [to_kv Key fst].
      by rewrite parse_build. }
    by rewrite Herr in Hok.
  - destruct (Unmarshal (V := ShardAssignment) (value entry)) as [m|je] eqn:Hu;
      [eauto|].
    destruct (GetState_loop_Err s namespace _ (∅ : HeartbeatStates ShardState)
                (∅ : AssignedStates ShardState ShardAssignment) _ je Hl)
      as [err Herr].
    { right. split; [|exact Hu]. unfold keyType_of. cbn [to_kv Key fst].
      by rewrite parse_build. }
    by rewrite Herr in Hok.
Qed.

End GetStateCases.

(** X16. What [GetState] returns when every stored shard value decodes:
    the revision of the read, and two maps whose executors are exactly
    those with a stored key that parses. For each of them the heartbeat
    state has the timestamp as [ParseInt] gives it and the state as
    stored, and never any reported shards; the assigned state has the
    reported and the assigned shards decoded, each the empty map when its
    key is absent. *)
Theorem GetState_returns_stored {ShardState ShardAssignment : Type}
    `{!JSON ShardState, !JSON ShardAssignment}
    (s : Store) (namespace : string) (b : Etcd.Backend) :
  shards_decodable (ShardState := ShardState) (ShardAssignment := ShardAssignment)
    s namespace b →
  ∃ (hs : HeartbeatStates ShardState)
    (asg : AssignedStates ShardState ShardAssignment),
    GetState s None namespace b = Ok (hs, asg, Etcd.revision b)
    ∧ ∀ executorID,
        (has_valid_key s namespace executorID b
         ∧ hs !! executorID
           = Some (state_heartbeat s namespace executorID
                     (Etcd.value <$> Etcd.data b))
         ∧ asg !! executorID
           = Some (state_assigned s namespace executorID
                     (Etcd.value <$> Etcd.data b)))
        ∨ (¬ has_valid_key s namespace executorID b
           ∧ hs !! executorID = None ∧ asg !! executorID = None).
Proof.
  intros Hdec. destruct (GetState_Ok s namespace b Hdec) as (hs & asg & Hok).
  exists hs, asg. split; [done|]. intros executorID.
  apply GetState_reads_cases. by apply GetState_Ok_reads in Hok as [_ ?].
Qed.

Lemma GetState_returns_stored_witness :
  ∃ (hs : HeartbeatStates string) (asg : AssignedStates string string),
    GetState Examples.store0 None "ns" Examples.bad_timestamp_backend
    = Ok (hs, asg, Etcd.revision Examples.bad_timestamp_backend)
    ∧ ∀ executorID,
        (has_valid_key Examples.store0 "ns" executorID Examples.bad_timestamp_backend
         ∧ hs !! executorID
           = Some (state_heartbeat Examples.store0 "ns" executorID
                     (Etcd.value <$> Etcd.data Examples.bad_timestamp_backend))
         ∧ asg !! executorID
           = Some (state_assigned Examples.store0 "ns" executorID
                     (Etcd.value <$> Etcd.data Examples.bad_timestamp_backend)))
        ∨ (¬ has_valid_key Examples.store0 "ns" executorID
               Examples.bad_timestamp_backend
           ∧ hs !! executorID = None ∧ asg !! executorID = None).
Proof.
  apply (GetState_returns_stored Examples.store0 "ns" Examples.bad_timestamp_backend).
  intros key entry id Hl.
  assert (key = "/shard-distributor/ns/executors/executor-1/heartbeat"
          ∨ key = "/shard-distributor/ns/executors/executor-1/state") as Hkey.
  { unfold Examples.bad_timestamp_backend in Hl. cbn [Etcd.data] in Hl.
    apply lookup_insert_Some in Hl as [[<- _]|[_ Hl]]; [by left|].
    apply lookup_singleton_Some in Hl as [<- _]. by right. }
  destruct Hkey as [->| ->]; split; intros Hp; vm_compute in Hp; discriminate.
Defined.

(** X17. The two reads agree. For an executor that a successful
    [GetState] lists, [GetHeartbeat] on the same keyspace succeeds with the
    same timestamp and the same state. The reported shards are where the
    two differ: [GetState] leaves them out of the heartbeat state and puts
    them in the assigned state, equal to those of [GetHeartbeat] when the
    key is stored, and the empty map, where [GetHeartbeat] has none, when
    it is not. *)
Theorem GetState_agrees_with_GetHeartbeat {ShardState ShardAssignment : Type}
    `{!JSON ShardState, !JSON ShardAssignment}
    (s : Store) (namespace executorID : string) (b : Etcd.Backend)
    (hs : HeartbeatStates ShardState)
    (asg : AssignedStates ShardState ShardAssignment) (rev : Z)
    (st : HeartbeatState (ShardState := ShardState)) :
  GetState s None namespace b = Ok (hs, asg, rev) →
  hs !! executorID = Some st →
  ∃ st' a,
    GetHeartbeat s None namespace executorID b = Ok st'
    ∧ asg !! executorID = Some a
    ∧ LastHeartbeat st' = LastHeartbeat st
    ∧ State st' = State st
    ∧ hb_ReportedShards st = None
    ∧ match Etcd.data b !! buildExecutorKey s namespace executorID reportedShardsKey
      with
      | Some _ => as_ReportedShards a = hb_ReportedShards st'
      | None => as_ReportedShards a = Some ∅ ∧ hb_ReportedShards st' = None
      end.
Proof.
  intros Hok Hst.
  pose proof (GetState_Ok_reads s namespace b hs asg rev Hok) as [_ Hreads].
  destruct (GetState_reads_cases s namespace b hs asg executorID Hreads)
    as [(Hvalid & Hh & Ha)|(_ & Hh & _)]; [|congruence].
  rewrite Hst in Hh. injection Hh as ->.
  pose proof Hvalid as [He _]%has_valid_key_build.
  destruct (GetHeartbeat_cases (ShardState := ShardState) s namespace executorID b)
    as [[Hno _]|[(r & je & Hr & Hje & _)|(_ & _ & Hget)]]; [done| |].
  { destruct (GetState_Ok_decodes s namespace b hs asg rev executorID r Hok He)
      as [Hdec _].
    destruct (Hdec Hr) as [m Hm]. congruence. }
  eexists _, _. split; [exact Hget|]. split; [exact Ha|].
  unfold stored_heartbeat, state_heartbeat, state_assigned, shards_of. cbn.
  rewrite !lookup_fmap.
  destruct (Etcd.data b !! buildExecutorKey s namespace executorID heartbeatKey),
    (Etcd.data b !! buildExecutorKey s namespace executorID stateKey),
    (Etcd.data b !! buildExecutorKey s namespace executorID reportedShardsKey)
    as [r|] eqn:Hr; cbn; split_and!; try done.
  all: destruct (GetState_Ok_decodes s namespace b hs asg rev executorID r Hok He)
      as [Hdec _]; destruct (Hdec Hr) as [m Hm]; by rewrite Hm.
Qed.

Lemma GetState_agrees_with_GetHeartbeat_witness :
  ∃ st' a,
    GetHeartbeat Examples.store0 None "ns" "executor-1"
      Examples.after_first_heartbeat = Ok st'
    ∧ MoreExamples.asg_first !! "executor-1" = Some a
    ∧ LastHeartbeat st' = 1700000000
    ∧ State st' = "ACTIVE"
    ∧ (None : GoMap string) = None
    ∧ match Etcd.data Examples.after_first_heartbeat
              !! buildExecutorKey Examples.store0 "ns" "executor-1"
                   reportedShardsKey
      with
      | Some _ => as_ReportedShards a = hb_ReportedShards st'
      | None => as_ReportedShards a = Some ∅ ∧ hb_ReportedShards st' = None
      end.
Proof.
  apply (GetState_agrees_with_GetHeartbeat Examples.store0 "ns" "executor-1"
           Examples.after_first_heartbeat MoreExamples.hs_first
           MoreExamples.asg_first 2
           {| hb_ExecutorID := "executor-1"; LastHeartbeat := 1700000000;
              State := "ACTIVE"; hb_ReportedShards := None |}).
  - vm_compute. reflexivity.
  - vm_compute. reflexivity.
Defined.

Section WritesThenGetState.
Context {ShardState ShardAssignment : Type}.
Context `{!JSON ShardState, !JSON ShardAssignment}.
Variable s : Store.
Variable namespace : string.

Import Etcd EtcdFacts.

(** The values under the three keys of a heartbeat that got through. *)
Lemma RecordHeartbeat_stored now (req : HeartbeatState (ShardState := ShardState))
    b doc :
  Marshal (hb_ReportedShards req) = Ok doc →
  let d := data (backend (RecordHeartbeat s now None namespace req b)) in
  value <$> (d !! buildExecutorKey s namespace (hb_ExecutorID req) heartbeatKey)
    = Some (Strconv.FormatInt now)
  ∧ value <$> (d !! buildExecutorKey s namespace (hb_ExecutorID req) stateKey)
    = Some (State req)
  ∧ value <$> (d !! buildExecutorKey s namespace (hb_ExecutorID req) reportedShardsKey)
    = Some doc.
Proof.
  intros Hdoc. cbv zeta.
  destruct (RecordHeartbeat_commit s namespace now req b doc Hdoc)
    as (_ & _ & (e1 & e2 & e3 & -> & <- & <- & <-) & _).
  split_and!.
  - rewrite !lookup_insert_ne by (by intros ?%buildExecutorKey_inj).
    by rewrite lookup_insert_eq.
  - rewrite lookup_insert_ne by (by intros ?%buildExecutorKey_inj).
    by rewrite lookup_insert_eq.
  - by rewrite lookup_insert_eq.
Qed.

End WritesThenGetState.

(** X18. A heartbeat read back through [GetState]. After a heartbeat that
    returned nil, whose executor ID contains no slash, a [GetState] that
    succeeds returns the next revision and, for the executor, a heartbeat
    state with the time and the state of the call and an assigned state
    with the reported shards of the call (when JSON gives them back); the
    assigned shards are those read from the key the heartbeat did not
    touch. *)
Theorem RecordHeartbeat_then_GetState {ShardState ShardAssignment : Type}
    `{!JSON ShardState, !JSON ShardAssignment}
    (s : Store) (now : Z) (fault : option Etcd.Fault) (namespace : string)
    (req : HeartbeatState (ShardState := ShardState)) (b : Etcd.Backend)
    (hs : HeartbeatStates ShardState)
    (asg : AssignedStates ShardState ShardAssignment) (rev : Z) :
  let out := RecordHeartbeat s now fault namespace req b in
  ret out = Return None →
  slash_free (hb_ExecutorID req) →
  Strconv.is_int64 now →
  json_faithful (hb_ReportedShards req) →
  GetState s None namespace (backend out) = Ok (hs, asg, rev) →
  rev = Etcd.revision b + 1
  ∧ hs !! hb_ExecutorID req
    = Some {| hb_ExecutorID := hb_ExecutorID req; LastHeartbeat := now;
              State := State req; hb_ReportedShards := None |}
  ∧ asg !! hb_ExecutorID req
    = Some {| as_ExecutorID := hb_ExecutorID req;
              as_ReportedShards := hb_ReportedShards req;
              AssignedShards :=
                shards_of (Etcd.value <$>
                             (Etcd.data b !! buildExecutorKey s namespace
                                               (hb_ExecutorID req)
                                               assignedShardsKey)) |}.
Proof.
  cbv zeta. intros Hok Hid Hnow Hjson Hget.
  pose proof (RecordHeartbeat_success_inv s namespace now fault req b Hok)
    as [-> [doc Hdoc]].
  destruct (RecordHeartbeat_commit s namespace now req b doc Hdoc)
    as (_ & _ & _ & Hrev).
  destruct (RecordHeartbeat_stored s namespace now req b doc Hdoc)
    as (Hhk & Hsk & Hrk).
  pose proof (GetState_Ok_reads s namespace _ hs asg rev Hget) as [-> Hreads].
  split; [done|].
  destruct (GetState_reads_cases s namespace _ hs asg (hb_ExecutorID req) Hreads)
    as [(_ & -> & ->)|(Hno & _)].
  2: { destruct Hno. apply has_valid_key_build. split; [done|].
       exists stateKey. split; [done|]. by eapply fmap_is_Some; rewrite Hsk. }
  unfold state_heartbeat, state_assigned. rewrite !lookup_fmap.
  rewrite Hhk, Hsk, Hrk. cbn.
  rewrite StrconvFacts.ParseInt_FormatInt by done.
  rewrite (Hjson doc Hdoc). split; [done|]. do 3 f_equal.
  rewrite RecordHeartbeat_other_keys; [done|]. rewrite !elem_of_cons.
  intros [H|[H|[H|H]]]; [by apply buildExecutorKey_inj in H..|].
  by apply elem_of_nil in H.
Qed.

Lemma RecordHeartbeat_then_GetState_witness :
  2 = Etcd.revision Examples.empty_backend + 1
  ∧ MoreExamples.hs_first !! "executor-1"
    = Some {| hb_ExecutorID := "executor-1"; LastHeartbeat := 1700000000;
              State := "ACTIVE"; hb_ReportedShards := None |}
  ∧ MoreExamples.asg_first !! "executor-1"
    = Some {| as_ExecutorID := "executor-1";
              as_ReportedShards := Some {[ "shard-1" := "ready" ]};
              AssignedShards :=
                shards_of (Etcd.value <$>
                             (Etcd.data Examples.empty_backend
                                !! buildExecutorKey Examples.store0 "ns"
                                     "executor-1" assignedShardsKey)) |}.
Proof.
  apply (RecordHeartbeat_then_GetState Examples.store0 1700000000 None "ns"
           Examples.steady_request Examples.empty_backend MoreExamples.hs_first
           MoreExamples.asg_first 2).
  - vm_compute. reflexivity.
  - reflexivity.
  - vm_compute. split; discriminate.
  - intros doc H. vm_compute in H. injection H as <-. vm_compute. reflexivity.
  - vm_compute. reflexivity.
Defined.

(** X19. An assignment read back through [GetState]. After an
    [AssignShards] that returned nil, a [GetState] that succeeds returns,
    for every executor of the new state whose ID contains no slash, an
    assigned state with the assigned shards of the new state (when JSON
    gives them back), and a heartbeat state that is the one of the
    keyspace before the assignment. *)
Theorem AssignShards_then_GetState {ShardState ShardAssignment : Type}
    `{!JSON ShardState, !JSON ShardAssignment}
    (s : Store) (fault : option Etcd.Fault)
    (namespace executorID : string)
    (newState : AssignedStates ShardState ShardAssignment)
    (guard : GuardFunc) (b : Etcd.Backend)
    (st : AssignedState (ShardState := ShardState)
                        (ShardAssignment := ShardAssignment))
    (hs : HeartbeatStates ShardState)
    (asg : AssignedStates ShardState ShardAssignment) (rev : Z) :
  let out := AssignShards s fault namespace newState guard b in
  ret out = Return None →
  newState !! executorID = Some st →
  slash_free executorID →
  json_faithful (AssignedShards st) →
  GetState s None namespace (backend out) = Ok (hs, asg, rev) →
  rev = Etcd.revision b + 1
  ∧ hs !! executorID
    = Some (state_heartbeat s namespace executorID (Etcd.value <$> Etcd.data b))
  ∧ ∃ a, asg !! executorID = Some a
      ∧ AssignedShards a = AssignedShards st
      ∧ as_ReportedShards a
        = as_ReportedShards
            (state_assigned (ShardAssignment := ShardAssignment) s namespace
               executorID (Etcd.value <$> Etcd.data b)).
Proof.
  cbv zeta. intros Hok Hst Hid Hjson Hget.
  destruct (AssignShards_success s namespace fault newState guard b Hok)
    as (Hin & Hout & _ & Hrev).
  destruct (Hin executorID st Hst) as (doc & Hdoc & Hstored).
  pose proof (GetState_Ok_reads s namespace _ hs asg rev Hget) as [-> Hreads].
  split. { apply Hrev. intros ->. by rewrite lookup_empty in Hst. }
  assert (∀ keyType, slash_free keyType → keyType ≠ assignedShardsKey →
            Etcd.data (backend (AssignShards s fault namespace newState guard b))
              !! buildExecutorKey s namespace executorID keyType
            = Etcd.data b !! buildExecutorKey s namespace executorID keyType)
    as Hsame.
  { intros keyType Hkt Hne. apply Hout. intros id _ Heq.
    rewrite !buildExecutorKey_snoc in Heq.
    by apply app_sep_inj_r in Heq as [_ ?]. }
  destruct (GetState_reads_cases s namespace _ hs asg executorID Hreads)
    as [(_ & -> & ->)|(Hno & _)].
  2: { destruct Hno. apply has_valid_key_build. split; [done|].
       exists assignedShardsKey. split; [done|].
       by eapply fmap_is_Some; rewrite Hstored. }
  split.
  - unfold state_heartbeat. rewrite !lookup_fmap.
    by rewrite (Hsame heartbeatKey), (Hsame stateKey).
  - eexists. split; [done|]. unfold state_assigned, shards_of. cbn.
    rewrite !lookup_fmap, Hstored, (Hjson doc Hdoc).
    by rewrite (Hsame reportedShardsKey).
Qed.

Lemma AssignShards_then_GetState_witness :
  8 = Etcd.revision MoreExamples.led_backend + 1
  ∧ MoreExamples.hs_assigned !! "executor-2"
    = Some (state_heartbeat Examples.store0 "ns" "executor-2"
              (Etcd.value <$> Etcd.data MoreExamples.led_backend))
  ∧ ∃ a, MoreExamples.asg_assigned !! "executor-2" = Some a
      ∧ AssignedShards a = Some {[ "shard-2" := "assigned" ]}
      ∧ as_ReportedShards a
        = as_ReportedShards
            (state_assigned (ShardAssignment := string) Examples.store0 "ns"
               "executor-2" (Etcd.value <$> Etcd.data MoreExamples.led_backend)).
Proof.
  apply (AssignShards_then_GetState Examples.store0 None "ns" "executor-2"
           MoreExamples.assignment2 MoreExamples.live_guard
           MoreExamples.led_backend
           {| as_ExecutorID := "executor-2"; as_ReportedShards := None;
              AssignedShards := Some {[ "shard-2" := "assigned" ]} |}
           MoreExamples.hs_assigned MoreExamples.asg_assigned 8).
  - vm_compute. reflexivity.
  - vm_compute. reflexivity.
  - reflexivity.
  - intros doc H. vm_compute in H. injection H as <-. vm_compute. reflexivity.
  - vm_compute. reflexivity.
Defined.

(** X20. A deletion read back through [GetState]. After a
    [DeleteExecutors] that returned nil, a [GetState] that succeeds lists
    none of the deleted executors, and lists every other executor of the
    namespace with the states it had before. *)
Theorem DeleteExecutors_then_GetState {ShardState ShardAssignment : Type}
    `{!JSON ShardState, !JSON ShardAssignment}
    (s : Store) (fault : option Etcd.Fault) (namespace : string)
    (executorIDs : list string) (guard : GuardFunc) (b : Etcd.Backend)
    (hs : HeartbeatStates ShardState)
    (asg : AssignedStates ShardState ShardAssignment) (rev : Z) :
  let out := DeleteExecutors s fault namespace executorIDs guard b in
  ret out = Return None →
  GetState s None namespace (backend out) = Ok (hs, asg, rev) →
  (∀ id, id ∈ executorIDs → hs !! id = None ∧ asg !! id = None)
  ∧ (∀ id, id ∉ executorIDs → has_valid_key s namespace id b →
       hs !! id = Some (state_heartbeat s namespace id (Etcd.value <$> Etcd.data b))
       ∧ asg !! id
         = Some (state_assigned s namespace id (Etcd.value <$> Etcd.data b))).
Proof.
  cbv zeta. intros Hok Hget.
  destruct (DeleteExecutors_success s namespace fault executorIDs guard b Hok)
    as (Hgone & Hstay & _).
  pose proof (GetState_Ok_reads s namespace _ hs asg rev Hget) as [_ Hreads].
  split.
  - intros id Hid.
    destruct (GetState_reads_cases s namespace _ hs asg id Hreads)
      as [((key & entry & r & Hl & Hp & _) & _)|(_ & ? & ?)]; [|done].
    rewrite <- executor_delete_prefix_key in Hp.
    by rewrite (Hgone key id Hid Hp) in Hl.
  - intros id Hid (He & kt & Hkt & Hs)%has_valid_key_build.
    assert (∀ keyType, slash_free keyType →
              Etcd.data (backend (DeleteExecutors s fault namespace executorIDs
                                    guard b))
                !! buildExecutorKey s namespace id keyType
              = Etcd.data b !! buildExecutorKey s namespace id keyType) as Hsame.
    { intros keyType Hkt'. apply Hstay. intros id' Hid'.
      destruct (GoStrings.HasPrefix _ _) eqn:Hp; [|done].
      apply executor_delete_prefix_own in Hp; [|done..]. by subst. }
    destruct (GetState_reads_cases s namespace _ hs asg id Hreads)
      as [(_ & -> & ->)|(Hno & _)].
    + split; f_equal.
      * apply state_heartbeat_ext. intros. by rewrite !lookup_fmap, Hsame.
      * apply state_assigned_ext. intros. by rewrite !lookup_fmap, Hsame.
    + destruct Hno. apply has_valid_key_build. split; [done|].
      exists kt. split; [done|]. by rewrite Hsame.
Qed.

Lemma DeleteExecutors_then_GetState_witness :
  (∀ id, id ∈ ["executor-1"] →
     MoreExamples.hs_deleted !! id = None ∧ MoreExamples.asg_deleted !! id = None)
  ∧ (∀ id, id ∉ ["executor-1"] →
       has_valid_key Examples.store0 "ns" id (backend MoreExamples.assigned) →
       MoreExamples.hs_deleted !! id
       = Some (state_heartbeat Examples.store0 "ns" id
                 (Etcd.value <$> Etcd.data (backend MoreExamples.assigned)))
       ∧ MoreExamples.asg_deleted !! id
         = Some (state_assigned Examples.store0 "ns" id
                   (Etcd.value <$> Etcd.data (backend MoreExamples.assigned)))).
Proof.
  apply (DeleteExecutors_then_GetState Examples.store0 None "ns" ["executor-1"]
           MoreExamples.live_guard (backend MoreExamples.assigned)
           MoreExamples.hs_deleted MoreExamples.asg_deleted 9).
  - vm_compute. reflexivity.
  - vm_compute. reflexivity.
Defined.

(** ** Subscribe: what reaches the consumer *)

Section SubscribeTrace.
Variable s : Store.
Variable namespace : string.

Import Subscribe.

(** One action adds at most the revision of a significant response, at the
    end, and may drop a revision. *)
Lemma step_passed_on a st st' :
  step s namespace a st = Some st' →
  passed_on st' `sublist_of` passed_on st ++ significant_revisions s namespace [a].
Proof.
  unfold step, passed_on, significant_revisions.
  destruct a as [resp| | |], st as [[] sl cl rcv]; simpl; try done;
    repeat (match goal with
            | |- context [match ?x with _ => _ end] => destruct x eqn:?
            end);
    intros; simplify_eq/=; rewrite ?app_nil_r; try done.
  all: try (by rewrite <- !(assoc_L (++))).
  apply sublist_app; [done|]. by apply sublist_inserts_l.
Qed.

Lemma significant_revisions_cons a acts :
  significant_revisions s namespace (a :: acts)
  = significant_revisions s namespace [a] ++ significant_revisions s namespace acts.
Proof.
  unfold significant_revisions. simpl.
  destruct a as [resp| | |]; try done.
  destruct (Etcd.WatchErr resp); [done|]. by destruct (isSignificantChange _ _ _).
Qed.

Lemma run_passed_on acts st st' :
  run s namespace acts st = Some st' →
  passed_on st' `sublist_of` passed_on st ++ significant_revisions s namespace acts.
Proof.
  revert st. induction acts as [|a acts IH]; intros st.
  { simpl. intros [= ->]. by rewrite app_nil_r. }
  cbn [run]. destruct (step s namespace a st) as [st1|] eqn:Hstep; [|done].
  intros Hrun. rewrite significant_revisions_cons.
  etrans; [by apply IH|]. rewrite (assoc_L (++)).
  apply sublist_app; [|done]. by apply step_passed_on.
Qed.

(** What makes a response significant. *)
Lemma isSignificantChange_true events :
  isSignificantChange s namespace events = true →
  ∃ ev, ev ∈ events
    ∧ (Etcd.Type_ ev = Etcd.DELETE
       ∨ ∃ executorID keyType,
           parseExecutorKey s namespace (Etcd.Key (Etcd.Kv ev))
           = Ok (executorID, keyType)
           ∧ keyType ≠ heartbeatKey ∧ keyType ≠ assignedShardsKey).
Proof.
  induction events as [|x rest IH]; [done|]. simpl.
  destruct (negb (Etcd.IsCreate x) && negb (Etcd.IsModify x)) eqn:Hx.
  { intros _. exists x. split; [by left|]. left.
    unfold Etcd.IsCreate, Etcd.IsModify in Hx.
    destruct (Etcd.Type_ x); [|done]. simpl in Hx.
    by destruct (_ =? _)%Z. }
  destruct (parseExecutorKey s namespace (Etcd.Key (Etcd.Kv x)))
    as [[id kt]|] eqn:Hp.
  2: { intros (ev & Hin & H)%IH. exists ev. split; [by right|done]. }
  destruct (bool_decide (kt ≠ heartbeatKey) && bool_decide (kt ≠ assignedShardsKey))
    eqn:Hkt.
  - intros _. exists x. split; [by left|]. right. exists id, kt.
    apply andb_true_iff in Hkt as [?%bool_decide_eq_true ?%bool_decide_eq_true].
    done.
  - intros (ev & Hin & H)%IH. exists ev. split; [by right|done].
Qed.

End SubscribeTrace.

(** X21. The filter of [Subscribe], in full: a watch response is
    significant exactly when one of its events is a delete, or is a put on
    a key that parses as an executor key of the namespace with a key type
    other than the heartbeat and the assigned shards. *)
Theorem isSignificantChange_iff (s : Store) (namespace : string)
    (events : list Etcd.Event) :
  isSignificantChange s namespace events = true
  ↔ ∃ ev, ev ∈ events
      ∧ (Etcd.Type_ ev = Etcd.DELETE
         ∨ ∃ executorID keyType,
             parseExecutorKey s namespace (Etcd.Key (Etcd.Kv ev))
             = Ok (executorID, keyType)
             ∧ keyType ≠ heartbeatKey ∧ keyType ≠ assignedShardsKey).
Proof.
  split; [apply isSignificantChange_true|].
  intros (ev & Hin & [Hdel|(id & kt & Hp & Hh & Ha)]).
  - apply delete_is_significant. eauto.
  - by eapply put_is_significant.
Qed.

(** X22. Whatever the goroutine and the consumer do, and in whatever
    order, the revisions the consumer has received, followed by the one in
    the buffer and the one the goroutine holds, are revisions of
    significant responses delivered without error, in the order of their
    delivery, each at most once per delivery: the channel drops revisions
    and never invents, repeats or reorders them. *)
Theorem subscribe_passes_on_significant (s : Store) (namespace : string)
    (acts : list Subscribe.Action) (st : Subscribe.State) :
  Subscribe.run s namespace acts Subscribe.init = Some st →
  passed_on st `sublist_of` significant_revisions s namespace acts.
Proof. intros Hrun. by apply run_passed_on in Hrun. Qed.

Lemma subscribe_passes_on_significant_witness :
  passed_on {| Subscribe.pc := Subscribe.Watching; Subscribe.slot := Some 4;
               Subscribe.closed := false; Subscribe.received := [3] |}
    `sublist_of`
  significant_revisions Examples.store0 "ns"
    (Subscribe.handle (Examples.shards_changed 3) ++ [Subscribe.Receive]
     ++ Subscribe.handle (Examples.shards_changed 4)).
Proof.
  apply (subscribe_passes_on_significant Examples.store0 "ns"
           (Subscribe.handle (Examples.shards_changed 3) ++ [Subscribe.Receive]
            ++ Subscribe.handle (Examples.shards_changed 4))).
  vm_compute. reflexivity.
Defined.

(** ** Guard safety *)

(** C1. A guard whose leadership precondition fails: the guard hands back
    an etcd transaction to which it has added its compares and nothing
    else, and the compares do not hold in the keyspace. Then
    [AssignShards] with something to assign (that serializes) and
    [DeleteExecutors] with something to delete return the leadership-lost
    error, the backend is as it was, no event is published, and [GetState]
    reads the same snapshot as before. And whatever becomes of the round
    trip of the commit, also when its answer is lost, neither call returns
    nil and neither writes anything. *)
Theorem guard_safety {ShardState ShardAssignment : Type}
    `{!JSON ShardState, !JSON ShardAssignment}
    (s : Store) (namespace : string) (guard : GuardFunc) (b : Etcd.Backend)
    (g : Etcd.Txn)
    (newState : gmap string (AssignedState (ShardState := ShardState)
                                           (ShardAssignment := ShardAssignment)))
    (executorIDs : list string) :
  guard (EtcdTxn Etcd.NewTxn) = Ok (EtcdTxn g) →
  Etcd.sus g = None → Etcd.fas g = None →
  Etcd.eval_cmps (Etcd.data b) (default [] (Etcd.cmps g)) = false →
  newState ≠ ∅ →
  (∀ id st, newState !! id = Some st →
     ∃ doc, Marshal (AssignedShards st) = Ok doc) →
  executorIDs ≠ [] →
  let assign := AssignShards s None namespace newState guard b in
  let delete := DeleteExecutors s None namespace executorIDs guard b in
  ret assign = Return (Some ErrLeadershipLost)
  ∧ ret delete = Return (Some ErrLeadershipLost)
  ∧ Error ErrLeadershipLost = "transaction failed, leadership may have changed"
  ∧ backend assign = b ∧ events assign = []
  ∧ backend delete = b ∧ events delete = []
  ∧ (∀ f, GetState (ShardState := ShardState) (ShardAssignment := ShardAssignment)
            s f namespace (backend assign)
          = GetState s f namespace b)
  ∧ (∀ f, GetState (ShardState := ShardState) (ShardAssignment := ShardAssignment)
            s f namespace (backend delete)
          = GetState s f namespace b)
  ∧ ∀ fault,
      let assign' := AssignShards s fault namespace newState guard b in
      let delete' := DeleteExecutors s fault namespace executorIDs guard b in
      ret assign' ≠ Return None ∧ backend assign' = b ∧ events assign' = []
      ∧ ret delete' ≠ Return None ∧ backend delete' = b ∧ events delete' = [].
Proof.
  intros Hg Hsus Hfas Hcmp Hnew Hdocs Hids. cbv zeta.
  destruct (AssignShards_compare_fails s namespace None newState guard b g
              Hg Hcmp Hnew) as (_ & Hab & Hae & Har).
  destruct (DeleteExecutors_compare_fails s namespace None executorIDs guard b g
              Hg Hcmp Hids) as (_ & Hdb & Hde & Hdr).
  split_and!.
  - by apply Har.
  - by apply Hdr.
  - done.
  - done.
  - done.
  - done.
  - done.
  - intros f. by rewrite Hab.
  - intros f. by rewrite Hdb.
  - intros fault.
    destruct (AssignShards_compare_fails s namespace fault newState guard b g
                Hg Hcmp Hnew) as (? & ? & ? & _).
    destruct (DeleteExecutors_compare_fails s namespace fault executorIDs guard b g
                Hg Hcmp Hids) as (? & ? & ? & _).
    done.
Qed.

(** A guard from a grant at revision 5, the leader key rewritten at
    revision 7: the assignment and the deletion are refused and the
    keyspace stays. *)
Lemma guard_safety_witness :
  let assign := AssignShards Examples.store0 None "ns" Examples.assignment
                  Examples.stale_guard Examples.new_leader_backend in
  let delete := DeleteExecutors Examples.store0 None "ns" ["executor-1"]
                  Examples.stale_guard Examples.new_leader_backend in
  ret assign = Return (Some ErrLeadershipLost)
  ∧ ret delete = Return (Some ErrLeadershipLost)
  ∧ backend assign = Examples.new_leader_backend
  ∧ backend delete = Examples.new_leader_backend.
Proof.
  cbv zeta.
  destruct (guard_safety (ShardState := string) (ShardAssignment := string)
              Examples.store0 "ns" Examples.stale_guard
              Examples.new_leader_backend MoreExamples.stale_txn
              Examples.assignment ["executor-1"])
    as (Ha & Hd & _ & Hab & _ & Hdb & _).
  - reflexivity.
  - reflexivity.
  - reflexivity.
  - vm_compute. reflexivity.
  - apply map_non_empty_singleton.
  - intros id st Hl. unfold Examples.assignment in Hl.
    apply lookup_singleton_Some in Hl as [<- <-]. eexists. vm_compute.
    reflexivity.
  - discriminate.
  - split_and!; [exact Ha|exact Hd|exact Hab|exact Hdb].
Defined.

(** ** Writes are atomic *)

(** X6. A heartbeat is atomic and never panics. Whatever becomes of its
    round trip, the three puts are applied together or not at all. Either
    it returns nil and they are applied: the revision has moved by one,
    three events were published, the three keys of the executor hold the
    time, the state and the serialized shards of the call, and every other
    key holds what it held. Or it returns an error and nothing was
    written: the keyspace and its revision are what they were and no event
    was published. Or the answer of the server was lost: the call returns
    that error, wrapped, and the puts are applied as in the first case.
    An error with the puts applied is a lost answer: with the round trip
    answered, or the request lost, an error means that nothing was
    written. *)
Theorem RecordHeartbeat_atomic {ShardState : Type} `{!JSON ShardState}
    (s : Store) (now : Z) (fault : option Etcd.Fault) (namespace : string)
    (req : HeartbeatState (ShardState := ShardState)) (b : Etcd.Backend) :
  let out := RecordHeartbeat s now fault namespace req b in
  let key := buildExecutorKey s namespace (hb_ExecutorID req) in
  let applied :=
    Etcd.revision (backend out) = Etcd.revision b + 1
    ∧ length (events out) = 3%nat
    ∧ (∃ doc, Marshal (hb_ReportedShards req) = Ok doc
         ∧ Etcd.value <$> (Etcd.data (backend out) !! key heartbeatKey)
           = Some (Strconv.FormatInt now)
         ∧ Etcd.value <$> (Etcd.data (backend out) !! key stateKey)
           = Some (State req)
         ∧ Etcd.value <$> (Etcd.data (backend out) !! key reportedShardsKey)
           = Some doc)
    ∧ ∀ k, k ∉ [key heartbeatKey; key stateKey; key reportedShardsKey] →
        Etcd.data (backend out) !! k = Etcd.data b !! k in
  ((ret out = Return None ∧ fault = None ∧ applied)
   ∨ ((∃ err, ret out = Return (Some err)) ∧ backend out = b ∧ events out = [])
   ∨ (∃ e, fault = Some (Etcd.ResponseLost e)
        ∧ ret out = Return (Some (Wrapf "record heartbeat" e))
        ∧ applied))
  ∧ ((∀ e, fault ≠ Some (Etcd.ResponseLost e)) → ret out ≠ Return None →
     backend out = b ∧ events out = []).
Proof.
  cbv zeta.
  assert (ret (RecordHeartbeat s now None namespace req b) = Return None →
          Etcd.revision (backend (RecordHeartbeat s now None namespace req b))
          = Etcd.revision b + 1
          ∧ length (events (RecordHeartbeat s now None namespace req b)) = 3%nat
          ∧ (∃ doc, Marshal (hb_ReportedShards req) = Ok doc
               ∧ Etcd.value <$>
                   (Etcd.data (backend (RecordHeartbeat s now None namespace req b))
                      !! buildExecutorKey s namespace (hb_ExecutorID req)
                           heartbeatKey)
                 = Some (Strconv.FormatInt now)
               ∧ Etcd.value <$>
                   (Etcd.data (backend (RecordHeartbeat s now None namespace req b))
                      !! buildExecutorKey s namespace (hb_ExecutorID req) stateKey)
                 = Some (State req)
               ∧ Etcd.value <$>
                   (Etcd.data (backend (RecordHeartbeat s now None namespace req b))
                      !! buildExecutorKey s namespace (hb_ExecutorID req)
                           reportedShardsKey)
                 = Some doc)) as Happlied.
  { intros Hok.
    pose proof (RecordHeartbeat_success_inv s namespace now None req b Hok)
      as [_ [doc Hdoc]].
    destruct (RecordHeartbeat_commit s namespace now req b doc Hdoc)
      as (_ & _ & _ & Hrev).
    destruct (RecordHeartbeat_events s namespace now req b doc Hdoc)
      as (kv1 & kv2 & kv3 & Hev & _).
    destruct (RecordHeartbeat_stored s namespace now req b doc Hdoc)
      as (Hhk & Hsk & Hrk).
    split_and!; [done|by rewrite Hev|]. by exists doc. }
  destruct (RecordHeartbeat_outcome s namespace now fault req b)
    as [[Hok ->]|[(Herr & Hb & Hev)|(e & -> & Hret & Hok & Hb & Hev)]].
  - split; [|done]. left. destruct (Happlied Hok) as (? & ? & ?).
    split_and!; [done..|]. intros k Hk. by apply RecordHeartbeat_other_keys.
  - split; [|done]. right; left. done.
  - split; [|by intros Hno; destruct (Hno e)].
    right; right. exists e. split; [done|]. split; [done|].
    rewrite Hb, Hev. destruct (Happlied Hok) as (? & ? & ?).
    split_and!; [done..|]. intros k Hk. rewrite <- Hb.
    by apply RecordHeartbeat_other_keys.
Qed.

(** The answer to the first heartbeat of "executor-1" is lost: the call
    returns the error and the heartbeat is stored. *)
Lemma RecordHeartbeat_atomic_witness :
  let out := RecordHeartbeat Examples.store0 1700000000
               (Some MoreExamples.deadline) "ns" Examples.steady_request
               Examples.empty_backend in
  ret out
  = Return (Some (Wrapf "record heartbeat" (Errorf "context deadline exceeded")))
  ∧ Etcd.revision (backend out) = Etcd.revision Examples.empty_backend + 1
  ∧ length (events out) = 3%nat.
Proof.
  cbv zeta.
  destruct (RecordHeartbeat_atomic Examples.store0 1700000000
              (Some MoreExamples.deadline) "ns" Examples.steady_request
              Examples.empty_backend)
    as [[(_ & Hf & _)|[(_ & Hb & _)|(e & Hf & Hret & Hrev & Hlen & _)]] _].
  - discriminate Hf.
  - apply (f_equal Etcd.revision) in Hb. vm_compute in Hb. discriminate Hb.
  - injection Hf as <-. split_and!; [exact Hret|exact Hrev|exact Hlen].
Defined.

(** X8. [AssignShards] is atomic. When it returns anything but nil,
    either nothing was written (the keyspace and its revision are what
    they were and no event was published), or the answer of the server to
    the commit was lost: then the call returns that error, wrapped, and
    the assignment is applied as a whole, each executor's assigned-shards
    key holding its serialized shards and no other key changed. With the
    round trip answered, or the request lost, an error (of serialization,
    of the guard, of the commit, a compare of the guard that did not hold)
    means that nothing was written. *)
Theorem AssignShards_all_or_nothing {ShardState ShardAssignment : Type}
    `{!JSON ShardState, !JSON ShardAssignment}
    (s : Store) (fault : option Etcd.Fault) (namespace : string)
    (newState : gmap string (AssignedState (ShardState := ShardState)
                                           (ShardAssignment := ShardAssignment)))
    (guard : GuardFunc) (b : Etcd.Backend) :
  let out := AssignShards s fault namespace newState guard b in
  ret out ≠ Return None →
  ((backend out = b ∧ events out = [])
   ∨ (∃ e, fault = Some (Etcd.ResponseLost e)
        ∧ ret out = Return (Some (Wrapf "commit shard assignments" e))
        ∧ (∀ id st, newState !! id = Some st →
             ∃ doc, Marshal (AssignedShards st) = Ok doc
               ∧ Etcd.value <$>
                   (Etcd.data (backend out)
                      !! buildExecutorKey s namespace id assignedShardsKey)
                 = Some doc)
        ∧ (∀ key, (∀ id, id ∈ dom newState →
                     key ≠ buildExecutorKey s namespace id assignedShardsKey) →
             Etcd.data (backend out) !! key = Etcd.data b !! key)))
  ∧ ((∀ e, fault ≠ Some (Etcd.ResponseLost e)) →
     backend out = b ∧ events out = []).
Proof.
  cbv zeta. intros Hret.
  destruct (AssignShards_outcome s namespace fault newState guard b)
    as [Hok|[(_ & Hb & Hev)|(e & -> & Hr & Hok & Hb & Hev)]]; [done| |].
  - split; [by left|done].
  - split; [|by intros Hno; destruct (Hno e)].
    right. exists e. split; [done|]. split; [done|]. rewrite Hb.
    destruct (AssignShards_success s namespace None newState guard b Hok)
      as (Hin & Hout & _).
    done.
Qed.

(** The answer to the commit of an assignment is lost: the call returns
    the error and the assignment of "executor-2" is stored. *)
Lemma AssignShards_all_or_nothing_witness :
  let out := AssignShards Examples.store0 (Some MoreExamples.deadline) "ns"
               MoreExamples.assignment2 MoreExamples.live_guard
               MoreExamples.led_backend in
  ret out
  = Return (Some (Wrapf "commit shard assignments"
                    (Errorf "context deadline exceeded")))
  ∧ ∃ doc, Etcd.value <$>
             (Etcd.data (backend out)
                !! buildExecutorKey Examples.store0 "ns" "executor-2"
                     assignedShardsKey)
           = Some doc.
Proof.
  cbv zeta.
  destruct (AssignShards_all_or_nothing Examples.store0
              (Some MoreExamples.deadline) "ns" MoreExamples.assignment2
              MoreExamples.live_guard MoreExamples.led_backend)
    as [[[Hb _]|(e & Hf & Hret & Hin & _)] _].
  - vm_compute. discriminate.
  - apply (f_equal Etcd.revision) in Hb. vm_compute in Hb. discriminate Hb.
  - injection Hf as <-. split; [exact Hret|].
    destruct (Hin "executor-2"
                {| as_ExecutorID := "executor-2"; as_ReportedShards := None;
                   AssignedShards := Some {[ "shard-2" := "assigned" ]} |})
      as (doc & _ & Hdoc).
    + vm_compute. reflexivity.
    + exists doc. exact Hdoc.
Defined.

(** X9. [DeleteExecutors] is atomic in the same way. When it returns
    anything but nil, either nothing was deleted (the keyspace and its
    revision are what they were and no event was published), or the answer
    of the server to the commit was lost: then the call returns that
    error, wrapped, and the deletion is applied as a whole, every key
    under the prefix of a listed executor gone and every other key as it
    was. With the round trip answered, or the request lost, an error means
    that nothing was deleted. *)
Theorem DeleteExecutors_all_or_nothing
    (s : Store) (fault : option Etcd.Fault) (namespace : string)
    (executorIDs : list string) (guard : GuardFunc) (b : Etcd.Backend) :
  let out := DeleteExecutors s fault namespace executorIDs guard b in
  ret out ≠ Return None →
  ((backend out = b ∧ events out = [])
   ∨ (∃ e, fault = Some (Etcd.ResponseLost e)
        ∧ ret out = Return (Some (Wrapf "commit executor deletion" e))
        ∧ (∀ k id, id ∈ executorIDs →
             GoStrings.HasPrefix k (executor_delete_prefix s namespace id) = true →
             Etcd.data (backend out) !! k = None)
        ∧ (∀ k, (∀ id, id ∈ executorIDs →
                   GoStrings.HasPrefix k (executor_delete_prefix s namespace id)
                   = false) →
             Etcd.data (backend out) !! k = Etcd.data b !! k)))
  ∧ ((∀ e, fault ≠ Some (Etcd.ResponseLost e)) →
     backend out = b ∧ events out = []).
Proof.
  cbv zeta. intros Hret.
  destruct (DeleteExecutors_outcome s namespace fault executorIDs guard b)
    as [Hok|[(_ & Hb & Hev)|(e & -> & Hr & Hok & Hb & Hev)]]; [done| |].
  - split; [by left|done].
  - split; [|by intros Hno; destruct (Hno e)].
    right. exists e. split; [done|]. split; [done|]. rewrite Hb.
    destruct (DeleteExecutors_success s namespace None executorIDs guard b Hok)
      as (Hgone & Hstay & _).
    done.
Qed.

(** A stale guard, and the request lost on top: nothing is deleted. *)
Lemma DeleteExecutors_all_or_nothing_witness :
  let out := DeleteExecutors Examples.store0
               (Some (Etcd.RequestLost (Errorf "connection refused"))) "ns"
               ["executor-1"] Examples.stale_guard MoreExamples.led_backend in
  backend out = MoreExamples.led_backend ∧ events out = [].
Proof.
  cbv zeta.
  apply (DeleteExecutors_all_or_nothing Examples.store0
           (Some (Etcd.RequestLost (Errorf "connection refused"))) "ns"
           ["executor-1"] Examples.stale_guard MoreExamples.led_backend).
  - vm_compute. discriminate.
  - intros e. discriminate.
Defined.

(** ** Malformed stored values, again *)

Section SameFields.
Context {ShardState : Type} `{!JSON ShardState}.
Variable s : Store.
Variable namespace : string.

Import Etcd EtcdFacts.


End SameFields.



